(** * X-agent: posting quota, duplicate store and approval gate

    A shallow embedding of [config.py], [database.py] and [post_tweet.py]
    of the X Bot Agent, and the properties of its posting workflow.

    - Python text is a list of code points, so that [len], slicing and
      [strip] count characters the way Python does.
    - The SQLite tables are lists of rows; the UNIQUE columns are kept
      unique by the statements themselves ([INSERT OR IGNORE],
      [ON CONFLICT ... DO UPDATE]), which is proved, not assumed.
    - A call threads the database through a small monad that also collects
      the events it emits (console lines, the approval prompt, the request
      sent to the platform, the error log) and may raise an exception.
    - What the outside world answers (the clock, the user, the platform,
      a failing database) is an explicit argument of each call.
    - The console is a UTF-8 stream: [print] raises [UnicodeEncodeError]
      on a text with a lone surrogate, as [str.encode] does. *)

From Stdlib Require Import String Ascii.
From Stdlib Require Import List ZArith NArith Bool Lia.
Import ListNotations.

Set Implicit Arguments.

(* ================================================================== *)
(** * Python text *)
(* ================================================================== *)

Module PyStr.

(** A [str] is a sequence of Unicode code points. *)
Definition char := N.
Definition str := list char.

(** An ASCII literal of the source, as a [str]. *)
Definition lit (s : string) : str :=
  map N_of_ascii (list_ascii_of_string s).

Fixpoint eqb (a b : str) : bool :=
  match a, b with
  | [], [] => true
  | x :: a', y :: b' => N.eqb x y && eqb a' b'
  | _, _ => false
  end.

(** [len(s)] *)
Definition len (s : str) : Z := Z.of_nat (List.length s).

(** [str.isspace] on one code point: the characters [str.strip()]
    removes. *)
Definition isspace (c : char) : bool :=
  ((9 <=? c) && (c <=? 13)           (* \t \n \v \f \r *)
   || (28 <=? c) && (c <=? 32)       (* FS GS RS US, space *)
   || (c =? 133)                     (* NEL *)
   || (c =? 160)                     (* no-break space *)
   || (c =? 5760)                    (* ogham space mark *)
   || (8192 <=? c) && (c <=? 8202)   (* en quad .. hair space *)
   || (c =? 8232) || (c =? 8233)     (* line, paragraph separator *)
   || (c =? 8239) || (c =? 8287)     (* narrow nbsp, math space *)
   || (c =? 12288))%N.               (* ideographic space *)

(** Membership of a character in the argument of [strip(chars)]. *)
Definition among (chars : str) (c : char) : bool :=
  existsb (N.eqb c) chars.

Fixpoint lstrip_by (p : char -> bool) (s : str) : str :=
  match s with
  | [] => []
  | c :: t => if p c then lstrip_by p t else s
  end.

Definition rstrip_by (p : char -> bool) (s : str) : str :=
  rev (lstrip_by p (rev s)).

Definition strip_by (p : char -> bool) (s : str) : str :=
  rstrip_by p (lstrip_by p s).

(** [s.strip()] *)
Definition strip (s : str) : str := strip_by isspace s.

(** [s.strip(chars)] *)
Definition strip_chars (chars s : str) : str := strip_by (among chars) s.

(** [s[:n]] for a non-negative [n] *)
Definition slice_to (n : nat) (s : str) : str := firstn n s.

Fixpoint startswith (p s : str) : bool :=
  match p, s with
  | [], _ => true
  | x :: p', y :: s' => N.eqb x y && startswith p' s'
  | _ :: _, [] => false
  end.

(** [needle in hay] *)
Fixpoint contains (needle hay : str) : bool :=
  startswith needle hay ||
  match hay with
  | [] => false
  | _ :: t => contains needle t
  end.

(** [sep.join(parts)] *)
Fixpoint join (sep : str) (parts : list str) : str :=
  match parts with
  | [] => []
  | [p] => p
  | p :: rest => p ++ sep ++ join sep rest
  end.

(** A code point the UTF-8 codec refuses: a lone surrogate. *)
Definition is_surrogate (c : char) : bool :=
  ((55296 <=? c) && (c <=? 57343))%N.

(** The bytes of one code point in UTF-8. *)
Definition utf8_char (c : char) : list N :=
  (if c <? 128 then [c]
   else if c <? 2048 then [192 + c / 64; 128 + c mod 64]
   else if c <? 65536 then
     [224 + c / 4096; 128 + (c / 64) mod 64; 128 + c mod 64]
   else
     [240 + c / 262144; 128 + (c / 4096) mod 64;
      128 + (c / 64) mod 64; 128 + c mod 64])%N.

(** [s.encode()]: [None] stands for the [UnicodeEncodeError] that a
    surrogate raises. *)
Fixpoint encode (s : str) : option (list N) :=
  match s with
  | [] => Some []
  | c :: t =>
      if is_surrogate c then None
      else match encode t with
           | Some bs => Some (utf8_char c ++ bs)
           | None => None
           end
  end.

(** A text the UTF-8 codec accepts: one without a lone surrogate. *)
Definition encodable (s : str) : bool :=
  match encode s with Some _ => true | None => false end.

(** Truthiness of a [str]. *)
Definition truthy (s : str) : bool :=
  match s with [] => false | _ :: _ => true end.

(** [str(n)] for a non-negative integer. *)
Fixpoint decimal_digits (fuel : nat) (n : N) : str :=
  match fuel with
  | O => []
  | S fuel' =>
      (if n <? 10 then [48 + n]
       else decimal_digits fuel' (n / 10) ++ [48 + n mod 10])%N
  end.

Definition decimal (n : N) : str :=
  decimal_digits (S (N.to_nat (N.log2 n))) n.

Definition hex_digit (n : N) : char :=
  (if n <? 10 then 48 + n else 87 + n)%N.

(** [str(e)] of the [UnicodeEncodeError] that [s.encode()] raises: it
    names the first run of surrogates. *)
Definition surrogate_message (s : str) : str :=
  let rest := lstrip_by (fun c => negb (is_surrogate c)) s in
  let start := N.of_nat (List.length s - List.length rest) in
  let run := N.of_nat (List.length rest
                       - List.length (lstrip_by is_surrogate rest)) in
  (lit "'utf-8' codec can't encode "
   ++ (if run <=? 1 then
         let c := hd 0 rest in
         lit "character '\u"
         ++ [hex_digit (c / 4096); hex_digit ((c / 256) mod 16);
             hex_digit ((c / 16) mod 16); hex_digit (c mod 16)]
         ++ lit "' in position " ++ decimal start
       else
         lit "characters in position " ++ decimal start
         ++ lit "-" ++ decimal (start + run - 1))
   ++ lit ": surrogates not allowed")%N.

(** [str.lower()] on ASCII text; characters outside ASCII are left as
    they are, so this agrees with Python on ASCII text only. *)
Definition ascii_lower (s : str) : str :=
  map (fun c => if (65 <=? c) && (c <=? 90) then c + 32 else c)%N s.

End PyStr.

Import PyStr.

(* ================================================================== *)
(** * hashlib.md5 *)
(* ================================================================== *)

Module Hashlib.
Local Open Scope N_scope.

Definition two32 : N := 4294967296.

Definition add32 (a b : N) : N := (a + b) mod two32.

Definition not32 (a : N) : N := N.lxor a (two32 - 1).

(** Rotation of a 32-bit word to the left. *)
Definition rotl32 (x s : N) : N :=
  N.lor (N.shiftl x s mod two32) (N.shiftr x (32 - s)).

Definition K : list N :=
  [3614090360; 3905402710; 606105819; 3250441966; 4118548399; 1200080426;
   2821735955; 4249261313; 1770035416; 2336552879; 4294925233; 2304563134;
   1804603682; 4254626195; 2792965006; 1236535329; 4129170786; 3225465664;
   643717713; 3921069994; 3593408605; 38016083; 3634488961; 3889429448;
   568446438; 3275163606; 4107603335; 1163531501; 2850285829; 4243563512;
   1735328473; 2368359562; 4294588738; 2272392833; 1839030562; 4259657740;
   2763975236; 1272893353; 4139469664; 3200236656; 681279174; 3936430074;
   3572445317; 76029189; 3654602809; 3873151461; 530742520; 3299628645;
   4096336452; 1126891415; 2878612391; 4237533241; 1700485571; 2399980690;
   4293915773; 2240044497; 1873313359; 4264355552; 2734768916; 1309151649;
   4149444226; 3174756917; 718787259; 3951481745].

Definition shifts : list N :=
  [7; 12; 17; 22; 7; 12; 17; 22; 7; 12; 17; 22; 7; 12; 17; 22;
   5; 9; 14; 20; 5; 9; 14; 20; 5; 9; 14; 20; 5; 9; 14; 20;
   4; 11; 16; 23; 4; 11; 16; 23; 4; 11; 16; 23; 4; 11; 16; 23;
   6; 10; 15; 21; 6; 10; 15; 21; 6; 10; 15; 21; 6; 10; 15; 21].

Definition item (l : list N) (i : N) : N := nth (N.to_nat i) l 0.

Definition le_bytes (n : nat) (x : N) : list N :=
  map (fun i => N.shiftr x (8 * N.of_nat i) mod 256) (seq 0 n).

(** The message, a one bit, zeros up to 56 modulo 64, and the length in
    bits as 8 little-endian bytes. *)
Definition pad (message : list N) : list N :=
  let n := N.of_nat (List.length message) in
  let zeros := (64 + 55 - n mod 64) mod 64 in
  message ++ [128] ++ repeat 0 (N.to_nat zeros) ++ le_bytes 8 (8 * n).

Fixpoint words (fuel : nat) (bytes : list N) : list N :=
  match fuel, bytes with
  | S fuel', b0 :: b1 :: b2 :: b3 :: rest =>
      (b0 + 256 * b1 + 65536 * b2 + 16777216 * b3) :: words fuel' rest
  | _, _ => []
  end.

Definition state := (N * N * N * N)%type.

Definition round (block : list N) (st : state) (i : N) : state :=
  let '(a, b, c, d) := st in
  let '(f, g) :=
    if i <? 16 then (N.lor (N.land b c) (N.land (not32 b) d), i)
    else if i <? 32 then
      (N.lor (N.land d b) (N.land (not32 d) c), (5 * i + 1) mod 16)
    else if i <? 48 then (N.lxor b (N.lxor c d), (3 * i + 5) mod 16)
    else (N.lxor c (N.lor b (not32 d)), (7 * i) mod 16) in
  let f' := add32 (add32 f a) (add32 (item K i) (item block g)) in
  (d, add32 b (rotl32 f' (item shifts i)), b, c).

Definition compress (st : state) (block : list N) : state :=
  let '(a, b, c, d) := st in
  let '(a', b', c', d') :=
    fold_left (round block) (map N.of_nat (seq 0 64)) st in
  (add32 a a', add32 b b', add32 c c', add32 d d').

Fixpoint blocks (fuel : nat) (ws : list N) : list (list N) :=
  match fuel, ws with
  | S fuel', _ :: _ => firstn 16 ws :: blocks fuel' (skipn 16 ws)
  | _, _ => []
  end.

Definition initial : state :=
  (1732584193, 4023233417, 2562383102, 271733878).

(** [hashlib.md5(message).digest()] *)
Definition md5 (message : list N) : list N :=
  let bytes := pad message in
  let ws := words (List.length bytes) bytes in
  let '(a, b, c, d) :=
    fold_left compress (blocks (List.length ws) ws) initial in
  le_bytes 4 a ++ le_bytes 4 b ++ le_bytes 4 c ++ le_bytes 4 d.

(** [hashlib.md5(message).hexdigest()] *)
Definition md5_hexdigest (message : list N) : str :=
  flat_map (fun b => [hex_digit (b / 16); hex_digit (b mod 16)])
           (md5 message).

End Hashlib.

(* ================================================================== *)
(** * Exceptions and the configuration *)
(* ================================================================== *)

(** The exceptions that travel through the program, each with the text
    [str(e)] gives.  All but the last are subclasses of [Exception];
    [KeyboardInterrupt] derives from [BaseException] only, so that
    [except Exception] lets it pass. *)
Inductive exn :=
| SqliteError (msg : str)         (* sqlite3.Error and its subclasses *)
| UnicodeEncodeError (msg : str)  (* text with a lone surrogate *)
| ValueError (msg : str)          (* missing credentials *)
| KeyError (msg : str)            (* a missing key of a dict *)
| EOFError (msg : str)            (* standard input is closed *)
| ClientError (msg : str)         (* raised by an API client *)
| KeyboardInterrupt.              (* the user interrupts a blocking call *)

Definition exn_str (e : exn) : str :=
  match e with
  | SqliteError msg | UnicodeEncodeError msg | ValueError msg
  | KeyError msg | EOFError msg | ClientError msg => msg
  | KeyboardInterrupt => []
  end.

(** [isinstance(e, Exception)] *)
Definition is_exception (e : exn) : bool :=
  match e with KeyboardInterrupt => false | _ => true end.

(** [isinstance(e, sqlite3.Error)] *)
Definition is_sqlite_error (e : exn) : bool :=
  match e with SqliteError _ => true | _ => false end.

(** [config.py]: what is read from the process environment. *)
Record Config := {
  X_API_KEY : option str;
  X_API_SECRET_KEY : option str;
  X_ACCESS_TOKEN : option str;
  X_ACCESS_TOKEN_SECRET : option str;
  GEMINI_API_KEY : option str;
  RATE_LIMIT_THRESHOLD : Z;
  RATE_LIMIT_MAX : Z;
  BOT_PERSONALITY : str
}.

(** Truthiness of [os.getenv(name)]. *)
Definition env_set (v : option str) : bool :=
  match v with Some s => truthy s | None => false end.

Definition nl : str := [10%N].

(** [PROMPTS['generate_tweet']] *)
Definition PROMPTS_generate_tweet (cfg : Config) : str :=
  lit "You are a " ++ BOT_PERSONALITY cfg
  ++ lit " who tweets about tech, coding, and building in public." ++ nl
  ++ lit "Generate a single tweet based on the following topic or prompt."
  ++ nl
  ++ lit "Keep it under 280 characters." ++ nl
  ++ lit "Be authentic, insightful, and engaging." ++ nl
  ++ lit "Use emojis sparingly (max 1-2)." ++ nl
  ++ lit "Do NOT use too many hashtags (max 1-2 if relevant)." ++ nl
  ++ nl
  ++ lit "Topic:".

(* ================================================================== *)
(** * The database and the events of a call *)
(* ================================================================== *)

(** A row of [post_counts]; [month] is UNIQUE.  [count] is a number of
    SQLite: an INTEGER, which has 64 bits, or, outside that range, the
    REAL of that value. *)
Record PostCountRow := { row_month : str; row_count : Z }.

(** The range of an INTEGER of SQLite. *)
Definition INTEGER_MIN : Z := -9223372036854775808.
Definition INTEGER_MAX : Z := 9223372036854775807.

(** A row of [posted_tweets]; [content_hash] is UNIQUE.  The [id] and
    [posted_at] columns are filled by SQLite and never read. *)
Record PostedTweetRow := { row_content_hash : str; row_tweet_id : str }.

(** The two tables of [bot.db] that posting uses, as [init_db] creates
    them. *)
Record Database := {
  post_counts : list PostCountRow;
  posted_tweets : list PostedTweetRow
}.

(** The database of a new installation, after [init_db]. *)
Definition empty_db : Database :=
  {| post_counts := []; posted_tweets := [] |}.

(** What [print] writes.  Each constructor stands for one [print] call
    or for a run of consecutive ones, of which only the first writes a
    text that is not fixed in the source or a number. *)
Inductive Console :=
| EmptyMessage
| TooLong (length : Z)
| LimitReached (count limit : Z)
| ApproachingLimit (count limit : Z)
| DuplicateSkipped
| PreviewHead                     (* the three lines above the preview *)
| Preview (message : str) (length count limit : Z)
                                  (* the message and the four lines below *)
| Cancelled
| Success                         (* "Successfully posted tweet!" *)
| Posted (tweet_id : str)         (* the link with the tweet id *)
| CreditsHead                     (* the four lines above the message *)
| CreditsHelp (message : str)     (* the message and the line below *)
| AIEmpty
| Line (text : str).

(** What a call does to the outside world, in order. *)
Inductive Event :=
| Printed (line : Console)
| Prompt                           (* input("Post this tweet? (y/n): ") *)
| Answer (reply : str)             (* the line the user typed *)
| CreateTweet (text : str)         (* client.create_tweet(text=...) *)
| GenerateContent (prompt : str)   (* model.generate_content(prompt) *)
| LogError (text : str).           (* logging.error(text) *)

(** A value, or the exception raised instead. *)
Inductive Outcome (A : Type) :=
| Ret (a : A)
| Raise (e : exn).
Arguments Ret {A} a.
Arguments Raise {A} e.

(** The response of [create_tweet]: its [data] dict. *)
Record Response := { data : list (str * str) }.

(** The response of [generate_content]: reading [text] may raise. *)
Record AIResponse := { text : Outcome str }.

(** The text of a [sqlite3.Error]: the module decodes it from the UTF-8
    message of SQLite, so it holds no lone surrogate. *)
Record Decoded := {
  decoded : str;
  decoded_ok : encodable decoded = true
}.

(** A database that fails raises [sqlite3.Error], either before the
    parameters of the statement are bound (opening the file, preparing
    the statement) or after (running it, committing).  Nothing is written
    in either case. *)
Inductive Fault :=
| Healthy
| FailsEarly (msg : Decoded)
| FailsLate (msg : Decoded).

Definition faulty (f : Fault) : bool :=
  match f with Healthy => false | _ => true end.

(* ================================================================== *)
(** * The monad of a call: database state, emitted events, exceptions *)
(* ================================================================== *)

Record Result (A : Type) := {
  outcome : Outcome A;
  db_after : Database;
  events : list Event
}.

Definition M (A : Type) := Database -> Result A.

Definition ret {A} (a : A) : M A :=
  fun d => {| outcome := Ret a; db_after := d; events := [] |}.

Definition raise {A} (e : exn) : M A :=
  fun d => {| outcome := Raise e; db_after := d; events := [] |}.

Definition bind {A B} (m : M A) (k : A -> M B) : M B :=
  fun d =>
    let r := m d in
    match outcome r with
    | Ret a =>
        let r' := k a (db_after r) in
        {| outcome := outcome r';
           db_after := db_after r';
           events := events r ++ events r' |}
    | Raise e =>
        {| outcome := Raise e; db_after := db_after r; events := events r |}
    end.

Definition emit (ev : Event) : M unit :=
  fun d => {| outcome := Ret tt; db_after := d; events := [ev] |}.

Definition gets {A} (f : Database -> A) : M A :=
  fun d => {| outcome := Ret (f d); db_after := d; events := [] |}.

Definition modify (f : Database -> Database) : M unit :=
  fun d => {| outcome := Ret tt; db_after := f d; events := [] |}.

(** [try: m  except <caught>: handler] *)
Definition try_except {A} (m : M A) (caught : exn -> bool)
    (handler : exn -> M A) : M A :=
  fun d =>
    let r := m d in
    match outcome r with
    | Ret a => r
    | Raise e =>
        if caught e then
          let r' := handler e (db_after r) in
          {| outcome := outcome r';
             db_after := db_after r';
             events := events r ++ events r' |}
        else r
    end.

(** [except Exception] *)
Definition any_exception (e : exn) : bool := is_exception e.

(** An answer of the outside world, as a step of the call. *)
Definition lift {A} (o : Outcome A) : M A :=
  match o with Ret a => ret a | Raise e => raise e end.

Declare Scope py_scope.
Delimit Scope py_scope with py.
Notation "x <- m ;; k" := (bind m (fun x => k))
  (at level 100, m at next level, right associativity) : py_scope.
Notation "m ;; k" := (bind m (fun _ => k))
  (at level 100, right associativity) : py_scope.
Open Scope py_scope.

(** The last line the posting prints: the link of the tweet. *)
Definition link (tweet_id : str) : str :=
  [128279; 32]%N ++ lit "https://x.com/i/web/status/" ++ tweet_id.

(** The text of the first [print] call of a line where it is not fixed;
    the fixed texts and the numbers hold no surrogate. *)
Definition first_text (line : Console) : str :=
  match line with
  | Preview message _ _ _ | CreditsHelp message => message
  | Posted tweet_id => link tweet_id
  | Line text => text
  | _ => []
  end.

(** [print(...)] on a UTF-8 console: a text with a lone surrogate is
    refused by the codec before anything of it is written. *)
Definition print (line : Console) : M unit :=
  if encodable (first_text line) then emit (Printed line)
  else raise (UnicodeEncodeError (surrogate_message (first_text line))).

(** [logging.error(msg)]: a handler that cannot write the record reports
    that on [stderr] and does not raise. *)
Definition logging_error (msg : str) : M unit := emit (LogError msg).

(* ================================================================== *)
(** * database.py *)
(* ================================================================== *)

(** [sqlite3.connect(DB_NAME)] and the preparation of the statement. *)
Definition db_open (f : Fault) : M unit :=
  match f with
  | FailsEarly msg => raise (SqliteError (decoded msg))
  | _ => ret tt
  end.

(** A text parameter is handed to SQLite as UTF-8.  The month and the
    digest are ASCII, so only the tweet id can fail here. *)
Definition db_bind (param : str) : M unit :=
  match encode param with
  | Some _ => ret tt
  | None => raise (UnicodeEncodeError (surrogate_message param))
  end.

(** Running the statement and [conn.commit()]. *)
Definition db_run (f : Fault) : M unit :=
  match f with
  | FailsLate msg => raise (SqliteError (decoded msg))
  | _ => ret tt
  end.

(** [with get_db_connection() as conn: body].  A [sqlite3.Error] is
    rolled back, logged and raised again; the connection is closed on
    every path. *)
Definition get_db_connection {A} (f : Fault) (body : M A) : M A :=
  try_except (db_open f ;; body) is_sqlite_error
    (fun e =>
       logging_error (lit "Database error: " ++ exn_str e) ;;
       raise e).

(** [init_db()]: a [CREATE TABLE IF NOT EXISTS] for each table, then a
    commit.  A database that has its tables stays as it is; a new file
    gets them empty, which is [empty_db]. *)
Definition init_db (f : Fault) : M unit :=
  get_db_connection f (db_run f).

(** [time.strftime("%Y-%m")], read from the clock [now]. *)
Definition get_current_month (now : str) : str := now.

(** [SELECT count FROM post_counts WHERE month=?] then [fetchone()]. *)
Definition select_count (month : str) (d : Database)
    : option PostCountRow :=
  find (fun r => eqb (row_month r) month) (post_counts d).

Definition get_post_count (now : str) (f : Fault) : M Z :=
  get_db_connection f
    (db_run f ;;
     result <- gets (select_count (get_current_month now)) ;;
     ret (match result with
          | Some r => row_count r
          | None => 0%Z
          end)).

(** [count + 1] as SQLite computes it.  On INTEGERs the sum is exact;
    the one that overflows, at [INTEGER_MAX], is computed on REALs and
    gives the REAL 2^63, which is no INTEGER and stays in the column as
    it is.  A REAL of that size absorbs the 1: the REAL nearest to the
    sum is the REAL itself. *)
Definition count_plus_1 (count : Z) : Z :=
  if (INTEGER_MIN <=? count)%Z && (count <=? INTEGER_MAX)%Z
  then (count + 1)%Z
  else count.

(** [INSERT INTO post_counts (month, count) VALUES (?, 1)
     ON CONFLICT(month) DO UPDATE SET count = count + 1] *)
Fixpoint upsert_count (month : str) (rows : list PostCountRow)
    : list PostCountRow :=
  match rows with
  | [] => [{| row_month := month; row_count := 1 |}]
  | r :: rest =>
      if eqb (row_month r) month
      then {| row_month := row_month r;
              row_count := count_plus_1 (row_count r) |} :: rest
      else r :: upsert_count month rest
  end.

Definition increment_post_count (now : str) (f : Fault) : M bool :=
  try_except
    (get_db_connection f
       (let current_month := get_current_month now in
        db_run f ;;
        modify (fun d =>
                  {| post_counts := upsert_count current_month
                                      (post_counts d);
                     posted_tweets := posted_tweets d |}) ;;
        ret true))
    is_sqlite_error
    (fun e =>
       logging_error (lit "Failed to increment post count: "
                      ++ exn_str e) ;;
       ret false).

(** [hashlib.md5(content.encode()).hexdigest()] *)
Definition get_content_hash (content : str) : M str :=
  match encode content with
  | Some bytes => ret (Hashlib.md5_hexdigest bytes)
  | None => raise (UnicodeEncodeError (surrogate_message content))
  end.

(** [SELECT 1 FROM posted_tweets WHERE content_hash=?] then
    [fetchone() is not None]. *)
Definition select_posted (content_hash : str) (d : Database) : bool :=
  existsb (fun r => eqb (row_content_hash r) content_hash)
          (posted_tweets d).

Definition has_posted_before (content : str) (f : Fault) : M bool :=
  content_hash <- get_content_hash content ;;
  get_db_connection f
    (db_run f ;;
     gets (select_posted content_hash)).

(** [INSERT OR IGNORE INTO posted_tweets (content_hash, tweet_id)
     VALUES (?, ?)]: a row whose hash is there already is dropped. *)
Definition insert_or_ignore (content_hash tweet_id : str)
    (rows : list PostedTweetRow) : list PostedTweetRow :=
  if existsb (fun r => eqb (row_content_hash r) content_hash) rows
  then rows
  else rows ++ [{| row_content_hash := content_hash;
                   row_tweet_id := tweet_id |}].

Definition record_posted_tweet (content tweet_id : str) (f : Fault)
    : M bool :=
  try_except
    (content_hash <- get_content_hash content ;;
     get_db_connection f
       (db_bind tweet_id ;;
        db_run f ;;
        modify (fun d =>
                  {| post_counts := post_counts d;
                     posted_tweets := insert_or_ignore content_hash
                                        tweet_id (posted_tweets d) |}) ;;
        ret true))
    is_sqlite_error
    (fun e =>
       logging_error (lit "Failed to record posted tweet: "
                      ++ exn_str e) ;;
       ret false).

(* ================================================================== *)
(** * config.py and post_tweet.py *)
(* ================================================================== *)

(** What the outside world answers during [generate_tweet]. *)
Record AIEnv := {
  ai_reply : Outcome (option AIResponse)  (* generate_content(prompt) *)
}.

(** What the outside world answers during one [post_tweet] call, in the
    order the call asks. *)
Record Env := {
  clock_at_check : str;        (* the month when the quota is read *)
  db_at_check : Fault;         (* the database under get_post_count *)
  db_at_lookup : Fault;        (* ... under has_posted_before *)
  user_reply : Outcome str;    (* input() *)
  platform_reply : Outcome Response;   (* create_tweet *)
  clock_at_increment : str;    (* the month when the count is written *)
  db_at_increment : Fault;     (* ... under increment_post_count *)
  db_at_record : Fault         (* ... under record_posted_tweet *)
}.

(** [d[key]] *)
Definition dict_get (key : str) (d : list (str * str)) : Outcome str :=
  match find (fun kv => eqb (fst kv) key) d with
  | Some kv => Ret (snd kv)
  | None => Raise (KeyError (lit "'" ++ key ++ lit "'"))
  end.

Definition quotes : str := [34; 39]%N.      (* the two quote characters *)
Definition cross_mark : str := [10060]%N.   (* the mark before an error *)

Section Program.

(** [str.lower()], whose Unicode tables are not reproduced here. *)
Variable str_lower : str -> str.

Variable cfg : Config.

Definition validate_x_credentials : Outcome bool :=
  if env_set (X_API_KEY cfg) && env_set (X_API_SECRET_KEY cfg)
     && env_set (X_ACCESS_TOKEN cfg)
     && env_set (X_ACCESS_TOKEN_SECRET cfg)
  then Ret true
  else
    let missing :=
      (if env_set (X_API_KEY cfg) then [] else [lit "X_API_KEY"])
      ++ (if env_set (X_API_SECRET_KEY cfg) then []
          else [lit "X_API_SECRET_KEY"])
      ++ (if env_set (X_ACCESS_TOKEN cfg) then []
          else [lit "X_ACCESS_TOKEN"])
      ++ (if env_set (X_ACCESS_TOKEN_SECRET cfg) then []
          else [lit "X_ACCESS_TOKEN_SECRET"]) in
    Raise (ValueError (lit "Missing X API credentials: "
                       ++ join (lit ", ") missing)).

(** [get_x_client()]: the client itself carries no state of interest. *)
Definition get_x_client : M unit :=
  _ <- lift validate_x_credentials ;;
  ret tt.

Definition validate_gemini_credentials : Outcome bool :=
  if env_set (GEMINI_API_KEY cfg) then Ret true
  else Raise (ValueError
                (lit "Missing GEMINI_API_KEY in environment variables")).

Definition get_gemini_model : M unit :=
  _ <- lift validate_gemini_credentials ;;
  ret tt.

Definition generate_content (prompt : str) (env : AIEnv)
    : M (option AIResponse) :=
  emit (GenerateContent prompt) ;;
  lift (ai_reply env).

Definition generate_tweet (env : AIEnv) (topic : str) : M (option str) :=
  try_except
    (model <- get_gemini_model ;;
     let prompt := PROMPTS_generate_tweet cfg ++ lit " " ++ topic in
     response <- generate_content prompt env ;;
     match response with
     | None => print AIEmpty ;; ret None
     | Some response =>
         t <- lift (text response) ;;
         if negb (truthy t) then print AIEmpty ;; ret None
         else
           t <- lift (text response) ;;
           let generated_text := strip t in
           (* Clean up common issues *)
           let generated_text := strip_chars quotes generated_text in
           (* Truncate if too long *)
           let generated_text :=
             if (280 <? len generated_text)%Z
             then slice_to 277 generated_text ++ lit "..."
             else generated_text in
           ret (Some generated_text)
     end)
    any_exception
    (fun e =>
       let error_msg := lit "Error generating tweet: " ++ exn_str e in
       logging_error error_msg ;;
       print (Line error_msg) ;;
       ret None).

Definition input (env : Env) : M str :=
  emit Prompt ;;
  reply <- lift (user_reply env) ;;
  emit (Answer reply) ;;
  ret reply.

Definition create_tweet (message : str) (env : Env) : M Response :=
  emit (CreateTweet message) ;;
  lift (platform_reply env).

Definition post_tweet (env : Env) (message : str)
    (require_approval : bool) : M (option Response) :=
  try_except
    ((* Validate message *)
     if negb (truthy message) || (len (strip message) =? 0)%Z then
       print EmptyMessage ;; ret None
     else if (280 <? len message)%Z then
       print (TooLong (len message)) ;; ret None
     else
       (* Rate limit check *)
       current_count <- get_post_count (clock_at_check env)
                                       (db_at_check env) ;;
       if (RATE_LIMIT_MAX cfg <=? current_count)%Z then
         print (LimitReached current_count (RATE_LIMIT_MAX cfg)) ;;
         ret None
       else
         (if (RATE_LIMIT_THRESHOLD cfg <=? current_count)%Z
          then print (ApproachingLimit current_count
                                       (RATE_LIMIT_MAX cfg))
          else ret tt) ;;
         (* Duplicate check *)
         dup <- has_posted_before message (db_at_lookup env) ;;
         if dup then print DuplicateSkipped ;; ret None
         else
           (* Post the tweet *)
           let post :=
             get_x_client ;;
             response <- create_tweet message env ;;
             tweet_id <- lift (dict_get (lit "id") (data response)) ;;
             print Success ;;
             print (Posted tweet_id) ;;
             (* Update tracking *)
             increment_post_count (clock_at_increment env)
                                  (db_at_increment env) ;;
             record_posted_tweet message tweet_id (db_at_record env) ;;
             ret (Some response) in
           (* Human approval *)
           if require_approval then
             print PreviewHead ;;
             print (Preview message (len message) current_count
                            (RATE_LIMIT_MAX cfg)) ;;
             reply <- input env ;;
             let response := str_lower (strip reply) in
             if negb (eqb response (lit "y")) then
               print Cancelled ;; ret None
             else post
           else post)
    any_exception
    (fun e =>
       let error_str := exn_str e in
       if contains (lit "402") error_str
          || contains (lit "credits") (str_lower error_str)
       then print CreditsHead ;; print (CreditsHelp message) ;; ret None
       else
         let error_msg :=
           cross_mark ++ lit " Error posting tweet: " ++ exn_str e in
         logging_error error_msg ;;
         print (Line error_msg) ;;
         ret None).

End Program.

(* ================================================================== *)
(** * post_tweet.py and main.py: the commands *)
(* ================================================================== *)

Definition robot : str := [129302]%N.   (* the robot face *)

(** [str(n)] for an integer. *)
Definition str_of_int (z : Z) : str :=
  match z with
  | Z0 => lit "0"
  | Zpos p => decimal (Npos p)
  | Zneg p => lit "-" ++ decimal (Npos p)
  end.

Section Commands.

Variable str_lower : str -> str.
Variable cfg : Config.

(** [copilot_mode(topic)]: generate, then post with approval. *)
Definition copilot_mode (ai : AIEnv) (env : Env) (topic : str) : M unit :=
  print (Line (nl ++ robot ++ lit " Generating tweet about: " ++ topic)) ;;
  print (Line (repeat 45%N 40)) ;;
  generated <- generate_tweet cfg ai topic ;;
  match generated with
  | None => print (Line (lit "Failed to generate tweet."))
  | Some generated =>
      if negb (truthy generated)
      then print (Line (lit "Failed to generate tweet."))
      else
        post_tweet str_lower cfg env generated true ;;
        ret tt
  end.

(** [cmd_post(args)], with [args.topic] and [args.auto]; the result is
    the exit status. *)
Definition cmd_post (ai : AIEnv) (env : Env) (args_topic : list str)
    (args_auto : bool) : M Z :=
  let topic := join (lit " ") args_topic in
  print (Line (nl ++ robot ++ lit " Generating tweet about: " ++ topic)) ;;
  generated <- generate_tweet cfg ai topic ;;
  match generated with
  | None =>
      print (Line (cross_mark ++ lit " Failed to generate tweet")) ;;
      ret 1%Z
  | Some generated =>
      if negb (truthy generated) then
        print (Line (cross_mark ++ lit " Failed to generate tweet")) ;;
        ret 1%Z
      else
        (* If --auto flag, skip approval *)
        let require_approval := negb args_auto in
        result <- post_tweet str_lower cfg env generated require_approval ;;
        ret (match result with Some _ => 0 | None => 1 end)%Z
  end.

(** [cmd_copilot(args)] *)
Definition cmd_copilot (ai : AIEnv) (env : Env) (args_topic : list str)
    : M Z :=
  let topic := join (lit " ") args_topic in
  copilot_mode ai env topic ;;
  ret 0%Z.

End Commands.

(* ================================================================== *)
(** * database.py: mentions, retweets and statistics *)
(* ================================================================== *)

(** A row of [processed_mentions]; [tweet_id] is UNIQUE, the two author
    columns may be NULL. *)
Record MentionRow := {
  mention_tweet_id : str;
  mention_author_id : option str;
  mention_author_username : option str
}.

(** A row of [retweet_log]; [original_tweet_id] is UNIQUE. *)
Record RetweetRow := {
  retweet_original_id : str;
  retweet_is_quote : bool
}.

(** All four tables of [bot.db]. *)
Record Store := {
  core : Database;
  processed_mentions : list MentionRow;
  retweet_log : list RetweetRow
}.

Definition empty_store : Store :=
  {| core := empty_db; processed_mentions := []; retweet_log := [] |}.

(** The dict [get_bot_stats] returns. *)
Record Stats := {
  current_month_posts : Z;
  total_tweets : Z;
  total_mentions_processed : Z;
  total_retweets : Z
}.

(** The monad of a call, over all four tables. *)
Module OnStore.

Record Result (A : Type) := {
  outcome : Outcome A;
  store_after : Store;
  events : list Event
}.

Definition M (A : Type) := Store -> Result A.

Definition ret {A} (a : A) : M A :=
  fun s => {| outcome := Ret a; store_after := s; events := [] |}.

Definition raise {A} (e : exn) : M A :=
  fun s => {| outcome := Raise e; store_after := s; events := [] |}.

Definition bind {A B} (m : M A) (k : A -> M B) : M B :=
  fun s =>
    let r := m s in
    match outcome r with
    | Ret a =>
        let r' := k a (store_after r) in
        {| outcome := outcome r';
           store_after := store_after r';
           events := events r ++ events r' |}
    | Raise e =>
        {| outcome := Raise e; store_after := store_after r;
           events := events r |}
    end.

Definition emit (ev : Event) : M unit :=
  fun s => {| outcome := Ret tt; store_after := s; events := [ev] |}.

Definition gets {A} (f : Store -> A) : M A :=
  fun s => {| outcome := Ret (f s); store_after := s; events := [] |}.

Definition modify (f : Store -> Store) : M unit :=
  fun s => {| outcome := Ret tt; store_after := f s; events := [] |}.

Definition try_except {A} (m : M A) (caught : exn -> bool)
    (handler : exn -> M A) : M A :=
  fun s =>
    let r := m s in
    match outcome r with
    | Ret a => r
    | Raise e =>
        if caught e then
          let r' := handler e (store_after r) in
          {| outcome := outcome r';
             store_after := store_after r';
             events := events r ++ events r' |}
        else r
    end.

End OnStore.

Declare Scope store_scope.
Delimit Scope store_scope with store.
Notation "x <- m ;; k" := (OnStore.bind m (fun x => k))
  (at level 100, m at next level, right associativity) : store_scope.
Notation "m ;; k" := (OnStore.bind m (fun _ => k))
  (at level 100, right associativity) : store_scope.

Section StoreOperations.

Local Open Scope store_scope.

Definition store_open (f : Fault) : OnStore.M unit :=
  match f with
  | FailsEarly msg => OnStore.raise (SqliteError (decoded msg))
  | _ => OnStore.ret tt
  end.

(** A text parameter is handed to SQLite as UTF-8; [None] is NULL. *)
Definition store_bind (param : option str) : OnStore.M unit :=
  match param with
  | None => OnStore.ret tt
  | Some text =>
      match encode text with
      | Some _ => OnStore.ret tt
      | None => OnStore.raise (UnicodeEncodeError (surrogate_message text))
      end
  end.

Definition store_run (f : Fault) : OnStore.M unit :=
  match f with
  | FailsLate msg => OnStore.raise (SqliteError (decoded msg))
  | _ => OnStore.ret tt
  end.

(** [with get_db_connection() as conn: body], over all tables. *)
Definition store_connection {A} (f : Fault) (body : OnStore.M A)
    : OnStore.M A :=
  OnStore.try_except (store_open f ;; body) is_sqlite_error
    (fun e =>
       OnStore.emit (LogError (lit "Database error: " ++ exn_str e)) ;;
       OnStore.raise e).

(** [SELECT 1 FROM processed_mentions WHERE tweet_id=?] *)
Definition select_mention (tweet_id : str) (s : Store) : bool :=
  existsb (fun r => eqb (mention_tweet_id r) tweet_id)
          (processed_mentions s).

Definition has_processed_mention (tweet_id : str) (f : Fault)
    : OnStore.M bool :=
  store_connection f
    (store_bind (Some tweet_id) ;;
     store_run f ;;
     OnStore.gets (select_mention tweet_id)).

(** [INSERT OR IGNORE INTO processed_mentions ...] *)
Definition insert_mention (row : MentionRow) (rows : list MentionRow)
    : list MentionRow :=
  if existsb (fun r => eqb (mention_tweet_id r) (mention_tweet_id row)) rows
  then rows
  else rows ++ [row].

Definition mark_mention_processed (tweet_id : str)
    (author_id author_username : option str) (f : Fault)
    : OnStore.M bool :=
  OnStore.try_except
    (store_connection f
       (store_bind (Some tweet_id) ;;
        store_bind author_id ;;
        store_bind author_username ;;
        store_run f ;;
        OnStore.modify
          (fun s =>
             {| core := core s;
                processed_mentions :=
                  insert_mention
                    {| mention_tweet_id := tweet_id;
                       mention_author_id := author_id;
                       mention_author_username := author_username |}
                    (processed_mentions s);
                retweet_log := retweet_log s |}) ;;
        OnStore.ret true))
    is_sqlite_error
    (fun e =>
       OnStore.emit (LogError (lit "Failed to mark mention as processed: "
                               ++ exn_str e)) ;;
       OnStore.ret false).

(** [SELECT 1 FROM retweet_log WHERE original_tweet_id=?] *)
Definition select_retweet (tweet_id : str) (s : Store) : bool :=
  existsb (fun r => eqb (retweet_original_id r) tweet_id) (retweet_log s).

Definition has_retweeted (tweet_id : str) (f : Fault) : OnStore.M bool :=
  store_connection f
    (store_bind (Some tweet_id) ;;
     store_run f ;;
     OnStore.gets (select_retweet tweet_id)).

(** [INSERT OR IGNORE INTO retweet_log ...] *)
Definition insert_retweet (row : RetweetRow) (rows : list RetweetRow)
    : list RetweetRow :=
  if existsb (fun r => eqb (retweet_original_id r) (retweet_original_id row))
             rows
  then rows
  else rows ++ [row].

Definition record_retweet (tweet_id : str) (is_quote : bool) (f : Fault)
    : OnStore.M bool :=
  OnStore.try_except
    (store_connection f
       (store_bind (Some tweet_id) ;;
        store_run f ;;
        OnStore.modify
          (fun s =>
             {| core := core s;
                processed_mentions := processed_mentions s;
                retweet_log :=
                  insert_retweet
                    {| retweet_original_id := tweet_id;
                       retweet_is_quote := is_quote |}
                    (retweet_log s) |}) ;;
        OnStore.ret true))
    is_sqlite_error
    (fun e =>
       OnStore.emit (LogError (lit "Failed to record retweet: "
                               ++ exn_str e)) ;;
       OnStore.ret false).

(** [get_bot_stats()]: four SELECTs on one connection. *)
Definition get_bot_stats (now : str) (f : Fault) : OnStore.M Stats :=
  store_connection f
    (store_run f ;;
     (* Current month posts *)
     result <- OnStore.gets
                 (fun s => select_count (get_current_month now) (core s)) ;;
     let current_month_posts :=
       match result with Some r => row_count r | None => 0%Z end in
     (* Total tweets ever *)
     total_tweets <-
       OnStore.gets (fun s => Z.of_nat (List.length (posted_tweets (core s)))) ;;
     (* Total mentions processed *)
     total_mentions <-
       OnStore.gets (fun s => Z.of_nat (List.length (processed_mentions s))) ;;
     (* Total retweets *)
     total_retweets <-
       OnStore.gets (fun s => Z.of_nat (List.length (retweet_log s))) ;;
     OnStore.ret {| current_month_posts := current_month_posts;
                    total_tweets := total_tweets;
                    total_mentions_processed := total_mentions;
                    total_retweets := total_retweets |}).

(** A call on the two posting tables, run on all four. *)
Definition on_core {A} (m : M A) : OnStore.M A :=
  fun s =>
    let r := m (core s) in
    {| OnStore.outcome := outcome r;
       OnStore.store_after :=
         {| core := db_after r;
            processed_mentions := processed_mentions s;
            retweet_log := retweet_log s |};
       OnStore.events := events r |}.

(** [print(text)], as [print] above. *)
Definition store_print (text : str) : OnStore.M unit :=
  if encodable text then OnStore.emit (Printed (Line text))
  else OnStore.raise (UnicodeEncodeError (surrogate_message text)).

(** [cmd_stats(args)]; the result is the exit status. *)
Definition cmd_stats (cfg : Config) (now : str) (f : Fault)
    : OnStore.M Z :=
  stats <- get_bot_stats now f ;;
  store_print (nl ++ [128202]%N ++ lit " Bot Statistics") ;;
  store_print (repeat 61%N 40) ;;
  store_print ([128221]%N ++ lit " Posts this month:      "
               ++ str_of_int (current_month_posts stats) ++ lit "/"
               ++ str_of_int (RATE_LIMIT_MAX cfg)) ;;
  store_print ([128232]%N ++ lit " Total tweets posted:   "
               ++ str_of_int (total_tweets stats)) ;;
  store_print (repeat 61%N 40) ;;
  (* Rate limit warning *)
  let remaining := (RATE_LIMIT_MAX cfg - current_month_posts stats)%Z in
  (if (remaining <? 50)%Z
   then store_print ([9888; 65039]%N ++ lit "  Warning: Only "
                     ++ str_of_int remaining
                     ++ lit " posts remaining this month!")
   else store_print ([9989]%N ++ lit " " ++ str_of_int remaining
                     ++ lit " posts remaining this month")) ;;
  OnStore.ret 0%Z.

End StoreOperations.

(* ================================================================== *)
(** * Notions used to state the properties *)
(* ================================================================== *)

(** The texts handed to the platform during a call, in order. *)
Definition transmitted (evs : list Event) : list str :=
  flat_map (fun ev => match ev with CreateTweet t => [t] | _ => [] end) evs.

(** The line that announces a post and its tweet id. *)
Definition is_posted_line (ev : Event) : bool :=
  match ev with Printed (Posted _) => true | _ => false end.

(** The platform accepted the tweet of this call and returned its id. *)
Definition acknowledged {A} (r : Result A) : bool :=
  existsb is_posted_line (events r).

(** Events that neither reach the platform nor announce a post. *)
Definition quiet (evs : list Event) : bool :=
  forallb (fun ev => match ev with
                     | CreateTweet _ | Printed (Posted _) => false
                     | _ => true
                     end) evs.

(** The tally of a month: what [get_post_count] reads. *)
Definition count_of (month : str) (d : Database) : Z :=
  match select_count month d with
  | Some r => row_count r
  | None => 0%Z
  end.

(** The tally of a month after the upsert of [increment_post_count]. *)
Definition incremented (month : str) (d : Database) : Z :=
  match select_count month d with
  | Some r => count_plus_1 (row_count r)
  | None => 1%Z
  end.

(** A tally the next post can be added to: an INTEGER that is not
    negative. *)
Definition countable (count : Z) : Prop :=
  (0 <= count <= INTEGER_MAX)%Z.

Definition hashes (d : Database) : list str :=
  map row_content_hash (posted_tweets d).

Definition months (d : Database) : list str :=
  map row_month (post_counts d).

(** The UNIQUE constraints of the two tables. *)
Definition unique_keys (d : Database) : Prop :=
  NoDup (months d) /\ NoDup (hashes d).

Definition fault_message (f : Fault) : option str :=
  match f with
  | Healthy => None
  | FailsEarly m | FailsLate m => Some (decoded m)
  end.

Definition db_error_log (msg : str) : Event :=
  LogError (lit "Database error: " ++ msg).

(** What a failed [record_posted_tweet] writes to the error log. *)
Definition record_failure_log (msg : str) : list Event :=
  [db_error_log msg;
   LogError (lit "Failed to record posted tweet: " ++ msg)].

(** [r], after the events [evs]. *)
Definition prepend {A} (evs : list Event) (r : Result A) : Result A :=
  {| outcome := outcome r; db_after := db_after r;
     events := evs ++ events r |}.

(** The message is empty or consists only of whitespace. *)
Definition blank (message : str) : bool := forallb isspace message.

(** One call of [post_tweet] with what the world answers to it. *)
Record Call := {
  call_env : Env;
  call_message : str;
  call_approval : bool
}.

Section Notions.

Variable str_lower : str -> str.
Variable cfg : Config.

(** The last part of [post_tweet]: posting and bookkeeping. *)
Definition send_stage (env : Env) (message : str)
    : M (option Response) :=
  get_x_client cfg ;;
  response <- create_tweet message env ;;
  tweet_id <- lift (dict_get (lit "id") (data response)) ;;
  print Success ;;
  print (Posted tweet_id) ;;
  increment_post_count (clock_at_increment env) (db_at_increment env) ;;
  record_posted_tweet message tweet_id (db_at_record env) ;;
  ret (Some response).

(** The [except] clause of [post_tweet] takes the error for one of
    missing credits. *)
Definition credits_error (e : exn) : bool :=
  contains (lit "402") (exn_str e)
  || contains (lit "credits") (str_lower (exn_str e)).

(** The line the [except] clause logs and prints otherwise. *)
Definition error_line (e : exn) : str :=
  cross_mark ++ lit " Error posting tweet: " ++ exn_str e.

(** The text the [except] clause of [post_tweet] has to print for [e]:
    the message, or the line with the error. *)
Definition handler_text (message : str) (e : exn) : str :=
  if credits_error e then message else error_line e.

(** What the [except Exception] clause of [post_tweet] writes, up to
    a [print] the console refuses. *)
Definition handler_events (message : str) (e : exn) : list Event :=
  if negb (is_exception e) then []
  else
    (if credits_error e then [Printed CreditsHead]
     else [LogError (error_line e)])
    ++ (if encodable (handler_text message e)
        then [Printed (if credits_error e then CreditsHelp message
                       else Line (error_line e))]
        else []).

(** How [post_tweet] ends on an exception of its [try] block: an
    interrupt is not caught, and a text the console refuses raises in
    the [except] clause. *)
Definition handler_outcome (message : str) (e : exn)
    : Outcome (option Response) :=
  if negb (is_exception e) then Raise e
  else if encodable (handler_text message e) then Ret None
  else Raise (UnicodeEncodeError
                (surrogate_message (handler_text message e))).

(** An exception the [except] clause of [post_tweet] turns into [None]:
    not an interrupt, and with a text the console can print. *)
Definition printable (e : exn) : bool :=
  is_exception e && encodable (exn_str e).

(** A call that ends in the [except] clause with [e], after the events
    [evs] and with the database [d]. *)
Definition handled (message : str) (d : Database) (evs : list Event)
    (e : exn) : Result (option Response) :=
  {| outcome := handler_outcome message e;
     db_after := d;
     events := evs ++ handler_events message e |}.

(** Where the exception that ends a call in the [except] clause comes
    from: the program itself, whose errors can be printed, the user's
    [input] or the platform. *)
Definition origin (env : Env) (approval : bool) (e : exn) : Prop :=
  printable e = true
  \/ (approval = true /\ user_reply env = Raise e)
  \/ platform_reply env = Raise e.

(** The call returned no response: it returned [None] or raised. *)
Definition no_response (o : Outcome (option Response)) : Prop :=
  forall resp, o <> Ret (Some resp).

(** The bookkeeping after a post: both writes, in order. *)
Definition tracking (env : Env) (message tweet_id : str) (d : Database)
    : Result bool :=
  let r1 := increment_post_count (clock_at_increment env)
                                 (db_at_increment env) d in
  let r2 := record_posted_tweet message tweet_id (db_at_record env)
                                (db_after r1) in
  {| outcome := outcome r2; db_after := db_after r2;
     events := events r1 ++ events r2 |}.

(** The message passes the validation of [post_tweet]. *)
Definition valid_message (message : str) : bool :=
  negb (negb (truthy message) || (len (strip message) =? 0)%Z)
  && negb (280 <? len message)%Z.

(** The reply counts as approval. *)
Definition approves (reply : str) : bool :=
  eqb (str_lower (strip reply)) (lit "y").

(** What stands between a call and [send_stage]: the validation, the
    quota, the duplicate check and the approval. *)
Definition front_open (env : Env) (message : str) (approval : bool)
    (d : Database) : bool :=
  valid_message message
  && negb (faulty (db_at_check env))
  && negb (RATE_LIMIT_MAX cfg <=? count_of (clock_at_check env) d)%Z
  && match encode message with
     | Some bytes => negb (select_posted (Hashlib.md5_hexdigest bytes) d)
     | None => false
     end
  && negb (faulty (db_at_lookup env))
  && (if approval
      then match user_reply env with
           | Ret reply => approves reply
           | Raise _ => false
           end
      else true).

(** Everything that stands between a call and the platform: the
    above and the credentials. *)
Definition gate_open (env : Env) (message : str) (approval : bool)
    (d : Database) : bool :=
  front_open env message approval d
  && match validate_x_credentials cfg with
     | Ret _ => true
     | Raise _ => false
     end.

(** The response and the id the platform answered with, if it did and
    the link with the id can be printed. *)
Definition platform_id (env : Env) : option (Response * str) :=
  match platform_reply env with
  | Ret resp =>
      match dict_get (lit "id") (data resp) with
      | Ret tid => if encodable tid then Some (resp, tid) else None
      | Raise _ => None
      end
  | Raise _ => None
  end.

(** With approval required, the user's answer is among the events. *)
Definition answered (env : Env) (approval : bool) (pre : list Event)
    : Prop :=
  approval = true ->
  exists reply, user_reply env = Ret reply /\ In (Answer reply) pre.

(** The three ways a call of [post_tweet] can go. *)
Inductive path (env : Env) (message : str) (approval : bool)
    (d : Database) (r : Result (option Response)) : Prop :=
| Refused :
    gate_open env message approval d = false ->
    no_response (outcome r) ->
    db_after r = d ->
    quiet (events r) = true ->
    path env message approval d r
| Unacknowledged (pre post : list Event) :
    gate_open env message approval d = true ->
    platform_id env = None ->
    answered env approval pre ->
    events r = pre ++ CreateTweet message :: post ->
    quiet pre = true -> quiet post = true ->
    no_response (outcome r) ->
    db_after r = d ->
    path env message approval d r
| Acknowledged (pre : list Event) (resp : Response) (tid : str) :
    gate_open env message approval d = true ->
    platform_id env = Some (resp, tid) ->
    answered env approval pre ->
    events r = pre ++ CreateTweet message :: Printed Success
                   :: Printed (Posted tid)
                   :: events (tracking env message tid d) ->
    quiet pre = true ->
    db_after r = db_after (tracking env message tid d) ->
    outcome r = Ret (Some resp) ->
    path env message approval d r.

Definition call_result (c : Call) (d : Database)
    : Result (option Response) :=
  post_tweet str_lower cfg (call_env c) (call_message c)
             (call_approval c) d.

(** The database after a sequence of calls. *)
Fixpoint run (calls : list Call) (d : Database) : Database :=
  match calls with
  | [] => d
  | c :: rest => run rest (db_after (call_result c d))
  end.

(** How many of the calls had their tweet accepted while [month] was
    the current month. *)
Fixpoint acknowledged_in (month : str) (calls : list Call)
    (d : Database) : Z :=
  match calls with
  | [] => 0
  | c :: rest =>
      ((if acknowledged (call_result c d)
           && eqb (clock_at_increment (call_env c)) month
        then 1 else 0)
       + acknowledged_in month rest (db_after (call_result c d)))%Z
  end.

End Notions.

(** ** Sample data *)

Definition sample_cfg : Config :=
  {| X_API_KEY := Some (lit "key");
     X_API_SECRET_KEY := Some (lit "secret");
     X_ACCESS_TOKEN := Some (lit "token");
     X_ACCESS_TOKEN_SECRET := Some (lit "token-secret");
     GEMINI_API_KEY := Some (lit "gemini-key");
     RATE_LIMIT_THRESHOLD := 450;
     RATE_LIMIT_MAX := 500;
     BOT_PERSONALITY := lit "friendly and helpful developer assistant" |}.

Definition sample_message : str := lit "Ship small, ship often.".

Definition sample_response : Response :=
  {| data := [(lit "id", lit "1849"); (lit "text", sample_message)] |}.

(** A world in which everything works and the user says yes. *)
Definition sample_env : Env :=
  {| clock_at_check := lit "2025-03";
     db_at_check := Healthy;
     db_at_lookup := Healthy;
     user_reply := Ret (lit " Y ");
     platform_reply := Ret sample_response;
     clock_at_increment := lit "2025-03";
     db_at_increment := Healthy;
     db_at_record := Healthy |}.

(** The same world, but the user declines. *)
Definition declining_env : Env :=
  {| clock_at_check := lit "2025-03";
     db_at_check := Healthy;
     db_at_lookup := Healthy;
     user_reply := Ret (lit "no");
     platform_reply := Ret sample_response;
     clock_at_increment := lit "2025-03";
     db_at_increment := Healthy;
     db_at_record := Healthy |}.

(** A database that is locked when the statement runs. *)
Definition locked : Fault :=
  FailsLate {| decoded := lit "database is locked";
               decoded_ok := eq_refl |}.

(** The same world, but the database is locked when the count is
    written. *)
Definition locked_env : Env :=
  {| clock_at_check := lit "2025-03";
     db_at_check := Healthy;
     db_at_lookup := Healthy;
     user_reply := Ret (lit "y");
     platform_reply := Ret sample_response;
     clock_at_increment := lit "2025-03";
     db_at_increment := locked;
     db_at_record := Healthy |}.

(** A database whose quota for 2025-03 is used up. *)
Definition full_db : Database :=
  {| post_counts := [{| row_month := lit "2025-02"; row_count := 12 |};
                     {| row_month := lit "2025-03"; row_count := 500 |}];
     posted_tweets := [] |}.

(** A database in which the sample message is recorded. *)
Definition seen_db : Database :=
  {| post_counts := [{| row_month := lit "2025-03"; row_count := 1 |}];
     posted_tweets :=
       [{| row_content_hash := lit "68051aeba866e3362594d790240b8b81";
           row_tweet_id := lit "1849" |}] |}.

(** Two calls with the sample message: the second is a duplicate. *)
Definition sample_calls : list Call :=
  [{| call_env := sample_env; call_message := sample_message;
      call_approval := true |};
   {| call_env := sample_env; call_message := sample_message;
      call_approval := false |}].

Unset Implicit Arguments.

Arguments lit : simpl never.
Arguments encodable : simpl never.
Arguments link : simpl never.
Arguments error_line : simpl never.
Arguments credits_error : simpl never.
Arguments count_plus_1 : simpl never.
Arguments handler_events : simpl never.
Arguments handler_outcome : simpl never.
Arguments handler_text : simpl never.
Arguments contains : simpl never.
Arguments strip : simpl never.
Arguments len : simpl never.
Arguments encode : simpl never.
Arguments surrogate_message : simpl never.
Arguments Hashlib.md5_hexdigest : simpl never.
Arguments get_post_count : simpl never.
Arguments increment_post_count : simpl never.
Arguments has_posted_before : simpl never.
Arguments record_posted_tweet : simpl never.
Arguments dict_get : simpl never.
Arguments validate_x_credentials : simpl never.
Arguments validate_gemini_credentials : simpl never.
Arguments send_stage : simpl never.
Arguments tracking : simpl never.
Arguments valid_message : simpl never.
Arguments approves : simpl never.
Arguments PROMPTS_generate_tweet : simpl never.

(* ================================================================== *)
(** * Notions for the calls, event by event *)
(* ================================================================== *)

(** A call that stops with [None] and leaves the database alone. *)
Definition stopped (d : Database) (evs : list Event)
    : Result (option Response) :=
  {| outcome := Ret None; db_after := d; events := evs |}.

(** The console line that warns of a nearly used quota, if due. *)
Definition warning (cfg : Config) (count : Z) : list Event :=
  if (RATE_LIMIT_THRESHOLD cfg <=? count)%Z
  then [Printed (ApproachingLimit count (RATE_LIMIT_MAX cfg))]
  else [].

(** The events of asking the user, answered with [reply]. *)
Definition asked (cfg : Config) (message : str) (count : Z) (reply : str)
    : list Event :=
  [Printed PreviewHead;
   Printed (Preview message (len message) count (RATE_LIMIT_MAX cfg));
   Prompt; Answer reply].

(** The user is shown the prompt. *)
Definition prompts (evs : list Event) : bool :=
  existsb (fun ev => match ev with Prompt => true | _ => false end) evs.

(** The first and the last character, if any, satisfy neither [p]. *)
Definition bare (p : char -> bool) (s : str) : Prop :=
  s = [] \/ (p (hd 0%N s) = false /\ p (last s 0%N) = false).

(** No month's count is above the limit. *)
Definition within_quota (cfg : Config) (d : Database) : Prop :=
  forall month, (count_of month d <= RATE_LIMIT_MAX cfg)%Z.

(** The names of the credentials that are not set, in the order of
    [validate_x_credentials]. *)
Definition unset_credentials (cfg : Config) : list str :=
  map fst
    (filter (fun nv => negb (env_set (snd nv)))
       [(lit "X_API_KEY", X_API_KEY cfg);
        (lit "X_API_SECRET_KEY", X_API_SECRET_KEY cfg);
        (lit "X_ACCESS_TOKEN", X_ACCESS_TOKEN cfg);
        (lit "X_ACCESS_TOKEN_SECRET", X_ACCESS_TOKEN_SECRET cfg)]).

(** The console refuses for the quota, and warns of it. *)
Definition quota_refusal (evs : list Event) : bool :=
  existsb (fun ev => match ev with
                     | Printed (LimitReached _ _) => true
                     | _ => false
                     end) evs.

Definition quota_warning (evs : list Event) : bool :=
  existsb (fun ev => match ev with
                     | Printed (ApproachingLimit _ _) => true
                     | _ => false
                     end) evs.

(** The checks of [post_tweet] that come before the approval: the
    message is valid, under quota and new, and the database answered. *)
Definition checks_passed (cfg : Config) (env : Env) (message : str)
    (d : Database) : bool :=
  valid_message message
  && negb (faulty (db_at_check env))
  && negb (RATE_LIMIT_MAX cfg <=? count_of (clock_at_check env) d)%Z
  && match encode message with
     | Some bytes => negb (select_posted (Hashlib.md5_hexdigest bytes) d)
     | None => false
     end
  && negb (faulty (db_at_lookup env)).

(** The events [send_stage] and the bookkeeping can emit. *)
Definition send_kind (ev : Event) : bool :=
  match ev with
  | CreateTweet _ | Printed Success | Printed (Posted _) | LogError _ =>
      true
  | _ => false
  end.

(** The events the [except] clause of [post_tweet] can emit. *)
Definition handler_kind (ev : Event) : bool :=
  match ev with
  | Printed CreditsHead | Printed (CreditsHelp _) | Printed (Line _)
  | LogError _ => true
  | _ => false
  end.

(** The events [generate_tweet] can emit. *)
Definition generate_kind (ev : Event) : bool :=
  match ev with
  | GenerateContent _ | Printed AIEmpty | Printed (Line _) | LogError _ =>
      true
  | _ => false
  end.

(** The line the [except] clause of [generate_tweet] logs and prints. *)
Definition generation_line (e : exn) : str :=
  lit "Error generating tweet: " ++ exn_str e.

(** What the [except Exception] clause of [generate_tweet] writes, up
    to a [print] the console refuses. *)
Definition generation_events (e : exn) : list Event :=
  if negb (is_exception e) then []
  else LogError (generation_line e)
       :: (if encodable (generation_line e)
           then [Printed (Line (generation_line e))]
           else []).

(** How [generate_tweet] ends on an exception of its [try] block. *)
Definition generation_outcome (e : exn) : Outcome (option str) :=
  if negb (is_exception e) then Raise e
  else if encodable (generation_line e) then Ret None
  else Raise (UnicodeEncodeError (surrogate_message (generation_line e))).

(** What the AI client raises, if it does, is an exception the
    [except] clause can print. *)
Definition ai_printable (ai : AIEnv) : Prop :=
  forall e,
    ai_reply ai = Raise e
    \/ (exists response, ai_reply ai = Ret (Some response)
                         /\ text response = Raise e) ->
    printable e = true.

(** The prompts handed to the AI during a call, in order. *)
Definition asked_of_ai (evs : list Event) : list str :=
  flat_map (fun ev => match ev with GenerateContent p => [p] | _ => [] end)
           evs.

(** The first line of [copilot_mode] and [cmd_post]. *)
Definition topic_line (topic : str) : str :=
  nl ++ robot ++ lit " Generating tweet about: " ++ topic.

Definition generating_line (topic : str) : Event :=
  Printed (Line (topic_line topic)).

(** ** Notions for the four tables *)

Definition mention_ids (s : Store) : list str :=
  map mention_tweet_id (processed_mentions s).

Definition retweet_ids (s : Store) : list str :=
  map retweet_original_id (retweet_log s).

(** The first text parameter SQLite cannot take, if any. *)
Fixpoint first_unencodable (params : list (option str)) : option str :=
  match params with
  | [] => None
  | None :: rest => first_unencodable rest
  | Some text :: rest =>
      if encodable text then first_unencodable rest else Some text
  end.

(** What a failing database makes of a call that does not catch the
    error: the error is logged once and raised. *)
Definition store_failure {A} (msg : str) (s : Store) : OnStore.Result A :=
  {| OnStore.outcome := Raise (SqliteError msg);
     OnStore.store_after := s;
     OnStore.events := [db_error_log msg] |}.

(** What the statistics are computed from. *)
Definition stats_of (now : str) (s : Store) : Stats :=
  {| current_month_posts := count_of now (core s);
     total_tweets := Z.of_nat (List.length (posted_tweets (core s)));
     total_mentions_processed :=
       Z.of_nat (List.length (processed_mentions s));
     total_retweets := Z.of_nat (List.length (retweet_log s)) |}.

(** The console warns that few posts remain, and reports how many. *)
Definition few_left_line (remaining : Z) : Event :=
  Printed (Line ([9888; 65039]%N ++ lit "  Warning: Only "
                 ++ str_of_int remaining
                 ++ lit " posts remaining this month!")).

Definition posts_left_line (remaining : Z) : Event :=
  Printed (Line ([9989]%N ++ lit " " ++ str_of_int remaining
                 ++ lit " posts remaining this month")).

(** ** Further sample data *)

(** A configuration without the access token and without a Gemini key. *)
Definition keyless_cfg : Config :=
  {| X_API_KEY := Some (lit "key");
     X_API_SECRET_KEY := Some (lit "secret");
     X_ACCESS_TOKEN := None;
     X_ACCESS_TOKEN_SECRET := Some (lit "token-secret");
     GEMINI_API_KEY := None;
     RATE_LIMIT_THRESHOLD := 450;
     RATE_LIMIT_MAX := 500;
     BOT_PERSONALITY := lit "friendly and helpful developer assistant" |}.

(** An AI that answers with the sample message in quotes. *)
Definition sample_ai : AIEnv :=
  {| ai_reply := Ret (Some {| text := Ret ([32; 34]%N ++ sample_message
                                           ++ [34; 10]%N) |}) |}.

Definition sample_topic : list str := [lit "release"; lit "cadence"].

(** The four tables with the quota of 2025-03 used up. *)
Definition full_store : Store :=
  {| core := full_db; processed_mentions := []; retweet_log := [] |}.

Arguments str_of_int : simpl never.
Arguments generation_line : simpl never.
Arguments generation_events : simpl never.
Arguments generation_outcome : simpl never.

(* ================================================================== *)
(** * Text *)
(* ================================================================== *)

Lemma str_eqb_refl s : eqb s s = true.
Proof.
  induction s as [|c s IH]; cbn; [reflexivity|].
  now rewrite N.eqb_refl.
Qed.

Lemma str_eqb_eq a b : eqb a b = true <-> a = b.
Proof.
  split; [|intros ->; apply str_eqb_refl].
  revert b; induction a as [|x a IH]; intros [|y b]; cbn;
    try discriminate; auto.
  intros H. apply andb_true_iff in H as [Hx Hab].
  apply N.eqb_eq in Hx. f_equal; auto.
Qed.

Lemma str_eqb_neq a b : eqb a b = false <-> a <> b.
Proof.
  split.
  - intros H E. apply str_eqb_eq in E. congruence.
  - intros H. destruct (eqb a b) eqn:E; [|reflexivity].
    apply str_eqb_eq in E. contradiction.
Qed.

Lemma lstrip_by_all p s : forallb p s = true -> lstrip_by p s = [].
Proof.
  induction s as [|c s IH]; cbn; [reflexivity|].
  destruct (p c); [exact IH|discriminate].
Qed.

Lemma lstrip_by_nil p s : lstrip_by p s = [] -> forallb p s = true.
Proof.
  induction s as [|c s IH]; cbn; [reflexivity|].
  destruct (p c); [exact IH|discriminate].
Qed.

(** What [lstrip] leaves is a suffix that does not start with a
    stripped character. *)
Lemma lstrip_by_suffix p s :
  exists dropped, s = dropped ++ lstrip_by p s /\ forallb p dropped = true.
Proof.
  induction s as [|c s (dropped & Hs & Hd)]; cbn.
  - now exists [].
  - destruct (p c) eqn:Hc.
    + exists (c :: dropped). cbn. rewrite Hc, Hd. split; [congruence|easy].
    + now exists [].
Qed.

Lemma forallb_rev {A} (p : A -> bool) l :
  forallb p (rev l) = forallb p l.
Proof.
  induction l as [|x l IH]; cbn; [reflexivity|].
  rewrite forallb_app, IH. cbn. rewrite andb_true_r. apply andb_comm.
Qed.

(** [s.strip()] is empty exactly when [s] is blank. *)
Lemma strip_by_nil p s : strip_by p s = [] <-> forallb p s = true.
Proof.
  unfold strip_by, rstrip_by. split.
  - intros H.
    destruct (lstrip_by_suffix p s) as (dropped & Hs & Hd).
    assert (Hrest : forallb p (lstrip_by p s) = true).
    { rewrite <- forallb_rev. apply lstrip_by_nil.
      apply (f_equal (@rev _)) in H. now rewrite rev_involutive in H. }
    rewrite Hs, forallb_app, Hd, Hrest. reflexivity.
  - intros H. now rewrite (lstrip_by_all p s H).
Qed.

Lemma strip_blank s : len (strip s) = 0%Z <-> blank s = true.
Proof.
  unfold len, strip, blank. rewrite <- strip_by_nil.
  destruct (strip_by isspace s); cbn; split; intros; try easy; lia.
Qed.

Lemma len_app a b : len (a ++ b) = (len a + len b)%Z.
Proof. unfold len. rewrite length_app. lia. Qed.

Lemma len_slice_to n s :
  (Z.of_nat n <= len s)%Z -> len (slice_to n s) = Z.of_nat n.
Proof.
  unfold len, slice_to. intros H. rewrite length_firstn. lia.
Qed.

(* ================================================================== *)
(** * Text the console and SQLite accept *)
(* ================================================================== *)

Lemma encodable_forallb s :
  encodable s = forallb (fun c => negb (is_surrogate c)) s.
Proof.
  unfold encodable. induction s as [|c s IH]; [reflexivity|].
  change (encode (c :: s))
    with (if is_surrogate c then None
          else match encode s with
               | Some bs => Some (utf8_char c ++ bs)
               | None => None
               end).
  cbn [forallb]. destruct (is_surrogate c); cbn; [reflexivity|].
  rewrite <- IH. now destruct (encode s).
Qed.

Lemma encodable_app a b : encodable (a ++ b) = encodable a && encodable b.
Proof. rewrite !encodable_forallb. apply forallb_app. Qed.

Lemma encodable_encode s :
  encodable s = true <-> exists bytes, encode s = Some bytes.
Proof.
  unfold encodable. destruct (encode s) as [bytes|]; split;
    try discriminate; eauto.
  intros (bytes & H). discriminate H.
Qed.

Lemma small_not_surrogate c : (c < 55296)%N -> is_surrogate c = false.
Proof.
  intros H. unfold is_surrogate.
  apply andb_false_iff. left. now apply N.leb_gt.
Qed.

Lemma encodable_small s :
  Forall (fun c => (c < 55296)%N) s -> encodable s = true.
Proof.
  rewrite encodable_forallb. intros H. apply forallb_forall.
  rewrite Forall_forall in H. intros c Hc.
  now rewrite small_not_surrogate by auto.
Qed.

Lemma lit_small s : Forall (fun c => (c < 55296)%N) (lit s).
Proof.
  unfold lit. apply Forall_forall. intros c Hc.
  apply in_map_iff in Hc as (a & <- & _).
  pose proof (N_ascii_bounded a). lia.
Qed.

(** The literals of the source hold no surrogate. *)
Lemma encodable_lit s : encodable (lit s) = true.
Proof. apply encodable_small, lit_small. Qed.

Lemma decimal_digits_small fuel n :
  Forall (fun c => (c < 55296)%N) (decimal_digits fuel n).
Proof.
  revert n. induction fuel as [|fuel IH]; intros n; cbn [decimal_digits];
    [constructor|].
  destruct (n <? 10)%N eqn:E.
  - apply N.ltb_lt in E. constructor; [cbv beta; lia|constructor].
  - apply Forall_app. split; [apply IH|].
    pose proof (N.mod_lt n 10). constructor; [cbv beta; lia|constructor].
Qed.

Lemma decimal_small n : Forall (fun c => (c < 55296)%N) (decimal n).
Proof. apply decimal_digits_small. Qed.

Lemma hex_digit_small n : (n < 16)%N -> (hex_digit n < 55296)%N.
Proof. unfold hex_digit. intros H. destruct (n <? 10)%N; lia. Qed.

(** What [lstrip] leaves is empty or starts with a character that is
    not stripped. *)
Lemma lstrip_by_head p s :
  lstrip_by p s = [] \/ p (hd 0%N (lstrip_by p s)) = false.
Proof.
  induction s as [|c s IH]; cbn; [now left|].
  destruct (p c) eqn:E; [exact IH|]. right. exact E.
Qed.

(** The text of a [UnicodeEncodeError] is ASCII: the character is
    written as an escape. *)
Lemma surrogate_message_small s :
  Forall (fun c => (c < 55296)%N) (surrogate_message s).
Proof.
  unfold surrogate_message.
  set (rest := lstrip_by (fun c => negb (is_surrogate c)) s).
  assert (Hc : (hd 0 rest <= 57343)%N).
  { destruct (lstrip_by_head (fun c => negb (is_surrogate c)) s) as [E|E];
      fold rest in E.
    - rewrite E. cbn. lia.
    - apply negb_false_iff in E. unfold is_surrogate in E.
      apply andb_true_iff in E as [_ E]. now apply N.leb_le in E. }
  set (c := hd 0%N rest) in *. clearbody c.
  generalize (N.of_nat (List.length s - List.length rest)) as start.
  generalize (N.of_nat (List.length rest
                        - List.length (lstrip_by is_surrogate rest))) as run.
  intros run start.
  repeat (apply Forall_app; split); try apply lit_small.
  destruct (run <=? 1)%N.
  - repeat (apply Forall_app; split);
      try apply lit_small; try apply decimal_small.
    assert (c / 4096 < 16)%N
      by (apply N.Div0.div_lt_upper_bound; lia).
    repeat (apply Forall_cons); try apply Forall_nil;
      cbv beta; apply hex_digit_small;
      try (apply N.mod_lt; lia); assumption.
  - repeat (apply Forall_app; split);
      try apply lit_small; try apply decimal_small.
Qed.

Lemma encodable_surrogate_message s :
  encodable (surrogate_message s) = true.
Proof. apply encodable_small, surrogate_message_small. Qed.

(** The link can be printed exactly when the tweet id can. *)
Lemma encodable_link tweet_id : encodable (link tweet_id) = encodable tweet_id.
Proof.
  unfold link. now rewrite !encodable_app, encodable_lit.
Qed.

Lemma encodable_str_of_int z : encodable (str_of_int z) = true.
Proof.
  apply encodable_small. unfold str_of_int.
  destruct z; try apply lit_small; try apply decimal_small.
  apply Forall_app. split; [apply lit_small|apply decimal_small].
Qed.

Lemma encodable_repeat c n : encodable [c] = true -> encodable (repeat c n) = true.
Proof.
  rewrite !encodable_forallb. cbn. rewrite andb_true_r. intros H.
  induction n as [|n IH]; cbn; [reflexivity|]. now rewrite H.
Qed.

(* ================================================================== *)
(** * The console *)
(* ================================================================== *)

Lemma print_eq line d :
  print line d =
  if encodable (first_text line)
  then {| outcome := Ret tt; db_after := d; events := [Printed line] |}
  else {| outcome := Raise (UnicodeEncodeError
                              (surrogate_message (first_text line)));
          db_after := d; events := [] |}.
Proof. unfold print. now destruct (encodable (first_text line)). Qed.

(** A line of fixed text and numbers is always written. *)
Lemma print_fixed line d :
  first_text line = [] ->
  print line d
  = {| outcome := Ret tt; db_after := d; events := [Printed line] |}.
Proof. intros H. rewrite print_eq, H. reflexivity. Qed.

Lemma print_ok line d :
  encodable (first_text line) = true ->
  print line d
  = {| outcome := Ret tt; db_after := d; events := [Printed line] |}.
Proof. intros H. rewrite print_eq, H. reflexivity. Qed.

(* ================================================================== *)
(** * The two upserts *)
(* ================================================================== *)

Lemma existsb_hash_In h rows :
  existsb (fun r => eqb (row_content_hash r) h) rows = true
  <-> In h (map row_content_hash rows).
Proof.
  rewrite existsb_exists. split.
  - intros (r & Hr & E). apply str_eqb_eq in E. subst. now apply in_map.
  - intros H. apply in_map_iff in H as (r & <- & Hr).
    exists r. split; [assumption|apply str_eqb_refl].
Qed.

Lemma select_posted_In h d : select_posted h d = true <-> In h (hashes d).
Proof. apply existsb_hash_In. Qed.

Lemma insert_or_ignore_hashes h t rows :
  map row_content_hash (insert_or_ignore h t rows) =
  if existsb (fun r => eqb (row_content_hash r) h) rows
  then map row_content_hash rows
  else map row_content_hash rows ++ [h].
Proof.
  unfold insert_or_ignore.
  destruct (existsb _ rows); [reflexivity|].
  now rewrite map_app.
Qed.

Lemma insert_or_ignore_In h t rows :
  In h (map row_content_hash (insert_or_ignore h t rows)).
Proof.
  rewrite insert_or_ignore_hashes.
  destruct (existsb _ rows) eqn:E.
  - now apply existsb_hash_In.
  - apply in_or_app. right. now left.
Qed.

Lemma insert_or_ignore_present h t rows :
  In h (map row_content_hash rows) -> insert_or_ignore h t rows = rows.
Proof.
  intros H. apply existsb_hash_In in H.
  unfold insert_or_ignore. now rewrite H.
Qed.

Lemma insert_or_ignore_NoDup h t rows :
  NoDup (map row_content_hash rows) ->
  NoDup (map row_content_hash (insert_or_ignore h t rows)).
Proof.
  intros ND. rewrite insert_or_ignore_hashes.
  destruct (existsb _ rows) eqn:E; [assumption|].
  apply NoDup_app; [assumption|repeat constructor; intros []|].
  intros x Hx [<-|[]].
  apply existsb_hash_In in Hx. congruence.
Qed.

Lemma count_plus_1_countable count :
  (0 <= count <= INTEGER_MAX)%Z -> count_plus_1 count = (count + 1)%Z.
Proof.
  unfold count_plus_1, INTEGER_MIN, INTEGER_MAX. intros H.
  destruct (_ <=? count)%Z eqn:E1; destruct (count <=? _)%Z eqn:E2;
    cbn; try reflexivity; lia.
Qed.

Lemma count_plus_1_bounds count :
  (count <= count_plus_1 count <= count + 1)%Z.
Proof.
  unfold count_plus_1. destruct (_ && _); lia.
Qed.

Lemma find_upsert_same m rows :
  match find (fun r => eqb (row_month r) m) (upsert_count m rows) with
  | Some r => row_count r
  | None => 0%Z
  end
  = match find (fun r => eqb (row_month r) m) rows with
    | Some r => count_plus_1 (row_count r)
    | None => 1%Z
    end.
Proof.
  induction rows as [|r rows IH]; cbn.
  - now rewrite str_eqb_refl.
  - destruct (eqb (row_month r) m) eqn:E; cbn; rewrite ?E;
      [reflexivity|exact IH].
Qed.

Lemma find_upsert_other m m' rows :
  m' <> m ->
  find (fun r => eqb (row_month r) m') (upsert_count m rows)
  = find (fun r => eqb (row_month r) m') rows.
Proof.
  intros Hne.
  assert (Hmm : eqb m m' = false) by (apply str_eqb_neq; congruence).
  induction rows as [|r rows IH]; cbn.
  - now rewrite Hmm.
  - destruct (eqb (row_month r) m) eqn:E; cbn.
    + apply str_eqb_eq in E. rewrite E, Hmm. reflexivity.
    + destruct (eqb (row_month r) m'); [reflexivity|exact IH].
Qed.

Lemma find_upsert_fresh m rows :
  find (fun r => eqb (row_month r) m) rows = None ->
  upsert_count m rows = rows ++ [{| row_month := m; row_count := 1 |}].
Proof.
  induction rows as [|r rows IH]; cbn; [reflexivity|].
  destruct (eqb (row_month r) m); [discriminate|].
  intros H. now rewrite IH.
Qed.

Lemma find_fresh_row m rows :
  find (fun r => eqb (row_month r) m) rows = None ->
  find (fun r => eqb (row_month r) m)
       (rows ++ [{| row_month := m; row_count := 1 |}])
  = Some {| row_month := m; row_count := 1 |}.
Proof.
  induction rows as [|r rows IH]; cbn.
  - now rewrite str_eqb_refl.
  - destruct (eqb (row_month r) m); [discriminate|exact IH].
Qed.

Lemma existsb_month_In m rows :
  existsb (fun r => eqb (row_month r) m) rows = true
  <-> In m (map row_month rows).
Proof.
  rewrite existsb_exists. split.
  - intros (r & Hr & E). apply str_eqb_eq in E. subst. now apply in_map.
  - intros H. apply in_map_iff in H as (r & <- & Hr).
    exists r. split; [assumption|apply str_eqb_refl].
Qed.

Lemma upsert_months m rows :
  map row_month (upsert_count m rows) =
  if existsb (fun r => eqb (row_month r) m) rows
  then map row_month rows
  else map row_month rows ++ [m].
Proof.
  induction rows as [|r rows IH]; cbn; [reflexivity|].
  destruct (eqb (row_month r) m) eqn:E; cbn; [reflexivity|].
  rewrite IH. now destruct (existsb _ rows).
Qed.

Lemma upsert_months_NoDup m rows :
  NoDup (map row_month rows) -> NoDup (map row_month (upsert_count m rows)).
Proof.
  intros ND. rewrite upsert_months.
  destruct (existsb _ rows) eqn:E; [assumption|].
  apply NoDup_app; [assumption|repeat constructor; intros []|].
  intros x Hx [<-|[]].
  apply existsb_month_In in Hx. congruence.
Qed.

(* ================================================================== *)
(** * The operations of database.py, case by case *)
(* ================================================================== *)

(** The text of a database error can be printed. *)
Lemma fault_message_encodable f msg :
  fault_message f = Some msg -> encodable msg = true.
Proof.
  destruct f as [|m|m]; cbn; intros H; try discriminate;
    injection H as <-; apply decoded_ok.
Qed.

Lemma get_post_count_eq now f d :
  get_post_count now f d =
  match fault_message f with
  | None => {| outcome := Ret (count_of now d); db_after := d;
               events := [] |}
  | Some msg => {| outcome := Raise (SqliteError msg); db_after := d;
                   events := [db_error_log msg] |}
  end.
Proof. destruct f; reflexivity. Qed.

Lemma increment_post_count_eq now f d :
  increment_post_count now f d =
  match fault_message f with
  | None => {| outcome := Ret true;
               db_after := {| post_counts := upsert_count now (post_counts d);
                              posted_tweets := posted_tweets d |};
               events := [] |}
  | Some msg =>
      {| outcome := Ret false; db_after := d;
         events := [db_error_log msg;
                    LogError (lit "Failed to increment post count: "
                              ++ msg)] |}
  end.
Proof. destruct f; reflexivity. Qed.

Lemma increment_post_count_returns now f d :
  outcome (increment_post_count now f d) = Ret (negb (faulty f)).
Proof. destruct f; reflexivity. Qed.

Lemma has_posted_before_eq content f d :
  has_posted_before content f d =
  match encode content with
  | None => {| outcome := Raise (UnicodeEncodeError
                                   (surrogate_message content));
               db_after := d; events := [] |}
  | Some bytes =>
    match fault_message f with
    | None => {| outcome := Ret (select_posted
                                   (Hashlib.md5_hexdigest bytes) d);
                 db_after := d; events := [] |}
    | Some msg => {| outcome := Raise (SqliteError msg); db_after := d;
                     events := [db_error_log msg] |}
    end
  end.
Proof.
  unfold has_posted_before, get_content_hash.
  destruct (encode content); [|reflexivity].
  destruct f; reflexivity.
Qed.

Lemma record_posted_tweet_eq content tweet_id f d :
  record_posted_tweet content tweet_id f d =
  match encode content with
  | None => {| outcome := Raise (UnicodeEncodeError
                                   (surrogate_message content));
               db_after := d; events := [] |}
  | Some bytes =>
    match f with
    | FailsEarly msg => {| outcome := Ret false; db_after := d;
                           events := record_failure_log (decoded msg) |}
    | _ =>
      match encode tweet_id with
      | None => {| outcome := Raise (UnicodeEncodeError
                                       (surrogate_message tweet_id));
                   db_after := d; events := [] |}
      | Some _ =>
        match fault_message f with
        | None =>
            {| outcome := Ret true;
               db_after :=
                 {| post_counts := post_counts d;
                    posted_tweets :=
                      insert_or_ignore (Hashlib.md5_hexdigest bytes)
                                       tweet_id (posted_tweets d) |};
               events := [] |}
        | Some msg => {| outcome := Ret false; db_after := d;
                         events := record_failure_log msg |}
        end
      end
    end
  end.
Proof.
  unfold record_posted_tweet, get_content_hash, db_bind.
  destruct (encode content); [|reflexivity].
  destruct f; cbn; destruct (encode tweet_id); reflexivity.
Qed.

(** [record_posted_tweet] never touches [post_counts]. *)
Lemma record_posted_tweet_counts content tweet_id f d :
  post_counts (db_after (record_posted_tweet content tweet_id f d))
  = post_counts d.
Proof.
  rewrite record_posted_tweet_eq.
  destruct (encode content); [|reflexivity].
  destruct f; destruct (encode tweet_id); reflexivity.
Qed.

(** ... and it leaves [posted_tweets] alone or inserts one row. *)
Lemma record_posted_tweet_rows content tweet_id f d :
  posted_tweets (db_after (record_posted_tweet content tweet_id f d))
  = posted_tweets d
  \/ exists bytes,
       encode content = Some bytes
       /\ posted_tweets (db_after (record_posted_tweet content tweet_id f d))
          = insert_or_ignore (Hashlib.md5_hexdigest bytes) tweet_id
                             (posted_tweets d).
Proof.
  rewrite record_posted_tweet_eq.
  destruct (encode content) as [bytes|]; [|now left].
  destruct f; destruct (encode tweet_id); cbn; try now left.
  right. now exists bytes.
Qed.

Lemma record_posted_tweet_quiet content tweet_id f d :
  quiet (events (record_posted_tweet content tweet_id f d)) = true.
Proof.
  rewrite record_posted_tweet_eq.
  destruct (encode content); [|reflexivity].
  destruct f; destruct (encode tweet_id); reflexivity.
Qed.

Lemma increment_post_count_quiet now f d :
  quiet (events (increment_post_count now f d)) = true.
Proof. destruct f; reflexivity. Qed.

Lemma increment_post_count_rows now f d :
  posted_tweets (db_after (increment_post_count now f d)) = posted_tweets d.
Proof. destruct f; reflexivity. Qed.

Lemma unique_keys_increment now f d :
  unique_keys d -> unique_keys (db_after (increment_post_count now f d)).
Proof.
  intros [Hm Hh]. rewrite increment_post_count_eq.
  destruct (fault_message f); [now split|].
  split; [|exact Hh]. now apply upsert_months_NoDup.
Qed.

Lemma unique_keys_record content tweet_id f d :
  unique_keys d ->
  unique_keys (db_after (record_posted_tweet content tweet_id f d)).
Proof.
  intros [Hm Hh]. unfold unique_keys, months, hashes.
  rewrite record_posted_tweet_counts. split; [exact Hm|].
  destruct (record_posted_tweet_rows content tweet_id f d)
    as [->|(bytes & _ & ->)]; [exact Hh|].
  now apply insert_or_ignore_NoDup.
Qed.
(* ================================================================== *)
(** * Steps of the monad *)
(* ================================================================== *)

Lemma bind_step {A B} (m : M A) (k : A -> M B) d a d' evs :
  m d = {| outcome := Ret a; db_after := d'; events := evs |} ->
  bind m k d = prepend evs (k a d').
Proof. intros H. unfold bind. rewrite H. reflexivity. Qed.

Lemma bind_raise {A B} (m : M A) (k : A -> M B) d e d' evs :
  m d = {| outcome := Raise e; db_after := d'; events := evs |} ->
  bind m k d = {| outcome := Raise e; db_after := d'; events := evs |}.
Proof. intros H. unfold bind. rewrite H. reflexivity. Qed.

Lemma bind_after {A B} (m : M A) (k : A -> M B) d a :
  outcome (m d) = Ret a ->
  bind m k d = prepend (events (m d)) (k a (db_after (m d))).
Proof. intros H. unfold bind. rewrite H. reflexivity. Qed.

Lemma bind_last {A B} (m : M A) (x : B) d :
  bind m (fun _ => ret x) d =
  {| outcome := match outcome (m d) with
                | Ret _ => Ret x
                | Raise e => Raise e
                end;
     db_after := db_after (m d);
     events := events (m d) |}.
Proof.
  unfold bind.
  destruct (outcome (m d)); cbn; rewrite ?app_nil_r; reflexivity.
Qed.

Lemma get_post_count_bind {B} now f (k : Z -> M B) d :
  bind (get_post_count now f) k d =
  match fault_message f with
  | None => k (count_of now d) d
  | Some msg => {| outcome := Raise (SqliteError msg); db_after := d;
                   events := [db_error_log msg] |}
  end.
Proof.
  unfold bind. rewrite get_post_count_eq.
  destruct (fault_message f); cbn; [reflexivity|].
  now destruct (k (count_of now d) d).
Qed.

Lemma quiet_app a b : quiet (a ++ b) = quiet a && quiet b.
Proof. apply forallb_app. Qed.

Lemma quiet_transmitted evs : quiet evs = true -> transmitted evs = [].
Proof.
  induction evs as [|ev evs IH]; cbn; [reflexivity|].
  destruct ev as [[]| | | | |]; cbn; auto; discriminate.
Qed.

Lemma quiet_not_posted evs :
  quiet evs = true -> existsb is_posted_line evs = false.
Proof.
  induction evs as [|ev evs IH]; cbn; [reflexivity|].
  destruct ev as [[]| | | | |]; cbn; auto; discriminate.
Qed.

Lemma transmitted_send t evs :
  transmitted (CreateTweet t :: evs) = t :: transmitted evs.
Proof. reflexivity. Qed.

Lemma transmitted_print line evs :
  transmitted (Printed line :: evs) = transmitted evs.
Proof. reflexivity. Qed.

Lemma transmitted_app a b :
  transmitted (a ++ b) = transmitted a ++ transmitted b.
Proof. unfold transmitted. now rewrite flat_map_app. Qed.

Lemma no_response_none : no_response (Ret None).
Proof. intros resp H. discriminate H. Qed.

Lemma no_response_raise e : no_response (Raise e).
Proof. intros resp H. discriminate H. Qed.

(* ================================================================== *)
(** * The paths of post_tweet *)
(* ================================================================== *)

Section Paths.

Variable str_lower : str -> str.
Variable cfg : Config.

Lemma quiet_handler message e :
  quiet (handler_events str_lower message e) = true.
Proof.
  unfold handler_events.
  destruct (is_exception e); [|reflexivity].
  destruct (credits_error str_lower e);
    destruct (encodable _); reflexivity.
Qed.

(** The [except] clause never returns a response. *)
Lemma handler_no_response message e :
  no_response (handler_outcome str_lower message e).
Proof.
  unfold handler_outcome.
  destruct (is_exception e); cbn; [|apply no_response_raise].
  destruct (encodable _); [apply no_response_none|apply no_response_raise].
Qed.

(** The line with the error can be printed exactly when the text of
    the error can. *)
Lemma encodable_error_line e :
  encodable (error_line e) = encodable (exn_str e).
Proof.
  unfold error_line, cross_mark.
  rewrite !encodable_app, encodable_lit. reflexivity.
Qed.

(** The [except] clause returns [None] for an exception it catches and
    can print, when it can print the message. *)
Lemma handler_returns message e :
  encodable message = true ->
  printable e = true ->
  handler_outcome str_lower message e = Ret None.
Proof.
  unfold printable, handler_outcome, handler_text.
  intros Hm He. apply andb_true_iff in He as [-> He]. cbn.
  destruct (credits_error str_lower e); cbv iota;
    [now rewrite Hm|now rewrite encodable_error_line, He].
Qed.

(** How the [except] clause can end: with [None], with the interrupt
    it does not catch, or with the error of its own [print]. *)
Lemma handler_outcome_cases message e :
  handler_outcome str_lower message e = Ret None
  \/ (e = KeyboardInterrupt
      /\ handler_outcome str_lower message e = Raise KeyboardInterrupt)
  \/ (encodable (handler_text str_lower message e) = false
      /\ handler_outcome str_lower message e
         = Raise (UnicodeEncodeError
                    (surrogate_message
                       (handler_text str_lower message e)))).
Proof.
  unfold handler_outcome.
  destruct e; cbn; try (destruct (encodable _); tauto); tauto.
Qed.

Lemma printable_sqlite f msg :
  fault_message f = Some msg -> printable (SqliteError msg) = true.
Proof. intros H. cbn. now apply fault_message_encodable with f. Qed.

Lemma printable_unicode s : printable (UnicodeEncodeError (surrogate_message s)) = true.
Proof. cbn. apply encodable_surrogate_message. Qed.

Lemma quiet_tracking env message tid d :
  quiet (events (tracking env message tid d)) = true.
Proof.
  unfold tracking; cbn. rewrite quiet_app.
  now rewrite increment_post_count_quiet, record_posted_tweet_quiet.
Qed.

(** With a message and an id that encode, the bookkeeping returns. *)
Lemma tracking_returns env message tid d bytes :
  encode message = Some bytes ->
  encodable tid = true ->
  outcome (tracking env message tid d)
  = Ret (negb (faulty (db_at_record env))).
Proof.
  intros Hm Ht. unfold tracking; cbn.
  rewrite record_posted_tweet_eq, Hm.
  unfold encodable in Ht.
  destruct (db_at_record env); destruct (encode tid);
    try discriminate; reflexivity.
Qed.

(** The [except Exception] clause, applied to what its [try] block
    does. *)
Lemma except_exception_eq (body : M (option Response)) message d :
  try_except body any_exception
    (fun e =>
       let error_str := exn_str e in
       if contains (lit "402") error_str
          || contains (lit "credits") (str_lower error_str)
       then print CreditsHead ;; print (CreditsHelp message) ;; ret None
       else
         let error_msg :=
           cross_mark ++ lit " Error posting tweet: " ++ exn_str e in
         logging_error error_msg ;;
         print (Line error_msg) ;;
         ret None) d
  = match outcome (body d) with
    | Ret _ => body d
    | Raise e =>
        handled str_lower message (db_after (body d)) (events (body d)) e
    end.
Proof.
  unfold try_except, handled, handler_events, handler_outcome,
    handler_text.
  destruct (body d) as [o d' evs]. cbn [outcome db_after events].
  destruct o as [x|e]; [reflexivity|].
  unfold any_exception.
  destruct (is_exception e); cbn [negb];
    [|now rewrite app_nil_r].
  fold (credits_error str_lower e). fold (error_line e).
  destruct (credits_error str_lower e).
  - rewrite bind_step with (a := tt) (d' := d')
                           (evs := [Printed CreditsHead]) by reflexivity.
    cbv beta. unfold prepend. rewrite bind_last, print_eq.
    change (first_text (CreditsHelp message)) with message.
    destruct (encodable message); reflexivity.
  - rewrite bind_step with (a := tt) (d' := d')
                           (evs := [LogError (error_line e)])
      by reflexivity.
    cbv beta. unfold prepend. rewrite bind_last, print_eq.
    change (first_text (Line (error_line e))) with (error_line e).
    destruct (encodable (error_line e)); reflexivity.
Qed.

Lemma send_stage_eq env message d :
  send_stage cfg env message d =
  match validate_x_credentials cfg with
  | Raise e => {| outcome := Raise e; db_after := d; events := [] |}
  | Ret _ =>
    match platform_reply env with
    | Raise e => {| outcome := Raise e; db_after := d;
                    events := [CreateTweet message] |}
    | Ret resp =>
      match dict_get (lit "id") (data resp) with
      | Raise e => {| outcome := Raise e; db_after := d;
                      events := [CreateTweet message] |}
      | Ret tid =>
        if encodable tid then
          let t := tracking env message tid d in
          {| outcome := match outcome t with
                        | Ret _ => Ret (Some resp)
                        | Raise e => Raise e
                        end;
             db_after := db_after t;
             events := CreateTweet message :: Printed Success
                       :: Printed (Posted tid) :: events t |}
        else
          {| outcome := Raise (UnicodeEncodeError
                                 (surrogate_message (link tid)));
             db_after := d;
             events := [CreateTweet message; Printed Success] |}
      end
    end
  end.
Proof.
  unfold send_stage, get_x_client, create_tweet, tracking.
  destruct (validate_x_credentials cfg) as [ok|e]; [|reflexivity].
  destruct (platform_reply env) as [resp|e]; [|reflexivity].
  rewrite bind_step with (a := tt) (evs := []) (d' := d) by reflexivity.
  cbv beta.
  rewrite bind_step with (a := resp) (evs := [CreateTweet message])
                         (d' := d) by reflexivity.
  cbv beta.
  destruct (dict_get (lit "id") (data resp)) as [tid|e]; [|reflexivity].
  rewrite bind_step with (a := tid) (evs := []) (d' := d) by reflexivity.
  cbv beta.
  rewrite bind_step with (a := tt) (evs := [Printed Success])
                         (d' := d) by reflexivity.
  cbv beta.
  destruct (encodable tid) eqn:Ht.
  - rewrite bind_step with (a := tt) (evs := [Printed (Posted tid)])
                           (d' := d)
      by (apply print_ok; cbn; now rewrite encodable_link).
    cbv beta.
    rewrite (bind_after (increment_post_count _ _) _ _ _
               (increment_post_count_returns _ _ _)).
    cbv beta. rewrite bind_last. reflexivity.
  - rewrite bind_raise
      with (e := UnicodeEncodeError (surrogate_message (link tid)))
           (evs := []) (d' := d)
      by (rewrite print_eq; cbn [first_text];
          now rewrite encodable_link, Ht).
    reflexivity.
Qed.

(** The whole of [post_tweet], path by path, with its events. *)
Lemma post_tweet_eq env message approval d :
  let sent pre :=
    match outcome (send_stage cfg env message d) with
    | Ret _ => prepend pre (send_stage cfg env message d)
    | Raise e =>
        handled str_lower message
          (db_after (send_stage cfg env message d))
          (pre ++ events (send_stage cfg env message d)) e
    end in
  let count := count_of (clock_at_check env) d in
  post_tweet str_lower cfg env message approval d =
  if negb (truthy message) || (len (strip message) =? 0)%Z
  then stopped d [Printed EmptyMessage]
  else if (280 <? len message)%Z
  then stopped d [Printed (TooLong (len message))]
  else
    match fault_message (db_at_check env) with
    | Some msg =>
        handled str_lower message d [db_error_log msg] (SqliteError msg)
    | None =>
      if (RATE_LIMIT_MAX cfg <=? count)%Z
      then stopped d [Printed (LimitReached count (RATE_LIMIT_MAX cfg))]
      else
        match encode message with
        | None => handled str_lower message d (warning cfg count)
                    (UnicodeEncodeError (surrogate_message message))
        | Some bytes =>
          match fault_message (db_at_lookup env) with
          | Some msg =>
              handled str_lower message d
                (warning cfg count ++ [db_error_log msg]) (SqliteError msg)
          | None =>
            if select_posted (Hashlib.md5_hexdigest bytes) d
            then stopped d (warning cfg count ++ [Printed DuplicateSkipped])
            else if approval then
              match user_reply env with
              | Raise e =>
                  handled str_lower message d
                    (warning cfg count
                     ++ [Printed PreviewHead;
                         Printed (Preview message (len message) count
                                    (RATE_LIMIT_MAX cfg)); Prompt]) e
              | Ret reply =>
                  if approves str_lower reply
                  then sent (warning cfg count
                             ++ asked cfg message count reply)
                  else stopped d (warning cfg count
                                  ++ asked cfg message count reply
                                  ++ [Printed Cancelled])
              end
            else sent (warning cfg count)
          end
        end
    end.
Proof.
  cbv zeta. unfold post_tweet, stopped.
  rewrite except_exception_eq.
  fold (send_stage cfg env message).
  match goal with |- context [outcome (?b d)] => set (body := b) end.
  set (send := send_stage cfg env message) in *.
  remember (body d) as rb eqn:E. subst body.
  destruct (negb (truthy message) || (len (strip message) =? 0)%Z);
    [subst rb; reflexivity|].
  destruct (280 <? len message)%Z; [subst rb; reflexivity|].
  rewrite get_post_count_bind in E.
  destruct (db_at_check env); cbn in E; [|subst rb; reflexivity ..].
  set (c := count_of (clock_at_check env) d) in *.
  destruct (RATE_LIMIT_MAX cfg <=? c)%Z; [subst rb; reflexivity|].
  rewrite bind_step with (a := tt) (d' := d) (evs := warning cfg c)
    in E by (unfold warning;
             destruct (RATE_LIMIT_THRESHOLD cfg <=? c)%Z; reflexivity).
  set (warn := warning cfg c) in *. clearbody warn.
  cbv beta in E. unfold bind at 1 in E.
  rewrite has_posted_before_eq in E.
  destruct (encode message) as [bytes|] eqn:Henc; cbn in E;
    [|subst rb; unfold handled; cbn; now rewrite app_nil_r].
  destruct (db_at_lookup env); cbn in E; [|subst rb; reflexivity ..].
  destruct (select_posted (Hashlib.md5_hexdigest bytes) d); cbn in E;
    [subst rb; reflexivity|].
  destruct approval.
  - rewrite bind_step
      with (a := tt) (d' := d) (evs := [Printed PreviewHead])
      in E by reflexivity.
    cbv beta in E.
    rewrite bind_step
      with (a := tt) (d' := d)
           (evs := [Printed (Preview message (len message) c
                               (RATE_LIMIT_MAX cfg))])
      in E by (apply print_ok; cbn; unfold encodable; now rewrite Henc).
    cbv beta in E. unfold input in E.
    destruct (user_reply env) as [reply|e].
    + rewrite bind_step
        with (a := reply) (d' := d) (evs := [Prompt; Answer reply])
        in E by reflexivity.
      cbv beta in E. fold (approves str_lower reply) in E.
      destruct (approves str_lower reply); cbn in E.
      * subst rb. unfold prepend, asked, handled; cbn.
        destruct (outcome (send d)); cbn;
          rewrite <- ?app_assoc; reflexivity.
      * subst rb. reflexivity.
    + subst rb. unfold handled. cbn. now rewrite <- app_assoc.
  - subst rb. unfold prepend, handled; cbn.
    destruct (outcome (send d)); cbn;
      rewrite <- ?app_assoc, ?app_nil_r; reflexivity.
Qed.

Lemma gate_open_front env message approval d :
  gate_open str_lower cfg env message approval d
  = front_open str_lower cfg env message approval d
    && match validate_x_credentials cfg with
       | Ret _ => true
       | Raise _ => false
       end.
Proof. reflexivity. Qed.

Lemma healthy_not_faulty f : negb (faulty f) = true <-> f = Healthy.
Proof. destruct f; cbn; split; congruence. Qed.

Lemma fault_message_none f : fault_message f = None <-> f = Healthy.
Proof. destruct f; cbn; split; congruence. Qed.

Lemma fault_message_faulty f :
  faulty f = match fault_message f with Some _ => true | None => false end.
Proof. now destruct f. Qed.

(** What an open gate means, condition by condition. *)
Lemma gate_open_iff env message approval d :
  gate_open str_lower cfg env message approval d = true <->
  valid_message message = true
  /\ db_at_check env = Healthy
  /\ (count_of (clock_at_check env) d < RATE_LIMIT_MAX cfg)%Z
  /\ (exists bytes, encode message = Some bytes
                    /\ select_posted (Hashlib.md5_hexdigest bytes) d
                       = false)
  /\ db_at_lookup env = Healthy
  /\ (approval = true ->
      exists reply, user_reply env = Ret reply
                    /\ approves str_lower reply = true)
  /\ (exists ok, validate_x_credentials cfg = Ret ok).
Proof.
  unfold gate_open, front_open.
  rewrite !andb_true_iff, !healthy_not_faulty, negb_true_iff,
    Z.leb_gt.
  split.
  - intros ((((((Hv & Hf1) & Hq) & Hh) & Hf2) & Ha) & Hc).
    repeat split; trivial.
    + destruct (encode message) as [bytes|]; [|discriminate].
      exists bytes. split; [reflexivity|now apply negb_true_iff].
    + intros ->. destruct (user_reply env) as [reply|]; [|discriminate].
      now exists reply.
    + destruct (validate_x_credentials cfg) as [ok|]; [|discriminate].
      now exists ok.
  - intros (Hv & Hf1 & Hq & (bytes & Henc & Hnew) & Hf2 & Ha & ok & Hc).
    rewrite Henc, Hnew, Hc. repeat split; trivial.
    destruct approval; [|reflexivity].
    destruct (Ha eq_refl) as (reply & -> & Hyes). exact Hyes.
Qed.

Lemma quiet_warning c : quiet (warning cfg c) = true.
Proof.
  unfold warning. now destruct (RATE_LIMIT_THRESHOLD cfg <=? c)%Z.
Qed.

Lemma stopped_refused env message approval d evs :
  gate_open str_lower cfg env message approval d = false ->
  quiet evs = true ->
  path str_lower cfg env message approval d (stopped d evs).
Proof.
  intros Hg Hq. apply Refused; trivial. apply no_response_none.
Qed.

Lemma handled_refused env message approval d evs e :
  gate_open str_lower cfg env message approval d = false ->
  quiet evs = true ->
  path str_lower cfg env message approval d
       (handled str_lower message d evs e).
Proof.
  intros Hg Hq. apply Refused; trivial.
  - apply handler_no_response.
  - cbn. now rewrite quiet_app, Hq, quiet_handler.
Qed.

(** Past the checks and the approval, the call takes one of the three
    paths. *)
Lemma sent_paths env message approval d pre bytes :
  front_open str_lower cfg env message approval d = true ->
  encode message = Some bytes ->
  answered env approval pre ->
  quiet pre = true ->
  path str_lower cfg env message approval d
    match outcome (send_stage cfg env message d) with
    | Ret _ => prepend pre (send_stage cfg env message d)
    | Raise e =>
        handled str_lower message
          (db_after (send_stage cfg env message d))
          (pre ++ events (send_stage cfg env message d)) e
    end.
Proof.
  intros Hfront Henc Hans Hpre.
  assert (Hgate := gate_open_front env message approval d).
  rewrite Hfront in Hgate. rewrite send_stage_eq.
  destruct (validate_x_credentials cfg) as [ok|e]; cbn in Hgate |- *.
  2:{ rewrite app_nil_r. now apply handled_refused. }
  unfold handled.
  destruct (platform_reply env) as [resp|e] eqn:Hp;
    cbn [outcome db_after events].
  2:{ apply Unacknowledged
        with (pre := pre) (post := handler_events str_lower message e);
        unfold platform_id; rewrite ?Hp; cbn; trivial.
      - now rewrite <- app_assoc.
      - apply quiet_handler.
      - apply handler_no_response. }
  destruct (dict_get (lit "id") (data resp)) as [tid|e] eqn:Hid;
    cbn [outcome db_after events].
  2:{ apply Unacknowledged
        with (pre := pre) (post := handler_events str_lower message e);
        unfold platform_id; rewrite ?Hp, ?Hid; cbn; trivial.
      - now rewrite <- app_assoc.
      - apply quiet_handler.
      - apply handler_no_response. }
  destruct (encodable tid) eqn:Ht; cbv zeta; cbn [outcome db_after events].
  - rewrite (tracking_returns env message tid d bytes Henc Ht).
    apply Acknowledged with (pre := pre) (resp := resp) (tid := tid);
      unfold platform_id; rewrite ?Hp, ?Hid, ?Ht; cbn; trivial.
  - apply Unacknowledged
      with (pre := pre)
           (post := Printed Success
                    :: handler_events str_lower message
                         (UnicodeEncodeError (surrogate_message (link tid))));
      unfold platform_id; rewrite ?Hp, ?Hid, ?Ht; cbn; trivial.
    + now rewrite <- app_assoc.
    + apply quiet_handler.
    + apply handler_no_response.
Qed.

Ltac closed_gate :=
  unfold gate_open, front_open, valid_message;
  repeat match goal with
         | H : _ = _ |- _ => rewrite H
         end;
  cbn; rewrite ?andb_false_r; reflexivity.

(** Every call of [post_tweet] takes one of the three paths. *)
Lemma post_tweet_paths env message approval d :
  path str_lower cfg env message approval d
       (post_tweet str_lower cfg env message approval d).
Proof.
  rewrite post_tweet_eq. cbv zeta.
  destruct (negb (truthy message) || (len (strip message) =? 0)%Z) eqn:Hv1;
    [apply stopped_refused; [closed_gate|reflexivity]|].
  destruct (280 <? len message)%Z eqn:Hv2;
    [apply stopped_refused; [closed_gate|reflexivity]|].
  pose proof (fault_message_faulty (db_at_check env)) as Hf1.
  destruct (fault_message (db_at_check env)) as [msg|];
    [apply handled_refused; [closed_gate|reflexivity]|].
  destruct (RATE_LIMIT_MAX cfg <=? count_of (clock_at_check env) d)%Z
    eqn:Hq;
    [apply stopped_refused; [closed_gate|reflexivity]|].
  pose proof (quiet_warning (count_of (clock_at_check env) d)) as Hwarn.
  set (warn := warning cfg (count_of (clock_at_check env) d)) in *.
  clearbody warn.
  destruct (encode message) as [bytes|] eqn:Henc;
    [|apply handled_refused; [clear Hwarn; closed_gate|exact Hwarn]].
  pose proof (fault_message_faulty (db_at_lookup env)) as Hf2.
  destruct (fault_message (db_at_lookup env)) as [msg|];
    [apply handled_refused; [clear Hwarn; closed_gate|];
     now rewrite quiet_app, Hwarn|].
  destruct (select_posted (Hashlib.md5_hexdigest bytes) d) eqn:Hdup;
    [apply stopped_refused; [clear Hwarn; closed_gate|];
     now rewrite quiet_app, Hwarn|].
  destruct approval.
  - destruct (user_reply env) as [reply|e] eqn:Hreply.
    + destruct (approves str_lower reply) eqn:Hyes.
      * apply sent_paths with (bytes := bytes); trivial.
        -- clear Hwarn. closed_gate.
        -- intros _. exists reply. split; [exact Hreply|].
           apply in_or_app. right. cbn. tauto.
        -- now rewrite quiet_app, Hwarn.
      * apply stopped_refused; [clear Hwarn; closed_gate|].
        now rewrite !quiet_app, Hwarn.
    + apply handled_refused; [clear Hwarn; closed_gate|].
      now rewrite quiet_app, Hwarn.
  - apply sent_paths with (bytes := bytes); trivial.
    + clear Hwarn. closed_gate.
    + intros H; discriminate H.
Qed.

End Paths.

(* ================================================================== *)
(** * What a call leaves behind, path by path *)
(* ================================================================== *)

Section Calls.

Variable str_lower : str -> str.
Variable cfg : Config.

Lemma refused_transmits_nothing env message approval d :
  gate_open str_lower cfg env message approval d = false ->
  no_response (outcome (post_tweet str_lower cfg env message approval d))
  /\ transmitted (events (post_tweet str_lower cfg env message approval d))
     = []
  /\ db_after (post_tweet str_lower cfg env message approval d) = d.
Proof.
  intros Hgate.
  destruct (post_tweet_paths str_lower cfg env message approval d)
    as [_ Ho Hd Hq | pre post Hopen | pre resp tid Hopen];
    try congruence.
  auto using quiet_transmitted.
Qed.

Lemma handled_returns message d evs e :
  encodable message = true ->
  printable e = true ->
  outcome (handled str_lower message d evs e) = Ret None.
Proof. intros Hm He. cbn. now apply handler_returns. Qed.

(** The text of the error for missing credentials is ASCII. *)
Lemma join_small sep parts :
  Forall (fun c => (c < 55296)%N) sep ->
  Forall (Forall (fun c => (c < 55296)%N)) parts ->
  Forall (fun c => (c < 55296)%N) (join sep parts).
Proof.
  intros Hsep Hparts.
  induction Hparts as [|p parts Hp Hparts IH]; cbn; [constructor|].
  destruct parts; [exact Hp|].
  apply Forall_app. split; [exact Hp|].
  apply Forall_app. split; [exact Hsep|exact IH].
Qed.

Lemma validate_x_credentials_printable e :
  validate_x_credentials cfg = Raise e -> printable e = true.
Proof.
  unfold validate_x_credentials.
  destruct (env_set (X_API_KEY cfg) && env_set (X_API_SECRET_KEY cfg)
            && env_set (X_ACCESS_TOKEN cfg)
            && env_set (X_ACCESS_TOKEN_SECRET cfg)); [discriminate|].
  match goal with
  | |- Raise (ValueError ?m) = _ -> _ => set (msg := m)
  end.
  assert (Hmsg : encodable msg = true).
  { subst msg.
    apply encodable_small, Forall_app. split; [apply lit_small|].
    apply join_small; [apply lit_small|].
    repeat (apply Forall_app; split);
      match goal with
      | |- context [if ?b then _ else _] => destruct b
      end; repeat constructor; apply lit_small. }
  clearbody msg. intros H. injection H as <-. exact Hmsg.
Qed.

(** On an exception that can be printed, the [except] clause returns
    [None], unless it has to print a message the console refuses. *)
Lemma handler_printable message e :
  printable e = true ->
  handler_outcome str_lower message e = Ret None
  \/ (encodable message = false
      /\ handler_outcome str_lower message e
         = Raise (UnicodeEncodeError (surrogate_message message))).
Proof.
  unfold printable, handler_outcome, handler_text.
  intros He. apply andb_true_iff in He as [-> He]. cbn [negb].
  destruct (credits_error str_lower e); cbv iota.
  - destruct (encodable message); [now left|now right].
  - rewrite encodable_error_line, He. now left.
Qed.

(** Without credentials, the call ends in the [except] clause. *)
Lemma sent_without_credentials env message d pre :
  match validate_x_credentials cfg with
  | Ret _ => true
  | Raise _ => false
  end = false ->
  exists e,
    printable e = true
    /\ outcome
         match outcome (send_stage cfg env message d) with
         | Ret _ => prepend pre (send_stage cfg env message d)
         | Raise e =>
             handled str_lower message
               (db_after (send_stage cfg env message d))
               (pre ++ events (send_stage cfg env message d)) e
         end = handler_outcome str_lower message e.
Proof.
  intros Hc. rewrite send_stage_eq.
  destruct (validate_x_credentials cfg) as [ok|e] eqn:Hv; [discriminate|].
  exists e. split; [now apply validate_x_credentials_printable|].
  reflexivity.
Qed.

(** How a call that is turned down ends: with [None], or with
    the exception of the [except] clause. *)
Lemma refused_ends env message approval d :
  gate_open str_lower cfg env message approval d = false ->
  outcome (post_tweet str_lower cfg env message approval d) = Ret None
  \/ (exists e,
        printable e = true
        /\ outcome (post_tweet str_lower cfg env message approval d)
           = handler_outcome str_lower message e)
  \/ (exists e,
        approval = true /\ user_reply env = Raise e
        /\ checks_passed cfg env message d = true
        /\ outcome (post_tweet str_lower cfg env message approval d)
           = handler_outcome str_lower message e).
Proof.
  intros Hg.
  rewrite post_tweet_eq. cbv zeta.
  unfold gate_open, front_open, checks_passed, valid_message in *.
  rewrite !fault_message_faulty in *.
  destruct (negb (truthy message) || (len (strip message) =? 0)%Z);
    [now left|].
  destruct (280 <? len message)%Z; [now left|].
  destruct (fault_message (db_at_check env)) as [msg|] eqn:Hf1;
    [right; left; exists (SqliteError msg);
     split; [now apply printable_sqlite with (db_at_check env)|reflexivity]|].
  destruct (RATE_LIMIT_MAX cfg <=? count_of (clock_at_check env) d)%Z;
    [now left|].
  destruct (encode message) as [bytes|] eqn:Henc;
    [|right; left;
      exists (UnicodeEncodeError (surrogate_message message));
      split; [apply printable_unicode|reflexivity]].
  destruct (fault_message (db_at_lookup env)) as [msg|] eqn:Hf2;
    [right; left; exists (SqliteError msg);
     split; [now apply printable_sqlite with (db_at_lookup env)|reflexivity]|].
  destruct (select_posted (Hashlib.md5_hexdigest bytes) d);
    [now left|].
  cbn in Hg.
  destruct approval.
  - destruct (user_reply env) as [reply|e] eqn:Hreply.
    + destruct (approves str_lower reply); [|now left].
      right; left. now apply sent_without_credentials.
    + right; right. exists e. now repeat split.
  - right; left. now apply sent_without_credentials.
Qed.

Lemma sent_ends env message approval d pre bytes :
  encode message = Some bytes ->
  (exists resp,
     platform_reply env = Ret resp
     /\ outcome
          match outcome (send_stage cfg env message d) with
          | Ret _ => prepend pre (send_stage cfg env message d)
          | Raise e =>
              handled str_lower message
                (db_after (send_stage cfg env message d))
                (pre ++ events (send_stage cfg env message d)) e
          end = Ret (Some resp))
  \/ (exists e,
        origin env approval e
        /\ outcome
             match outcome (send_stage cfg env message d) with
             | Ret _ => prepend pre (send_stage cfg env message d)
             | Raise e =>
                 handled str_lower message
                   (db_after (send_stage cfg env message d))
                   (pre ++ events (send_stage cfg env message d)) e
             end = handler_outcome str_lower message e).
Proof.
  intros Henc. rewrite send_stage_eq. unfold origin.
  destruct (validate_x_credentials cfg) as [ok|e] eqn:Hv.
  2:{ right. exists e. split; [|reflexivity].
      left. now apply validate_x_credentials_printable. }
  destruct (platform_reply env) as [resp|e] eqn:Hp.
  2:{ right. exists e. split; [|reflexivity]. now right; right. }
  destruct (dict_get (lit "id") (data resp)) as [tid|e] eqn:Hid.
  2:{ right. exists e. split; [|reflexivity]. left.
      unfold dict_get in Hid. destruct (find _ _); [discriminate|].
      injection Hid as <-. vm_compute. reflexivity. }
  destruct (encodable tid) eqn:Ht.
  - left. exists resp. split; [reflexivity|]. cbv zeta. cbn [outcome].
    now rewrite (tracking_returns env message tid d bytes Henc Ht).
  - right. exists (UnicodeEncodeError (surrogate_message (link tid))).
    split; [|reflexivity]. left. apply printable_unicode.
Qed.

(** How a call ends: with [None], with the response of the platform,
    or in the [except] clause. *)
Lemma post_tweet_ends env message approval d :
  outcome (post_tweet str_lower cfg env message approval d) = Ret None
  \/ (exists resp,
        platform_reply env = Ret resp
        /\ outcome (post_tweet str_lower cfg env message approval d)
           = Ret (Some resp))
  \/ (exists e,
        origin env approval e
        /\ outcome (post_tweet str_lower cfg env message approval d)
           = handler_outcome str_lower message e).
Proof.
  rewrite post_tweet_eq. cbv zeta.
  destruct (negb (truthy message) || (len (strip message) =? 0)%Z);
    [now left|].
  destruct (280 <? len message)%Z; [now left|].
  destruct (fault_message (db_at_check env)) as [msg|] eqn:Hf1;
    [right; right; exists (SqliteError msg);
     split; [left; now apply printable_sqlite with (db_at_check env)
            |reflexivity]|].
  destruct (RATE_LIMIT_MAX cfg <=? count_of (clock_at_check env) d)%Z;
    [now left|].
  destruct (encode message) as [bytes|] eqn:Henc;
    [|right; right;
      exists (UnicodeEncodeError (surrogate_message message));
      split; [left; apply printable_unicode|reflexivity]].
  destruct (fault_message (db_at_lookup env)) as [msg|] eqn:Hf2;
    [right; right; exists (SqliteError msg);
     split; [left; now apply printable_sqlite with (db_at_lookup env)
            |reflexivity]|].
  destruct (select_posted (Hashlib.md5_hexdigest bytes) d);
    [now left|].
  destruct approval.
  - destruct (user_reply env) as [reply|e] eqn:Hreply.
    + destruct (approves str_lower reply); [|now left].
      right. now apply sent_ends with bytes.
    + right; right. exists e. split; [|reflexivity].
      right; left. now split.
  - right. now apply sent_ends with bytes.
Qed.

(** A call returns when the console can print the message and what
    the user's [input] or the platform raise, if anything, are
    exceptions that can be printed. *)
Lemma post_tweet_returns env message approval d :
  encodable message = true ->
  (forall e, user_reply env = Raise e -> printable e = true) ->
  (forall e, platform_reply env = Raise e -> printable e = true) ->
  exists x,
    outcome (post_tweet str_lower cfg env message approval d) = Ret x.
Proof.
  intros Hm Huser Hplat.
  destruct (post_tweet_ends env message approval d)
    as [Ho|[(resp & _ & Ho)|(e & He & Ho)]]; rewrite Ho; eauto.
  exists None. apply handler_returns; [exact Hm|].
  destruct He as [He|[[_ He]|He]]; auto.
Qed.

(** A call that is turned down returns [None] when the console can
    print the message and what the user's [input] raises, if it does, is
    an exception that can be printed. *)
Lemma refused_returns env message approval d :
  gate_open str_lower cfg env message approval d = false ->
  encodable message = true ->
  (forall e, approval = true -> user_reply env = Raise e ->
             printable e = true) ->
  outcome (post_tweet str_lower cfg env message approval d) = Ret None.
Proof.
  intros Hg Hm Huser.
  destruct (refused_ends env message approval d Hg)
    as [Ho|[(e & He & Ho)|(e & Ha & Hr & _ & Ho)]];
    [exact Ho| |]; rewrite Ho; apply handler_returns; auto.
Qed.

(** A call the checks turn down returns [None] when the console can
    print the message: it does not get to ask the user. *)
Lemma checks_stop env message approval d :
  checks_passed cfg env message d = false ->
  encodable message = true ->
  outcome (post_tweet str_lower cfg env message approval d) = Ret None.
Proof.
  intros Hc Hm.
  rewrite post_tweet_eq. cbv zeta.
  unfold checks_passed, valid_message in Hc.
  rewrite !fault_message_faulty in Hc.
  destruct (negb (truthy message) || (len (strip message) =? 0)%Z);
    [reflexivity|].
  destruct (280 <? len message)%Z; [reflexivity|].
  destruct (fault_message (db_at_check env)) as [msg|] eqn:Hf1;
    [apply handled_returns; [exact Hm|];
     now apply printable_sqlite with (db_at_check env)|].
  destruct (RATE_LIMIT_MAX cfg <=? count_of (clock_at_check env) d)%Z;
    [reflexivity|].
  destruct (encode message) as [bytes|] eqn:Henc;
    [|unfold encodable in Hm; rewrite Henc in Hm; discriminate].
  destruct (fault_message (db_at_lookup env)) as [msg|] eqn:Hf2;
    [apply handled_returns; [exact Hm|];
     now apply printable_sqlite with (db_at_lookup env)|].
  destruct (select_posted (Hashlib.md5_hexdigest bytes) d);
    [reflexivity|discriminate].
Qed.

Lemma checks_failed_gate env message approval d :
  checks_passed cfg env message d = false ->
  gate_open str_lower cfg env message approval d = false.
Proof.
  unfold gate_open, front_open, checks_passed. intros ->. reflexivity.
Qed.

(** A call hands at most its own message to the platform, once. *)
Lemma transmitted_once env message approval d :
  transmitted (events (post_tweet str_lower cfg env message approval d))
  = if gate_open str_lower cfg env message approval d
    then [message] else [].
Proof.
  destruct (post_tweet_paths str_lower cfg env message approval d)
    as [Hg Ho Hd Hq | pre post Hg _ _ Hev Hpre Hpost
        | pre resp tid Hg _ _ Hev Hpre].
  - rewrite Hg. now apply quiet_transmitted.
  - rewrite Hg, Hev, transmitted_app, transmitted_send.
    now rewrite (quiet_transmitted _ Hpre), (quiet_transmitted _ Hpost).
  - rewrite Hg, Hev, transmitted_app, transmitted_send, !transmitted_print.
    now rewrite (quiet_transmitted _ Hpre),
      (quiet_transmitted _ (quiet_tracking env message tid d)).
Qed.

Lemma platform_id_some env resp tid :
  platform_id env = Some (resp, tid) ->
  platform_reply env = Ret resp
  /\ dict_get (lit "id") (data resp) = Ret tid
  /\ encodable tid = true.
Proof.
  unfold platform_id.
  destruct (platform_reply env) as [resp'|]; [|discriminate].
  destruct (dict_get (lit "id") (data resp')) as [tid'|] eqn:Hid;
    [|discriminate].
  destruct (encodable tid') eqn:Ht; [|discriminate].
  intros H. injection H as <- <-. auto.
Qed.

Lemma acknowledged_iff env message approval d :
  acknowledged (post_tweet str_lower cfg env message approval d)
  = gate_open str_lower cfg env message approval d
    && match platform_id env with Some _ => true | None => false end.
Proof.
  unfold acknowledged.
  destruct (post_tweet_paths str_lower cfg env message approval d)
    as [Hg Ho Hd Hq | pre post Hg Hid _ Hev Hpre Hpost
        | pre resp tid Hg Hid _ Hev Hpre].
  - rewrite Hg. now apply quiet_not_posted.
  - rewrite Hg, Hid, Hev, existsb_app. cbn.
    now rewrite (quiet_not_posted _ Hpre), (quiet_not_posted _ Hpost).
  - rewrite Hg, Hid, Hev, existsb_app. cbn. apply orb_true_r.
Qed.

(** The database after a call: as before, or after the bookkeeping. *)
Lemma db_after_post_tweet env message approval d :
  db_after (post_tweet str_lower cfg env message approval d) = d
  \/ exists resp tid,
       acknowledged (post_tweet str_lower cfg env message approval d)
       = true
       /\ platform_id env = Some (resp, tid)
       /\ db_after (post_tweet str_lower cfg env message approval d)
          = db_after (tracking env message tid d).
Proof.
  pose proof (acknowledged_iff env message approval d) as Hack.
  destruct (post_tweet_paths str_lower cfg env message approval d)
    as [Hg Ho Hd Hq | pre post Hg Hid _ Hev Hpre Hpost Ho Hd
        | pre resp tid Hg Hid _ Hev Hpre Hd Ho];
    [now left | now left |].
  right. exists resp, tid. rewrite Hack, Hg, Hid. auto.
Qed.

Lemma tracking_counts env message tid d :
  post_counts (db_after (tracking env message tid d))
  = match fault_message (db_at_increment env) with
    | None => upsert_count (clock_at_increment env) (post_counts d)
    | Some _ => post_counts d
    end.
Proof.
  unfold tracking; cbn.
  rewrite record_posted_tweet_counts, increment_post_count_eq.
  now destruct (fault_message (db_at_increment env)).
Qed.

Lemma count_of_upsert month now d rows :
  count_of month {| post_counts := upsert_count now (post_counts d);
                    posted_tweets := rows |}
  = if eqb now month then incremented month d else count_of month d.
Proof.
  unfold count_of, incremented, select_count; cbn.
  destruct (eqb now month) eqn:E.
  - apply str_eqb_eq in E. subst. apply find_upsert_same.
  - apply str_eqb_neq in E.
    now rewrite find_upsert_other by congruence.
Qed.

(** On a tally that is an INTEGER below its maximum, the upsert adds
    one; on any tally it adds one or nothing. *)
Lemma incremented_countable month d :
  countable (count_of month d) ->
  incremented month d = (count_of month d + 1)%Z.
Proof.
  unfold countable, incremented, count_of.
  destruct (select_count month d) as [r|]; [|reflexivity].
  apply count_plus_1_countable.
Qed.

Lemma incremented_bounds month d :
  (count_of month d <= incremented month d <= count_of month d + 1)%Z.
Proof.
  unfold incremented, count_of.
  destruct (select_count month d) as [r|]; [|lia].
  apply count_plus_1_bounds.
Qed.

Lemma count_of_counts month d d' :
  post_counts d' = post_counts d -> count_of month d' = count_of month d.
Proof. unfold count_of, select_count. now intros ->. Qed.

(** One call, seen from the counter of a month. *)
Lemma post_tweet_count env message approval d month :
  db_at_increment env = Healthy ->
  count_of month
           (db_after (post_tweet str_lower cfg env message approval d))
  = if acknowledged (post_tweet str_lower cfg env message approval d)
       && eqb (clock_at_increment env) month
    then incremented month d
    else count_of month d.
Proof.
  intros Hf.
  rewrite acknowledged_iff.
  destruct (post_tweet_paths str_lower cfg env message approval d)
    as [Hg _ Hd _ | pre post Hg Hid _ _ _ _ _ Hd
        | pre resp tid Hg Hid _ _ _ Hd _].
  - rewrite Hg, Hd. reflexivity.
  - rewrite Hg, Hid, Hd. reflexivity.
  - rewrite Hg, Hid, Hd. cbn.
    rewrite (count_of_counts month
               {| post_counts := upsert_count (clock_at_increment env)
                                              (post_counts d);
                  posted_tweets := [] |})
      by (rewrite tracking_counts, Hf; reflexivity).
    apply count_of_upsert.
Qed.

Lemma tracking_hashes_NoDup env message tid d :
  NoDup (hashes d) -> NoDup (hashes (db_after (tracking env message tid d))).
Proof.
  intros ND. unfold tracking, hashes; cbn.
  destruct (record_posted_tweet_rows message tid (db_at_record env)
              (db_after (increment_post_count (clock_at_increment env)
                           (db_at_increment env) d)))
    as [->|(bytes & _ & ->)];
    rewrite increment_post_count_rows; [exact ND|].
  now apply insert_or_ignore_NoDup.
Qed.

End Calls.

(** The first request to the platform is preceded by everything that
    precedes any request. *)
Lemma before_first_send pre0 m post0 pre t post :
  quiet pre0 = true ->
  pre0 ++ CreateTweet m :: post0 = pre ++ CreateTweet t :: post ->
  incl pre0 pre.
Proof.
  revert pre. induction pre0 as [|ev pre0 IH]; intros pre Hq E.
  - intros x [].
  - cbn in Hq. apply andb_true_iff in Hq as [Hev Hq].
    destruct pre as [|ev' pre]; cbn in E.
    + injection E as -> _. discriminate.
    + injection E as -> E. specialize (IH pre Hq E).
      intros x [<-|Hx]; [now left|right; now apply IH].
Qed.

(** ** Which events each part can emit *)

Lemma existsb_none {A} (p q : A -> bool) l :
  forallb q l = true ->
  (forall x, q x = true -> p x = false) ->
  existsb p l = false.
Proof.
  intros Hq Hpq. induction l as [|x l IH]; cbn in *; [reflexivity|].
  apply andb_true_iff in Hq as [Hx Hl].
  now rewrite (Hpq x Hx), IH.
Qed.

Lemma record_posted_tweet_kind content tweet_id f d :
  forallb send_kind (events (record_posted_tweet content tweet_id f d))
  = true.
Proof.
  rewrite record_posted_tweet_eq.
  destruct (encode content); [|reflexivity].
  destruct f; destruct (encode tweet_id); reflexivity.
Qed.

Lemma increment_post_count_kind now f d :
  forallb send_kind (events (increment_post_count now f d)) = true.
Proof. destruct f; reflexivity. Qed.

Lemma send_stage_kind cfg env message d :
  forallb send_kind (events (send_stage cfg env message d)) = true.
Proof.
  rewrite send_stage_eq.
  destruct (validate_x_credentials cfg); [|reflexivity].
  destruct (platform_reply env) as [resp|]; [|reflexivity].
  destruct (dict_get (lit "id") (data resp)) as [tid|]; [|reflexivity].
  destruct (encodable tid); [|reflexivity].
  unfold tracking; cbn. rewrite forallb_app.
  now rewrite increment_post_count_kind, record_posted_tweet_kind.
Qed.

Lemma handler_events_kind str_lower message e :
  forallb handler_kind (handler_events str_lower message e) = true.
Proof.
  unfold handler_events.
  destruct (is_exception e); [|reflexivity].
  destruct (credits_error str_lower e); destruct (encodable _); reflexivity.
Qed.

Ltac tidy :=
  unfold stopped, prepend, asked, handled; cbn; rewrite ?existsb_app; cbn;
  rewrite ?existsb_app; cbn;
  repeat match goal with
         | H : _ = false |- _ => rewrite H
         | H : forall _, _ = false |- _ => rewrite H
         end;
  cbn; rewrite ?orb_false_r, ?orb_assoc.

Section Trace_facts.

Variable str_lower : str -> str.
Variable cfg : Config.

(** A test [p] that no event of the last stage and of the [except]
    clause passes sees only the events before them. *)
Lemma existsb_post_tweet (p : Event -> bool) env message approval d :
  (forall ev, send_kind ev = true -> p ev = false) ->
  (forall ev, handler_kind ev = true -> p ev = false) ->
  let count := count_of (clock_at_check env) d in
  existsb p (events (post_tweet str_lower cfg env message approval d)) =
  if negb (truthy message) || (len (strip message) =? 0)%Z
  then p (Printed EmptyMessage)
  else if (280 <? len message)%Z
  then p (Printed (TooLong (len message)))
  else
    match fault_message (db_at_check env) with
    | Some msg => false
    | None =>
      if (RATE_LIMIT_MAX cfg <=? count)%Z
      then p (Printed (LimitReached count (RATE_LIMIT_MAX cfg)))
      else
        existsb p (warning cfg count)
        || match encode message with
           | None => false
           | Some bytes =>
             match fault_message (db_at_lookup env) with
             | Some msg => false
             | None =>
               if select_posted (Hashlib.md5_hexdigest bytes) d
               then p (Printed DuplicateSkipped)
               else if approval then
                 p (Printed PreviewHead)
                 || p (Printed (Preview message (len message) count
                                  (RATE_LIMIT_MAX cfg)))
                 || p Prompt
                 || match user_reply env with
                    | Raise e => false
                    | Ret reply =>
                        p (Answer reply)
                        || (negb (approves str_lower reply)
                            && p (Printed Cancelled))
                    end
               else false
             end
           end
    end.
Proof.
  intros Hsend Hhandler count. subst count.
  assert (Hh : forall e,
            existsb p (handler_events str_lower message e) = false)
    by (intros e; apply (existsb_none p handler_kind);
        [apply handler_events_kind|exact Hhandler]).
  assert (Hs : existsb p (events (send_stage cfg env message d)) = false)
    by (apply (existsb_none p send_kind);
        [apply send_stage_kind|exact Hsend]).
  assert (Hlog : forall msg, p (db_error_log msg) = false)
    by (intros msg; now apply Hsend).
  pose proof (post_tweet_eq str_lower cfg env message approval d) as E.
  cbv zeta in E. rewrite E. clear E.
  destruct (negb (truthy message) || (len (strip message) =? 0)%Z);
    [now tidy|].
  destruct (280 <? len message)%Z; [now tidy|].
  destruct (fault_message (db_at_check env)) as [msg|]; [now tidy|].
  destruct (RATE_LIMIT_MAX cfg <=? count_of (clock_at_check env) d)%Z;
    [now tidy|].
  destruct (encode message) as [bytes|]; [|now tidy].
  destruct (fault_message (db_at_lookup env)) as [msg|]; [now tidy|].
  destruct (select_posted (Hashlib.md5_hexdigest bytes) d); [now tidy|].
  destruct approval.
  - destruct (user_reply env) as [reply|e]; [|now tidy].
    destruct (approves str_lower reply); [|now tidy].
    destruct (outcome (send_stage cfg env message d)); now tidy.
  - destruct (outcome (send_stage cfg env message d)); now tidy.
Qed.

(** An answer among the events is the user's reply to the prompt, which
    is reached only with approval required and after the message has
    been encoded for the duplicate check. *)
Lemma answer_given env message approval d reply :
  In (Answer reply)
     (events (post_tweet str_lower cfg env message approval d)) ->
  approval = true /\ user_reply env = Ret reply
  /\ encodable message = true.
Proof.
  intros Hin.
  set (p := fun ev => match ev with Answer r => eqb r reply | _ => false end).
  assert (Hp : existsb p
                 (events (post_tweet str_lower cfg env message approval d))
               = true).
  { apply existsb_exists. exists (Answer reply).
    split; [exact Hin|apply str_eqb_refl]. }
  pose proof (existsb_post_tweet p env message approval d) as E.
  cbv zeta in E. rewrite E in Hp; clear E;
    try (intros [] H; try reflexivity; discriminate H).
  destruct (negb (truthy message) || (len (strip message) =? 0)%Z);
    [discriminate Hp|].
  destruct (280 <? len message)%Z; [discriminate Hp|].
  destruct (fault_message (db_at_check env)); [discriminate Hp|].
  destruct (RATE_LIMIT_MAX cfg <=? count_of (clock_at_check env) d)%Z;
    [discriminate Hp|].
  assert (Hw : existsb p (warning cfg (count_of (clock_at_check env) d))
               = false)
    by (unfold warning; destruct (_ <=? _)%Z; reflexivity).
  rewrite Hw in Hp. cbn [orb] in Hp. unfold encodable.
  destruct (encode message); [|discriminate Hp].
  destruct (fault_message (db_at_lookup env)); [discriminate Hp|].
  destruct (select_posted _ d); [discriminate Hp|].
  destruct approval; [|discriminate Hp].
  destruct (user_reply env) as [reply'|e]; [|discriminate Hp].
  cbn in Hp. rewrite andb_false_r, orb_false_r in Hp.
  apply str_eqb_eq in Hp. now subst.
Qed.

End Trace_facts.

(* ================================================================== *)
(** * The properties of the posting workflow *)
(* ================================================================== *)

(** C1.  When the count that [get_post_count] returns for the current
    month has reached [RATE_LIMIT_MAX], [post_tweet] returns [None],
    hands nothing to the platform and leaves both tables as they were,
    whatever the message. *)
Theorem quota_blocks_posting str_lower cfg env message approval d c :
  outcome (get_post_count (clock_at_check env) (db_at_check env) d) = Ret c ->
  (RATE_LIMIT_MAX cfg <= c)%Z ->
  outcome (post_tweet str_lower cfg env message approval d) = Ret None
  /\ transmitted (events (post_tweet str_lower cfg env message approval d))
     = []
  /\ db_after (post_tweet str_lower cfg env message approval d) = d.
Proof.
  intros Hc Hmax.
  rewrite get_post_count_eq in Hc.
  destruct (fault_message (db_at_check env)) eqn:Hf; [discriminate|].
  cbn in Hc. injection Hc as <-. apply Z.leb_le in Hmax.
  rewrite post_tweet_eq. cbv zeta. rewrite Hf, Hmax.
  destruct (negb (truthy message) || (len (strip message) =? 0)%Z);
    [now repeat split|].
  destruct (280 <? len message)%Z; now repeat split.
Qed.

(** C2.  With [require_approval = True], whatever reaches the platform
    comes after the user's answer to the prompt, and that answer,
    stripped and lowercased, is ["y"]; when the user answers anything
    else, [post_tweet] returns [None], hands nothing to the platform and
    leaves both tables as they were.  The same holds of a user who would
    answer something else and is never asked, but for the result: the
    call then returns [None] when the message encodes as UTF-8, and for
    a message with a lone surrogate it returns [None] or raises the
    [UnicodeEncodeError] of the [print(message)] in its [except]
    clause. *)
Theorem approval_precedes_posting str_lower cfg env message d :
  (forall pre sent post,
     events (post_tweet str_lower cfg env message true d)
     = pre ++ CreateTweet sent :: post ->
     exists reply,
       In (Answer reply) pre
       /\ user_reply env = Ret reply
       /\ str_lower (strip reply) = lit "y")
  /\ (forall reply,
        In (Answer reply)
           (events (post_tweet str_lower cfg env message true d)) ->
        str_lower (strip reply) <> lit "y" ->
        outcome (post_tweet str_lower cfg env message true d) = Ret None
        /\ transmitted (events (post_tweet str_lower cfg env message true d))
           = []
        /\ db_after (post_tweet str_lower cfg env message true d) = d)
  /\ (forall reply,
        user_reply env = Ret reply ->
        str_lower (strip reply) <> lit "y" ->
        transmitted (events (post_tweet str_lower cfg env message true d))
        = []
        /\ db_after (post_tweet str_lower cfg env message true d) = d
        /\ (encodable message = true ->
            outcome (post_tweet str_lower cfg env message true d)
            = Ret None)
        /\ (outcome (post_tweet str_lower cfg env message true d) = Ret None
            \/ outcome (post_tweet str_lower cfg env message true d)
               = Raise (UnicodeEncodeError (surrogate_message message)))).
Proof.
  assert (Hdeclined :
    forall reply,
      user_reply env = Ret reply ->
      str_lower (strip reply) <> lit "y" ->
      gate_open str_lower cfg env message true d = false).
  { intros reply Hreply Hno.
    destruct (gate_open str_lower cfg env message true d) eqn:Hg;
      [exfalso|reflexivity].
    apply gate_open_iff in Hg as (_ & _ & _ & _ & _ & Happ & _).
    destruct (Happ eq_refl) as (reply' & Hreply' & Hy).
    rewrite Hreply in Hreply'. injection Hreply' as <-.
    now apply str_eqb_eq in Hy. }
  split; [|split].
  - intros pre' sent post' Hsplit.
    assert (Hyes : forall pre,
              gate_open str_lower cfg env message true d = true ->
              answered env true pre -> incl pre pre' ->
              exists reply,
                In (Answer reply) pre'
                /\ user_reply env = Ret reply
                /\ str_lower (strip reply) = lit "y").
    { intros pre Hg Hans Hincl.
      apply gate_open_iff in Hg as (_ & _ & _ & _ & _ & Happ & _).
      destruct (Happ eq_refl) as (reply & Hreply & Hy).
      destruct (Hans eq_refl) as (reply' & Hreply' & Hin).
      rewrite Hreply in Hreply'. injection Hreply' as <-.
      exists reply. repeat split; auto.
      now apply str_eqb_eq. }
    destruct (post_tweet_paths str_lower cfg env message true d)
      as [Hg Ho Hd Hq | pre post Hg _ Hans Hev Hpre _ _ _
          | pre resp tid Hg _ Hans Hev Hpre _ _].
    + rewrite Hsplit, quiet_app in Hq. cbn in Hq.
      now rewrite andb_false_r in Hq.
    + apply (Hyes pre Hg Hans).
      rewrite Hev in Hsplit. exact (before_first_send _ _ _ _ _ _ Hpre Hsplit).
    + apply (Hyes pre Hg Hans).
      rewrite Hev in Hsplit. exact (before_first_send _ _ _ _ _ _ Hpre Hsplit).
  - intros reply Hin Hno.
    destruct (answer_given str_lower cfg env message true d reply Hin)
      as (_ & Hreply & Hm).
    pose proof (Hdeclined reply Hreply Hno) as Hg.
    destruct (refused_transmits_nothing str_lower cfg env message true d Hg)
      as (_ & Ht & Hd).
    split; [|now split].
    apply refused_returns; trivial.
    intros e _ He. rewrite Hreply in He. discriminate He.
  - intros reply Hreply Hno.
    pose proof (Hdeclined reply Hreply Hno) as Hg.
    destruct (refused_transmits_nothing str_lower cfg env message true d Hg)
      as (_ & Ht & Hd).
    split; [exact Ht|]. split; [exact Hd|]. split.
    + intros Hm. apply refused_returns; trivial.
      intros e _ He. rewrite Hreply in He. discriminate He.
    + destruct (refused_ends str_lower cfg env message true d Hg)
        as [Ho|[(e & He & Ho)|(e & _ & Hr & _)]];
        [now left| |rewrite Hreply in Hr; discriminate Hr].
      rewrite Ho.
      destruct (handler_printable str_lower message e He) as [->|[_ ->]];
        [now left|now right].
Qed.

(** C3.  A message whose MD5 digest is a [content_hash] of
    [posted_tweets] is skipped: [post_tweet] returns [None] and hands
    nothing to the platform (and writes nothing). *)
Theorem duplicate_is_skipped str_lower cfg env message approval d bytes :
  encode message = Some bytes ->
  In (Hashlib.md5_hexdigest bytes) (hashes d) ->
  outcome (post_tweet str_lower cfg env message approval d) = Ret None
  /\ transmitted (events (post_tweet str_lower cfg env message approval d))
     = []
  /\ db_after (post_tweet str_lower cfg env message approval d) = d.
Proof.
  intros Henc Hin. apply select_posted_In in Hin.
  assert (Hc : checks_passed cfg env message d = false)
    by (unfold checks_passed; rewrite Henc, Hin; cbn;
        now rewrite andb_false_r).
  split.
  - apply checks_stop; [exact Hc|].
    unfold encodable. now rewrite Henc.
  - apply refused_transmits_nothing.
    now apply checks_failed_gate.
Qed.

(** C4, as amended.  As long as [increment_post_count] meets no database
    error and the count stays an INTEGER of SQLite, the counter of a
    month is the tally of the posts of that month: over any sequence of
    [post_tweet] calls it grows by exactly the number of calls that
    announced their tweet (the platform accepted it and its link was
    printed) while that month was current; and every successful call
    adds exactly one to the current month, as a new row with count 1
    when the month had none, and leaves every other month's row as it
    was.  When [increment_post_count] meets a database error, the error
    is logged, no count changes and [post_tweet] still returns the
    platform's response. *)
Theorem counter_tallies_posts str_lower cfg :
  (forall calls d month,
     (forall c, In c calls -> db_at_increment (call_env c) = Healthy) ->
     (0 <= count_of month d)%Z ->
     (count_of month d + Z.of_nat (List.length calls) <= INTEGER_MAX + 1)%Z ->
     count_of month (run str_lower cfg calls d)
     = (count_of month d + acknowledged_in str_lower cfg month calls d)%Z)
  /\ (forall env message approval d resp,
        db_at_increment env = Healthy ->
        countable (count_of (clock_at_increment env) d) ->
        outcome (post_tweet str_lower cfg env message approval d)
        = Ret (Some resp) ->
        count_of (clock_at_increment env)
                 (db_after (post_tweet str_lower cfg env message approval d))
        = (count_of (clock_at_increment env) d + 1)%Z
        /\ (select_count (clock_at_increment env) d = None ->
            select_count (clock_at_increment env)
              (db_after (post_tweet str_lower cfg env message approval d))
            = Some {| row_month := clock_at_increment env;
                      row_count := 1 |})
        /\ (forall month, month <> clock_at_increment env ->
            select_count month
              (db_after (post_tweet str_lower cfg env message approval d))
            = select_count month d))
  /\ (forall env message approval d msg,
        fault_message (db_at_increment env) = Some msg ->
        acknowledged (post_tweet str_lower cfg env message approval d)
        = true ->
        (exists resp,
           platform_reply env = Ret resp
           /\ outcome (post_tweet str_lower cfg env message approval d)
              = Ret (Some resp))
        /\ post_counts
             (db_after (post_tweet str_lower cfg env message approval d))
           = post_counts d
        /\ In (LogError (lit "Failed to increment post count: " ++ msg))
              (events (post_tweet str_lower cfg env message approval d))).
Proof.
  split; [|split].
  - intros calls. induction calls as [|c calls IH];
      intros d month Hhealthy Hlow Hhigh.
    + cbn. lia.
    + cbn [run acknowledged_in List.length] in *.
      unfold call_result in *.
      pose proof (post_tweet_count str_lower cfg (call_env c)
                    (call_message c) (call_approval c) d month
                    (Hhealthy c (or_introl eq_refl))) as Hstep.
      assert (Hinc : incremented month d = (count_of month d + 1)%Z)
        by (apply incremented_countable; unfold countable; lia).
      rewrite Hinc in Hstep.
      rewrite IH; [|intros c' Hc'; apply Hhealthy; now right| |];
        rewrite Hstep;
        destruct (acknowledged _ && _); lia.
  - intros env message approval d resp Hf Hcount Ho.
    destruct (post_tweet_paths str_lower cfg env message approval d)
      as [Hg Ho' _ _ | pre post Hg _ _ _ _ _ Ho' _
          | pre resp' tid Hg _ _ _ _ Hd _];
      try (exfalso; now apply (Ho' resp)).
    assert (Hcounts :
      post_counts (db_after (post_tweet str_lower cfg env message approval d))
      = upsert_count (clock_at_increment env) (post_counts d))
      by (rewrite Hd, tracking_counts, Hf; reflexivity).
    split; [|split].
    + rewrite (count_of_counts _
                 {| post_counts := upsert_count (clock_at_increment env)
                                                (post_counts d);
                    posted_tweets := [] |} _ Hcounts).
      rewrite count_of_upsert, str_eqb_refl.
      now apply incremented_countable.
    + unfold select_count. rewrite Hcounts.
      intros Hnone. rewrite (find_upsert_fresh _ _ Hnone).
      now apply find_fresh_row.
    + unfold select_count. rewrite Hcounts.
      intros month Hne. now apply find_upsert_other.
  - intros env message approval d msg Hf Hack.
    rewrite acknowledged_iff in Hack.
    destruct (post_tweet_paths str_lower cfg env message approval d)
      as [Hg _ _ _ | pre post Hg Hid _ _ _ _ _ _
          | pre resp tid Hg Hid _ Hev _ Hd Ho];
      try (rewrite Hg in Hack; discriminate Hack);
      try (rewrite Hid, andb_false_r in Hack; discriminate Hack).
    split; [|split].
    + exists resp. split; [|exact Ho].
      unfold platform_id in Hid.
      destruct (platform_reply env) as [resp'|]; [|discriminate].
      destruct (dict_get (lit "id") (data resp')) as [tid'|];
        [|discriminate].
      destruct (encodable tid'); [|discriminate].
      now injection Hid as -> _.
    + rewrite Hd, tracking_counts, Hf. reflexivity.
    + rewrite Hev. apply in_or_app. right. do 3 right.
      unfold tracking. cbn [events]. apply in_or_app. left.
      rewrite increment_post_count_eq, Hf. cbn. tauto.
Qed.

(** C5.  After [record_posted_tweet(content, tweet_id)] has returned
    [True], [has_posted_before(content)] returns [True]; it never returns
    [False], and only a failing database can keep it from returning. *)
Theorem recorded_content_is_found content tweet_id f d :
  outcome (record_posted_tweet content tweet_id f d) = Ret true ->
  outcome (has_posted_before content Healthy
             (db_after (record_posted_tweet content tweet_id f d)))
  = Ret true
  /\ (forall f',
        outcome (has_posted_before content f'
                   (db_after (record_posted_tweet content tweet_id f d)))
        = match fault_message f' with
          | None => Ret true
          | Some msg => Raise (SqliteError msg)
          end).
Proof.
  intros Hrec.
  assert (Hall : forall f',
    outcome (has_posted_before content f'
               (db_after (record_posted_tweet content tweet_id f d)))
    = match fault_message f' with
      | None => Ret true
      | Some msg => Raise (SqliteError msg)
      end).
  { intros f'. rewrite has_posted_before_eq.
    rewrite record_posted_tweet_eq in Hrec |- *.
    destruct (encode content) as [bytes|]; [|discriminate].
    destruct (fault_message f'); [reflexivity|].
    destruct f; destruct (encode tweet_id); try discriminate.
    cbn. f_equal. apply existsb_hash_In. apply insert_or_ignore_In. }
  split; [apply (Hall Healthy)|exact Hall].
Qed.

(** C6, as amended.  The two bookkeeping writes never let a database
    error reach the caller.  [increment_post_count] logs a database error
    and returns [False], and returns [True] otherwise.  So does
    [record_posted_tweet] for content and a tweet id that encode as
    UTF-8; for content with a lone surrogate it raises the codec's
    [UnicodeEncodeError], which is no database error. *)
Theorem writes_absorb_database_errors now content tweet_id f d :
  (forall msg, outcome (increment_post_count now f d)
               <> Raise (SqliteError msg))
  /\ (forall msg, outcome (record_posted_tweet content tweet_id f d)
                  <> Raise (SqliteError msg))
  /\ outcome (increment_post_count now f d) = Ret (negb (faulty f))
  /\ (forall msg,
        fault_message f = Some msg ->
        In (LogError (lit "Failed to increment post count: " ++ msg))
           (events (increment_post_count now f d))
        /\ db_after (increment_post_count now f d) = d)
  /\ (encodable content = true -> encodable tweet_id = true ->
      outcome (record_posted_tweet content tweet_id f d)
      = Ret (negb (faulty f))
      /\ (forall msg,
            fault_message f = Some msg ->
            In (LogError (lit "Failed to record posted tweet: " ++ msg))
               (events (record_posted_tweet content tweet_id f d))
            /\ db_after (record_posted_tweet content tweet_id f d) = d))
  /\ (encodable content = false ->
      outcome (record_posted_tweet content tweet_id f d)
      = Raise (UnicodeEncodeError (surrogate_message content))).
Proof.
  unfold encodable.
  rewrite record_posted_tweet_eq, increment_post_count_eq.
  split; [intros msg; destruct (fault_message f); discriminate|].
  split.
  { intros msg. destruct (encode content); [|discriminate].
    destruct f; destruct (encode tweet_id); discriminate. }
  split; [now destruct f|].
  split; [intros msg ->; cbn; tauto|].
  split.
  - intros Hcontent Hid.
    destruct (encode content); [|discriminate].
    destruct (encode tweet_id); [|discriminate].
    split; [now destruct f|].
    intros msg Hmsg.
    destruct f; cbn in *; try discriminate;
      injection Hmsg as <-; cbn; tauto.
  - intros Hcontent. destruct (encode content); [discriminate|reflexivity].
Qed.

(** C7.  A month without a row in [post_counts] counts as zero:
    [get_post_count] returns 0 there, which a positive [RATE_LIMIT_MAX]
    exceeds, so the quota lets the call through: a valid message that was
    not posted before and that the user approves (or that needs no
    approval) is handed to the platform, and the platform's response is
    returned. *)
Theorem fresh_month_counts_zero str_lower cfg env message approval d :
  select_count (clock_at_check env) d = None ->
  db_at_check env = Healthy ->
  (0 < RATE_LIMIT_MAX cfg)%Z ->
  outcome (get_post_count (clock_at_check env) (db_at_check env) d) = Ret 0%Z
  /\ (RATE_LIMIT_MAX cfg <=? 0)%Z = false
  /\ (forall bytes resp tid,
        valid_message message = true ->
        encode message = Some bytes ->
        select_posted (Hashlib.md5_hexdigest bytes) d = false ->
        db_at_lookup env = Healthy ->
        (approval = true ->
         exists reply, user_reply env = Ret reply
                       /\ approves str_lower reply = true) ->
        validate_x_credentials cfg = Ret true ->
        platform_reply env = Ret resp ->
        dict_get (lit "id") (data resp) = Ret tid ->
        encodable tid = true ->
        transmitted (events (post_tweet str_lower cfg env message approval d))
        = [message]
        /\ outcome (post_tweet str_lower cfg env message approval d)
           = Ret (Some resp)).
Proof.
  intros Hrow Hf Hmax.
  assert (Hcount : count_of (clock_at_check env) d = 0%Z)
    by (unfold count_of; now rewrite Hrow).
  split; [|split].
  - rewrite get_post_count_eq, Hf. cbn. now rewrite Hcount.
  - apply Z.leb_gt. exact Hmax.
  - intros bytes resp tid Hvalid Henc Hnew Hf2 Happ Hcreds Hplat Hid Htid.
    assert (Hg : gate_open str_lower cfg env message approval d = true).
    { apply gate_open_iff. repeat split; trivial; try lia.
      - exists bytes. now split.
      - now exists true. }
    assert (Hpid : platform_id env = Some (resp, tid))
      by (unfold platform_id; now rewrite Hplat, Hid, Htid).
    split; [now rewrite transmitted_once, Hg|].
    destruct (post_tweet_paths str_lower cfg env message approval d)
      as [Hg' _ _ _ | pre post _ Hpid' _ _ _ _ _ _
          | pre resp' tid' _ Hpid' _ _ _ _ Ho];
      try congruence.
Qed.

(** C8.  An empty or blank message, and a message of more than 280
    characters, is turned down at once: [post_tweet] prints the reason,
    returns [None], contacts neither the platform nor the database and
    leaves both tables as they were. *)
Theorem invalid_message_rejected str_lower cfg env message approval d :
  blank message = true \/ (280 < len message)%Z ->
  outcome (post_tweet str_lower cfg env message approval d) = Ret None
  /\ transmitted (events (post_tweet str_lower cfg env message approval d))
     = []
  /\ db_after (post_tweet str_lower cfg env message approval d) = d
  /\ (events (post_tweet str_lower cfg env message approval d)
      = [Printed EmptyMessage]
      \/ events (post_tweet str_lower cfg env message approval d)
         = [Printed (TooLong (len message))]).
Proof.
  intros Hbad. rewrite post_tweet_eq. cbv zeta.
  destruct (negb (truthy message) || (len (strip message) =? 0)%Z) eqn:Hv1;
    [cbn; auto|].
  destruct (280 <? len message)%Z eqn:Hv2; [cbn; auto|].
  exfalso. apply orb_false_iff in Hv1 as [_ Hv1].
  destruct Hbad as [Hblank|Hlong].
  - apply strip_blank in Hblank. rewrite Hblank in Hv1. discriminate.
  - apply Z.ltb_ge in Hv2. lia.
Qed.
(** The [except Exception] clause of [generate_tweet]. *)
Lemma generation_handler_eq e d :
  (logging_error (generation_line e) ;;
   print (Line (generation_line e)) ;;
   ret (@None str)) d
  = {| outcome :=
         if encodable (generation_line e) then Ret None
         else Raise (UnicodeEncodeError
                       (surrogate_message (generation_line e)));
       db_after := d;
       events := LogError (generation_line e)
                 :: (if encodable (generation_line e)
                     then [Printed (Line (generation_line e))]
                     else []) |}.
Proof.
  rewrite bind_step with (a := tt) (d' := d)
                         (evs := [LogError (generation_line e)])
    by reflexivity.
  cbv beta. unfold prepend. rewrite bind_last, print_eq.
  change (first_text (Line (generation_line e))) with (generation_line e).
  destruct (encodable (generation_line e)); reflexivity.
Qed.

Lemma encodable_generation_line e :
  encodable (generation_line e) = encodable (exn_str e).
Proof.
  unfold generation_line. now rewrite encodable_app, encodable_lit.
Qed.

Lemma generation_returns e :
  printable e = true -> generation_outcome e = Ret None.
Proof.
  unfold printable, generation_outcome. intros H.
  apply andb_true_iff in H as [-> H]. cbn [negb].
  now rewrite encodable_generation_line, H.
Qed.

(** The [except] clause of [generate_tweet] returns no text. *)
Lemma generation_no_text e s : generation_outcome e <> Ret (Some s).
Proof.
  unfold generation_outcome.
  destruct (is_exception e); cbn [negb]; [|discriminate].
  destruct (encodable _); discriminate.
Qed.

(** What [generate_tweet] makes of the text of the AI response:
    whitespace and wrapping quotes off, then cut to 280 characters. *)
Lemma generate_tweet_eq cfg env topic d :
  let prompt := PROMPTS_generate_tweet cfg ++ lit " " ++ topic in
  let failed evs e :=
    {| outcome := generation_outcome e; db_after := d;
       events := evs ++ generation_events e |} in
  generate_tweet cfg env topic d =
  match validate_gemini_credentials cfg with
  | Raise e => failed [] e
  | Ret _ =>
    match ai_reply env with
    | Raise e => failed [GenerateContent prompt] e
    | Ret None =>
        {| outcome := Ret None; db_after := d;
           events := [GenerateContent prompt; Printed AIEmpty] |}
    | Ret (Some response) =>
      match text response with
      | Raise e => failed [GenerateContent prompt] e
      | Ret [] =>
          {| outcome := Ret None; db_after := d;
             events := [GenerateContent prompt; Printed AIEmpty] |}
      | Ret t =>
          {| outcome :=
               Ret (Some (let stripped := strip_chars quotes (strip t) in
                          if (280 <? len stripped)%Z
                          then slice_to 277 stripped ++ lit "..."
                          else stripped));
             db_after := d;
             events := [GenerateContent prompt] |}
      end
    end
  end.
Proof.
  unfold generate_tweet. cbv zeta.
  set (prompt := PROMPTS_generate_tweet cfg ++ lit " " ++ topic).
  set (dots := lit "...").
  clearbody prompt dots.
  match goal with
  | |- try_except ?b _ _ _ = _ =>
      assert (Hbody : b d =
        match validate_gemini_credentials cfg with
        | Raise e => {| outcome := Raise e; db_after := d; events := [] |}
        | Ret _ =>
          match ai_reply env with
          | Raise e => {| outcome := Raise e; db_after := d;
                          events := [GenerateContent prompt] |}
          | Ret None =>
              {| outcome := Ret None; db_after := d;
                 events := [GenerateContent prompt; Printed AIEmpty] |}
          | Ret (Some response) =>
            match text response with
            | Raise e => {| outcome := Raise e; db_after := d;
                            events := [GenerateContent prompt] |}
            | Ret [] =>
                {| outcome := Ret None; db_after := d;
                   events := [GenerateContent prompt; Printed AIEmpty] |}
            | Ret t =>
                {| outcome :=
                     Ret (Some (if (280 <? len (strip_chars quotes (strip t)))%Z
                                then slice_to 277 (strip_chars quotes (strip t))
                                     ++ dots
                                else strip_chars quotes (strip t)));
                   db_after := d;
                   events := [GenerateContent prompt] |}
            end
          end
        end)
  end.
  { unfold get_gemini_model, generate_content.
    destruct (validate_gemini_credentials cfg) as [ok|e]; [|reflexivity].
    rewrite bind_step with (a := tt) (evs := []) (d' := d) by reflexivity.
    cbv beta.
    destruct (ai_reply env) as [[response|]|]; try reflexivity.
    rewrite bind_step
      with (a := Some response) (evs := [GenerateContent prompt]) (d' := d)
      by reflexivity.
    cbv beta iota.
    destruct (text response) as [[|c t]|]; reflexivity. }
  assert (Hhandler : forall evs e,
    try_except (fun _ => {| outcome := Raise e; db_after := d;
                            events := evs |}) any_exception
      (fun e =>
         logging_error (lit "Error generating tweet: " ++ exn_str e) ;;
         print (Line (lit "Error generating tweet: " ++ exn_str e)) ;;
         ret None) d
    = {| outcome := generation_outcome e; db_after := d;
         events := evs ++ generation_events e |}).
  { intros evs e. unfold try_except, any_exception,
      generation_outcome, generation_events.
    cbn [outcome db_after events].
    destruct (is_exception e); cbn [negb]; [|now rewrite app_nil_r].
    fold (generation_line e). rewrite generation_handler_eq.
    reflexivity. }
  unfold try_except in *. rewrite Hbody.
  destruct (validate_gemini_credentials cfg) as [ok|e];
    [|apply (Hhandler [] e)].
  destruct (ai_reply env) as [[response|]|e];
    [|reflexivity|apply (Hhandler [GenerateContent prompt] e)].
  destruct (text response) as [[|c t]|e];
    [reflexivity|reflexivity|apply (Hhandler [GenerateContent prompt] e)].
Qed.

Lemma validate_gemini_credentials_printable cfg e :
  validate_gemini_credentials cfg = Raise e -> printable e = true.
Proof.
  unfold validate_gemini_credentials.
  destruct (env_set (GEMINI_API_KEY cfg)); [discriminate|].
  intros H. injection H as <-. apply encodable_lit.
Qed.

(** A text [generate_tweet] returns has at most 280 characters. *)
Lemma cut_fits stripped :
  (len (if (280 <? len stripped)%Z
        then slice_to 277 stripped ++ lit "..."
        else stripped) <= 280)%Z.
Proof.
  destruct (Z.ltb_spec 280 (len stripped)) as [Hlong|Hshort]; [|exact Hshort].
  rewrite len_app, len_slice_to
    by (change (Z.of_nat 277) with 277%Z; lia).
  change (len (lit "...")) with 3%Z.
  change (Z.of_nat 277) with 277%Z. lia.
Qed.

(** [generate_tweet] returns when what the AI client raises, if
    anything, is an exception that can be printed. *)
Lemma generate_tweet_returns cfg env topic d :
  ai_printable env ->
  exists x, outcome (generate_tweet cfg env topic d) = Ret x.
Proof.
  intros Hai.
  pose proof (generate_tweet_eq cfg env topic d) as E. cbv zeta in E.
  rewrite E.
  destruct (validate_gemini_credentials cfg) as [ok|e] eqn:Hc;
    [|exists None; apply generation_returns;
      now apply validate_gemini_credentials_printable with cfg].
  destruct (ai_reply env) as [[response|]|e] eqn:Hr;
    [|now exists None
     |exists None; apply generation_returns; apply Hai; now left].
  destruct (text response) as [[|c t]|e] eqn:Ht;
    [now exists None|eexists; reflexivity|].
  exists None. apply generation_returns. apply Hai. right.
  now exists response.
Qed.


(** C10.  [posted_tweets] holds at most one row per content hash: the
    new table does, every operation keeps it so, and recording content
    whose hash was recorded before leaves the table as it is. *)
Theorem content_hash_stays_unique :
  NoDup (hashes empty_db)
  /\ (forall content tweet_id f d,
        NoDup (hashes d) ->
        NoDup (hashes (db_after (record_posted_tweet content tweet_id f d))))
  /\ (forall now f d,
        posted_tweets (db_after (increment_post_count now f d))
        = posted_tweets d
        /\ db_after (get_post_count now f d) = d)
  /\ (forall content f d,
        db_after (has_posted_before content f d) = d
        /\ db_after (init_db f d) = d)
  /\ (forall str_lower cfg env message approval d,
        NoDup (hashes d) ->
        NoDup (hashes
                 (db_after (post_tweet str_lower cfg env message approval d))))
  /\ (forall content tweet_id f d content' tweet_id' f' bytes bytes',
        outcome (record_posted_tweet content tweet_id f d) = Ret true ->
        encode content = Some bytes ->
        encode content' = Some bytes' ->
        Hashlib.md5_hexdigest bytes' = Hashlib.md5_hexdigest bytes ->
        posted_tweets
          (db_after (record_posted_tweet content' tweet_id' f'
                       (db_after (record_posted_tweet content tweet_id f d))))
        = posted_tweets (db_after (record_posted_tweet content tweet_id f d))).
Proof.
  split; [constructor|].
  split; [intros content tweet_id f d ND; unfold hashes;
          destruct (record_posted_tweet_rows content tweet_id f d)
            as [->|(bytes & _ & ->)];
          [exact ND|now apply insert_or_ignore_NoDup]|].
  split; [intros now f d; split;
          [apply increment_post_count_rows|destruct f; reflexivity]|].
  split; [intros content f d; rewrite has_posted_before_eq;
          destruct (encode content); destruct f; split; reflexivity|].
  split.
  - intros str_lower cfg env message approval d ND.
    destruct (db_after_post_tweet str_lower cfg env message approval d)
      as [->|(resp & tid & _ & _ & ->)]; [exact ND|].
    now apply tracking_hashes_NoDup.
  - intros content tweet_id f d content' tweet_id' f' bytes bytes'
           Hrec Henc Henc' Hsame.
    destruct (record_posted_tweet_rows content' tweet_id' f'
                (db_after (record_posted_tweet content tweet_id f d)))
      as [->|(b & Hb & ->)]; [reflexivity|].
    rewrite Henc' in Hb. injection Hb as <-.
    apply insert_or_ignore_present. rewrite Hsame.
    rewrite record_posted_tweet_eq, Henc in Hrec |- *.
    destruct f; destruct (encode tweet_id); try discriminate.
    cbn. apply insert_or_ignore_In.
Qed.
(** ** Which events [generate_tweet] can emit *)

Lemma generation_events_kind e :
  forallb generate_kind (generation_events e) = true.
Proof.
  unfold generation_events.
  destruct (is_exception e); [|reflexivity].
  destruct (encodable _); reflexivity.
Qed.

Lemma generate_tweet_kind cfg ai topic d :
  forallb generate_kind (events (generate_tweet cfg ai topic d)) = true.
Proof.
  pose proof (generate_tweet_eq cfg ai topic d) as E. cbv zeta in E.
  rewrite E.
  destruct (validate_gemini_credentials cfg);
    [|apply generation_events_kind].
  destruct (ai_reply ai) as [[response|]|]; try reflexivity;
    [|cbn; apply generation_events_kind].
  destruct (text response) as [[|c t]|]; try reflexivity.
  cbn; apply generation_events_kind.
Qed.

(** [generate_tweet] leaves the database alone. *)
Lemma generate_tweet_db cfg ai topic d :
  db_after (generate_tweet cfg ai topic d) = d.
Proof.
  pose proof (generate_tweet_eq cfg ai topic d) as E. cbv zeta in E.
  rewrite E.
  destruct (validate_gemini_credentials cfg); [|reflexivity].
  destruct (ai_reply ai) as [[response|]|]; try reflexivity.
  destruct (text response) as [[|c t]|]; reflexivity.
Qed.


(* ================================================================== *)
(** * Further properties of post_tweet and of the two stores *)
(* ================================================================== *)

Lemma insert_or_ignore_keeps h h' t rows :
  In h (map row_content_hash rows) ->
  In h (map row_content_hash (insert_or_ignore h' t rows)).
Proof.
  intros Hin. rewrite insert_or_ignore_hashes.
  destruct (existsb _ rows); [exact Hin|].
  apply in_or_app. now left.
Qed.

Lemma hashes_grow_tracking env message tid d h :
  In h (hashes d) -> In h (hashes (db_after (tracking env message tid d))).
Proof.
  intros Hin. unfold tracking, hashes; cbn.
  destruct (record_posted_tweet_rows message tid (db_at_record env)
              (db_after (increment_post_count (clock_at_increment env)
                           (db_at_increment env) d)))
    as [->|(bytes & _ & ->)];
    rewrite increment_post_count_rows; [exact Hin|].
  now apply insert_or_ignore_keeps.
Qed.

Lemma hashes_grow_post_tweet str_lower cfg env message approval d h :
  In h (hashes d) ->
  In h (hashes (db_after (post_tweet str_lower cfg env message approval d))).
Proof.
  intros Hin.
  destruct (db_after_post_tweet str_lower cfg env message approval d)
    as [->|(resp & tid & _ & _ & ->)]; [exact Hin|].
  now apply hashes_grow_tracking.
Qed.

Lemma hashes_grow_run str_lower cfg calls d h :
  In h (hashes d) -> In h (hashes (run str_lower cfg calls d)).
Proof.
  revert d. induction calls as [|c calls IH]; intros d Hin; [exact Hin|].
  cbn. apply IH. now apply hashes_grow_post_tweet.
Qed.

Lemma unique_keys_tracking env message tid d :
  unique_keys d -> unique_keys (db_after (tracking env message tid d)).
Proof.
  intros H. unfold tracking; cbn.
  now apply unique_keys_record, unique_keys_increment.
Qed.

Lemma count_of_tracking env message tid d month :
  count_of month (db_after (tracking env message tid d))
  = if negb (faulty (db_at_increment env))
       && eqb (clock_at_increment env) month
    then incremented month d
    else count_of month d.
Proof.
  destruct (db_at_increment env) eqn:Hf; cbn.
  - rewrite (count_of_counts month
               {| post_counts := upsert_count (clock_at_increment env)
                                              (post_counts d);
                  posted_tweets := [] |})
      by (rewrite tracking_counts, Hf; reflexivity).
    apply count_of_upsert.
  - now rewrite (count_of_counts month d)
      by (rewrite tracking_counts, Hf; reflexivity).
  - now rewrite (count_of_counts month d)
      by (rewrite tracking_counts, Hf; reflexivity).
Qed.

Lemma acknowledged_transmits str_lower cfg env message approval d resp :
  outcome (post_tweet str_lower cfg env message approval d)
  = Ret (Some resp) ->
  transmitted (events (post_tweet str_lower cfg env message approval d))
  = [message].
Proof.
  intros Ho. rewrite transmitted_once.
  destruct (gate_open str_lower cfg env message approval d) eqn:Hg;
    [reflexivity|].
  destruct (refused_transmits_nothing str_lower cfg env message approval d
              Hg) as (Hno & _).
  now destruct (Hno resp).
Qed.

(** X1.  [post_tweet] ends in one of four ways: it returns [None]; it
    returns the very response the platform gave to the one request it
    sent; it lets the [KeyboardInterrupt] of the user or of the platform
    pass; or a [print] of its [except] clause raises
    [UnicodeEncodeError] on a text with a lone surrogate.  It returns
    whenever the message encodes as UTF-8 and what the user's [input]
    or the platform raise, if anything, are exceptions with a text that
    can be printed. *)
Theorem post_tweet_returns_none_or_response
    str_lower cfg env message approval d :
  (outcome (post_tweet str_lower cfg env message approval d) = Ret None
   \/ (exists resp,
         outcome (post_tweet str_lower cfg env message approval d)
         = Ret (Some resp)
         /\ platform_reply env = Ret resp
         /\ transmitted
              (events (post_tweet str_lower cfg env message approval d))
            = [message])
   \/ (outcome (post_tweet str_lower cfg env message approval d)
       = Raise KeyboardInterrupt
       /\ (user_reply env = Raise KeyboardInterrupt
           \/ platform_reply env = Raise KeyboardInterrupt))
   \/ (exists text,
         encodable text = false
         /\ outcome (post_tweet str_lower cfg env message approval d)
            = Raise (UnicodeEncodeError (surrogate_message text))))
  /\ (encodable message = true ->
      (forall e, user_reply env = Raise e -> printable e = true) ->
      (forall e, platform_reply env = Raise e -> printable e = true) ->
      outcome (post_tweet str_lower cfg env message approval d) = Ret None
      \/ exists resp,
           outcome (post_tweet str_lower cfg env message approval d)
           = Ret (Some resp)
           /\ platform_reply env = Ret resp).
Proof.
  destruct (post_tweet_ends str_lower cfg env message approval d)
    as [Ho|[(resp & Hp & Ho)|(e & He & Ho)]].
  - split; [now left|]. intros _ _ _. now left.
  - split; [right; left|intros _ _ _; right]; exists resp;
      repeat split; trivial.
    now apply acknowledged_transmits with resp.
  - split.
    + rewrite Ho.
      destruct (handler_outcome_cases str_lower message e)
        as [H|[[-> H]|[Htext H]]]; rewrite H.
      * now left.
      * right; right; left. split; [reflexivity|].
        destruct He as [He|[[_ He]|He]]; [discriminate He|now left|now right].
      * right; right; right.
        now exists (handler_text str_lower message e).
    + intros Hm Huser Hplat. left. rewrite Ho.
      apply handler_returns; [exact Hm|].
      destruct He as [He|[[_ He]|He]]; auto.
Qed.

(** X2.  A call sends at most one request to the platform, with exactly
    the message it was given, and it does so exactly when the message is
    valid, under quota, new and approved and the credentials are set. *)
Theorem at_most_one_request str_lower cfg env message approval d :
  transmitted (events (post_tweet str_lower cfg env message approval d))
  = if gate_open str_lower cfg env message approval d
    then [message] else [].
Proof. apply transmitted_once. Qed.

(** X3.  The tables change only after the platform accepted the tweet
    and returned its id: a call that was not acknowledged leaves the
    database as it was, and an acknowledged call has sent its message. *)
Theorem tables_change_only_after_acknowledgement
    str_lower cfg env message approval d :
  (acknowledged (post_tweet str_lower cfg env message approval d) = false ->
   db_after (post_tweet str_lower cfg env message approval d) = d)
  /\ (acknowledged (post_tweet str_lower cfg env message approval d) = true ->
      transmitted (events (post_tweet str_lower cfg env message approval d))
      = [message]
      /\ exists resp tid,
           platform_reply env = Ret resp
           /\ dict_get (lit "id") (data resp) = Ret tid).
Proof.
  rewrite acknowledged_iff.
  destruct (post_tweet_paths str_lower cfg env message approval d)
    as [Hg _ Hd _ | pre post Hg Hid _ _ _ _ _ Hd
        | pre resp tid Hg Hid _ Hev Hpre _ Ho].
  - rewrite Hg. cbn. split; [auto|discriminate].
  - rewrite Hg, Hid. cbn. split; [auto|discriminate].
  - rewrite Hg, Hid. cbn. split; [discriminate|].
    intros _. split.
    + now apply acknowledged_transmits with resp.
    + exists resp, tid. unfold platform_id in Hid.
      destruct (platform_reply env) as [resp'|]; [|discriminate].
      destruct (dict_get (lit "id") (data resp')) as [tid'|] eqn:E;
        [|discriminate].
      destruct (encodable tid'); [|discriminate].
      injection Hid as -> ->. auto.
Qed.

Lemma validate_x_credentials_eq cfg :
  validate_x_credentials cfg
  = match unset_credentials cfg with
    | [] => Ret true
    | missing =>
        Raise (ValueError (lit "Missing X API credentials: "
                           ++ join (lit ", ") missing))
    end.
Proof.
  unfold validate_x_credentials, unset_credentials. cbn.
  destruct (env_set (X_API_KEY cfg));
    destruct (env_set (X_API_SECRET_KEY cfg));
    destruct (env_set (X_ACCESS_TOKEN cfg));
    destruct (env_set (X_ACCESS_TOKEN_SECRET cfg)); reflexivity.
Qed.

(** X4.  [validate_x_credentials] succeeds exactly when all four
    credentials are set and non-empty; otherwise its [ValueError] lists
    the names of exactly those that are not, in a fixed order. *)
Theorem missing_credentials_are_named cfg :
  validate_x_credentials cfg
  = match unset_credentials cfg with
    | [] => Ret true
    | missing =>
        Raise (ValueError (lit "Missing X API credentials: "
                           ++ join (lit ", ") missing))
    end.
Proof. apply validate_x_credentials_eq. Qed.

(** X5.  Without complete credentials nothing is posted: [post_tweet]
    returns no response, sends no request and leaves the tables alone,
    even when the user approved.  It returns [None] when the message
    encodes as UTF-8 and what the user's [input] raises, if anything, is
    an exception with a text that can be printed. *)
Theorem no_posting_without_credentials
    str_lower cfg env message approval d :
  unset_credentials cfg <> [] ->
  (forall resp,
     outcome (post_tweet str_lower cfg env message approval d)
     <> Ret (Some resp))
  /\ transmitted (events (post_tweet str_lower cfg env message approval d))
     = []
  /\ db_after (post_tweet str_lower cfg env message approval d) = d
  /\ (encodable message = true ->
      (forall e, approval = true -> user_reply env = Raise e ->
                 printable e = true) ->
      outcome (post_tweet str_lower cfg env message approval d) = Ret None).
Proof.
  intros Hmissing.
  assert (Hg : gate_open str_lower cfg env message approval d = false).
  { unfold gate_open. rewrite validate_x_credentials_eq.
    destruct (unset_credentials cfg); [contradiction|].
    apply andb_false_r. }
  destruct (refused_transmits_nothing str_lower cfg env message approval d
              Hg) as (Hno & Ht & Hd).
  repeat split; trivial.
  intros Hm Huser. now apply refused_returns.
Qed.

Lemma prompts_post_tweet str_lower cfg env message approval d :
  prompts (events (post_tweet str_lower cfg env message approval d))
  = approval && checks_passed cfg env message d.
Proof.
  unfold prompts.
  rewrite existsb_post_tweet
    by (intros [[]| | | | |]; cbn; congruence).
  unfold checks_passed, valid_message.
  destruct (negb (truthy message) || (len (strip message) =? 0)%Z);
    [now rewrite andb_false_r|].
  destruct (280 <? len message)%Z; [now rewrite andb_false_r|].
  destruct (db_at_check env); cbn; try now rewrite andb_false_r.
  destruct (RATE_LIMIT_MAX cfg <=? count_of (clock_at_check env) d)%Z;
    cbn; [now rewrite andb_false_r|].
  assert (Hw : existsb
                 (fun ev => match ev with Prompt => true | _ => false end)
                 (warning cfg (count_of (clock_at_check env) d)) = false)
    by (unfold warning; destruct (RATE_LIMIT_THRESHOLD cfg <=? _)%Z;
        reflexivity).
  rewrite Hw. cbn.
  destruct (encode message); [|now rewrite andb_false_r].
  destruct (db_at_lookup env); cbn; try now rewrite !andb_false_r.
  destruct (select_posted _ d); cbn; [now rewrite andb_false_r|].
  now destruct approval.
Qed.

(** X6.  The user is shown the prompt exactly when approval is required
    and every earlier check has passed: the message is valid, the quota
    is not used up, the content is new and the database answered.  In
    particular a call with [require_approval = False] never prompts. *)
Theorem prompt_only_after_checks str_lower cfg env message approval d :
  prompts (events (post_tweet str_lower cfg env message approval d))
  = approval && checks_passed cfg env message d.
Proof. apply prompts_post_tweet. Qed.

(** X7.  The console tells the truth about the quota.  The refusal for
    the quota is printed exactly when the message is valid and the count
    read from a working database has reached [RATE_LIMIT_MAX]; the
    warning exactly when that count has reached [RATE_LIMIT_THRESHOLD]
    but not [RATE_LIMIT_MAX]. *)
Theorem quota_lines_are_accurate str_lower cfg env message approval d :
  quota_refusal (events (post_tweet str_lower cfg env message approval d))
  = valid_message message
    && negb (faulty (db_at_check env))
    && (RATE_LIMIT_MAX cfg <=? count_of (clock_at_check env) d)%Z
  /\ quota_warning
       (events (post_tweet str_lower cfg env message approval d))
     = valid_message message
       && negb (faulty (db_at_check env))
       && negb (RATE_LIMIT_MAX cfg <=? count_of (clock_at_check env) d)%Z
       && (RATE_LIMIT_THRESHOLD cfg <=? count_of (clock_at_check env) d)%Z.
Proof.
  unfold quota_refusal, quota_warning.
  rewrite !existsb_post_tweet
    by (intros [[]| | | | |]; cbn; congruence).
  unfold valid_message, warning.
  destruct (negb (truthy message) || (len (strip message) =? 0)%Z);
    [now split|].
  destruct (280 <? len message)%Z; [now split|].
  destruct (db_at_check env); cbn; try now split.
  destruct (RATE_LIMIT_MAX cfg <=? count_of (clock_at_check env) d)%Z;
    cbn; [now split|].
  destruct (RATE_LIMIT_THRESHOLD cfg <=? count_of (clock_at_check env) d)%Z;
    cbn.
  - split; [|reflexivity].
    destruct (encode message); [|reflexivity].
    destruct (db_at_lookup env); cbn; try reflexivity.
    destruct (select_posted _ d); [reflexivity|].
    destruct approval; [|reflexivity].
    cbn. destruct (user_reply env); [|reflexivity].
    cbn. now rewrite andb_false_r.
  - assert (forall b, b = false -> b = false /\ b = false) as Hsame
      by (intros b ->; now split).
    apply Hsame.
    destruct (encode message); [|reflexivity].
    destruct (db_at_lookup env); cbn; try reflexivity.
    destruct (select_posted _ d); [reflexivity|].
    destruct approval; [|reflexivity].
    cbn. destruct (user_reply env); [|reflexivity].
    cbn. now rewrite andb_false_r.
Qed.

(** X8.  What was posted is never posted again.  Once a call has
    returned the platform's response and its record was written, every
    later call with the same message, after any calls in between and
    whatever the world answers, returns [None], sends nothing and writes
    nothing. *)
Theorem posted_message_is_not_posted_again
    str_lower cfg env message approval d resp calls env' approval' :
  outcome (post_tweet str_lower cfg env message approval d)
  = Ret (Some resp) ->
  db_at_record env = Healthy ->
  let later :=
    run str_lower cfg calls
        (db_after (post_tweet str_lower cfg env message approval d)) in
  outcome (post_tweet str_lower cfg env' message approval' later) = Ret None
  /\ transmitted
       (events (post_tweet str_lower cfg env' message approval' later))
     = []
  /\ db_after (post_tweet str_lower cfg env' message approval' later)
     = later.
Proof.
  intros Ho Hrec later.
  assert (Hin : exists bytes,
            encode message = Some bytes
            /\ In (Hashlib.md5_hexdigest bytes)
                  (hashes (db_after (post_tweet str_lower cfg env message
                                       approval d)))).
  { destruct (post_tweet_paths str_lower cfg env message approval d)
      as [_ Ho' _ _ | pre post _ _ _ _ _ _ Ho' _
          | pre resp' tid Hg Hid _ _ _ Hd Ho'];
      try (exfalso; now apply (Ho' resp)).
    apply gate_open_iff in Hg as (_ & _ & _ & (bytes & Henc & _) & _).
    apply platform_id_some in Hid as (_ & _ & Htid).
    exists bytes. split; [exact Henc|].
    rewrite Hd.
    unfold tracking, hashes; cbn.
    rewrite record_posted_tweet_eq, Henc, Hrec.
    unfold encodable in Htid.
    destruct (encode tid); [|discriminate]. cbn.
    apply insert_or_ignore_In. }
  destruct Hin as (bytes & Henc & Hin).
  apply (hashes_grow_run str_lower cfg calls) in Hin.
  apply select_posted_In in Hin. fold later in Hin.
  assert (Hc : checks_passed cfg env' message later = false)
    by (unfold checks_passed; rewrite Henc, Hin; cbn;
        now rewrite andb_false_r).
  split.
  - apply checks_stop; [exact Hc|].
    unfold encodable. now rewrite Henc.
  - apply refused_transmits_nothing.
    now apply checks_failed_gate.
Qed.

(** X9.  The quota holds over time.  If no month's count is above
    [RATE_LIMIT_MAX], it stays so over any sequence of [post_tweet]
    calls, as long as the month does not change between the quota check
    and the count's update within a call. *)
Theorem quota_is_never_exceeded str_lower cfg calls d :
  (forall c, In c calls ->
             clock_at_increment (call_env c) = clock_at_check (call_env c)) ->
  within_quota cfg d ->
  within_quota cfg (run str_lower cfg calls d).
Proof.
  revert d. induction calls as [|c calls IH]; intros d Hclock Hd;
    [exact Hd|].
  cbn. apply IH; [intros c' Hc'; apply Hclock; now right|].
  unfold call_result. intros month.
  destruct (post_tweet_paths str_lower cfg (call_env c) (call_message c)
              (call_approval c) d)
    as [_ _ -> _ | pre post _ _ _ _ _ _ _ ->
        | pre resp tid Hg _ _ _ _ -> _];
    try apply Hd.
  rewrite count_of_tracking.
  apply gate_open_iff in Hg as (_ & _ & Hlt & _).
  rewrite (Hclock c (or_introl eq_refl)).
  destruct (negb (faulty (db_at_increment (call_env c)))); cbn;
    [|apply Hd].
  destruct (eqb (clock_at_check (call_env c)) month) eqn:E;
    [|apply Hd].
  apply str_eqb_eq in E. subst month.
  pose proof (incremented_bounds (clock_at_check (call_env c)) d). lia.
Qed.

(** X10.  Both tables keep their UNIQUE column unique: at most one row
    per month in [post_counts] and one per content hash in
    [posted_tweets], in the new database and after any sequence of
    [post_tweet] calls, whatever fails on the way. *)
Theorem tables_keep_unique_keys str_lower cfg calls d :
  unique_keys empty_db
  /\ (unique_keys d -> unique_keys (run str_lower cfg calls d)).
Proof.
  split; [split; constructor|].
  revert d. induction calls as [|c calls IH]; intros d Hd; [exact Hd|].
  cbn. apply IH. unfold call_result.
  destruct (db_after_post_tweet str_lower cfg (call_env c) (call_message c)
              (call_approval c) d)
    as [->|(resp & tid & _ & _ & ->)]; [exact Hd|].
  now apply unique_keys_tracking.
Qed.

(** X11.  The counter reads back what was written, as long as it is
    an INTEGER: after [increment_post_count] returned [True] on a count
    from 0 to [INTEGER_MAX], [get_post_count] for the same month returns
    one more than before and for any other month the same as before;
    after it returned [False] every month reads as before.  A count
    above [INTEGER_MAX], which SQLite holds as a REAL, is left as it is:
    from there on the posts are no longer counted. *)
Theorem count_reads_back_incremented now f d month :
  (countable (count_of now d) ->
   outcome (get_post_count month Healthy
              (db_after (increment_post_count now f d)))
   = Ret (count_of month d
          + if negb (faulty f) && eqb now month then 1 else 0)%Z)
  /\ outcome (increment_post_count now f d) = Ret (negb (faulty f))
  /\ outcome (get_post_count month Healthy d) = Ret (count_of month d)
  /\ ((INTEGER_MAX < count_of now d)%Z ->
      outcome (get_post_count month Healthy
                 (db_after (increment_post_count now f d)))
      = Ret (count_of month d)).
Proof.
  rewrite !get_post_count_eq, increment_post_count_eq. cbn.
  split; [|split; [now destruct f|split; [reflexivity|]]].
  - intros Hc. destruct f; cbn; try (f_equal; lia).
    rewrite count_of_upsert.
    destruct (eqb now month) eqn:E; [|f_equal; lia].
    apply str_eqb_eq in E. subst month.
    now rewrite incremented_countable.
  - intros Hreal. destruct f; cbn; try reflexivity.
    rewrite count_of_upsert.
    destruct (eqb now month) eqn:E; [|reflexivity].
    apply str_eqb_eq in E. subst month. f_equal.
    unfold incremented, count_of in *.
    destruct (select_count now d) as [r|];
      [|unfold INTEGER_MAX in Hreal; lia].
    unfold count_plus_1.
    destruct (Z.leb_spec (row_count r) INTEGER_MAX) as [H|H];
      [lia|now rewrite andb_false_r].
Qed.

(** X12.  A bookkeeping write that does not return [True] has written
    nothing: whether [record_posted_tweet] and [increment_post_count]
    return [False] or raise, the database is as before; and each of them
    leaves the other one's table alone in any case. *)
Theorem failed_writes_change_nothing now content tweet_id f d :
  (outcome (record_posted_tweet content tweet_id f d) <> Ret true ->
   db_after (record_posted_tweet content tweet_id f d) = d)
  /\ (outcome (increment_post_count now f d) <> Ret true ->
      db_after (increment_post_count now f d) = d)
  /\ post_counts (db_after (record_posted_tweet content tweet_id f d))
     = post_counts d
  /\ posted_tweets (db_after (increment_post_count now f d))
     = posted_tweets d.
Proof.
  split; [|split; [|split]].
  - rewrite record_posted_tweet_eq.
    destruct (encode content); [|reflexivity].
    destruct f; destruct (encode tweet_id); cbn; congruence.
  - rewrite increment_post_count_eq. destruct f; cbn; congruence.
  - apply record_posted_tweet_counts.
  - apply increment_post_count_rows.
Qed.

(** X13.  Recording one content makes a duplicate of that content's
    digest only: after [record_posted_tweet] for [content],
    [has_posted_before] answers for any other text as before, unless
    that text has the same MD5 digest and the record was written. *)
Theorem recording_marks_only_its_digest
    content tweet_id f d other bytes bytes' :
  encode content = Some bytes ->
  encode other = Some bytes' ->
  outcome (has_posted_before other Healthy
             (db_after (record_posted_tweet content tweet_id f d)))
  = Ret (select_posted (Hashlib.md5_hexdigest bytes') d
         || (eqb (Hashlib.md5_hexdigest bytes) (Hashlib.md5_hexdigest bytes')
             && match outcome (record_posted_tweet content tweet_id f d) with
                | Ret true => true
                | _ => false
                end))
  /\ outcome (has_posted_before other Healthy d)
     = Ret (select_posted (Hashlib.md5_hexdigest bytes') d).
Proof.
  intros Henc Henc'.
  rewrite !has_posted_before_eq, Henc'. cbn.
  split; [|reflexivity]. f_equal.
  rewrite record_posted_tweet_eq, Henc.
  generalize (Hashlib.md5_hexdigest bytes) (Hashlib.md5_hexdigest bytes').
  intros h h'.
  assert (Hsame : select_posted h' d
                  = select_posted h' d || eqb h h' && false)
    by now rewrite andb_false_r, orb_false_r.
  destruct f; destruct (encode tweet_id); cbn; try exact Hsame.
  unfold select_posted, insert_or_ignore; cbn.
  destruct (existsb (fun r => eqb (row_content_hash r) h) (posted_tweets d))
    eqn:Hh.
  - rewrite andb_true_r.
    destruct (eqb h h') eqn:E; [|now rewrite orb_false_r].
    apply str_eqb_eq in E. subst h'. now rewrite Hh.
  - rewrite existsb_app. cbn. now rewrite orb_false_r, andb_true_r.
Qed.

(* ================================================================== *)
(** * generate_tweet and the commands *)
(* ================================================================== *)

Lemma rstrip_by_prefix p s :
  exists dropped, s = rstrip_by p s ++ dropped.
Proof.
  unfold rstrip_by.
  destruct (lstrip_by_suffix p (rev s)) as (dropped & Hs & _).
  exists (rev dropped).
  rewrite <- rev_app_distr, <- Hs. now rewrite rev_involutive.
Qed.

Lemma last_rev_hd {A} (l : list A) x : last (rev l) x = hd x l.
Proof.
  destruct l as [|a l]; cbn; [reflexivity|]. apply last_last.
Qed.

(** What [strip] leaves neither starts nor ends with a stripped
    character. *)
Lemma strip_by_bare p s : bare p (strip_by p s).
Proof.
  unfold bare, strip_by.
  set (l := lstrip_by p s).
  destruct (rstrip_by p l) as [|c r] eqn:Hr; [now left|right].
  split.
  - destruct (rstrip_by_prefix p l) as (dropped & Hl).
    rewrite Hr in Hl. cbn in Hl.
    destruct (lstrip_by_head p s) as [Hnil|Hhd]; fold l in Hnil || fold l in Hhd.
    + rewrite Hnil in Hl. discriminate.
    + rewrite Hl in Hhd. exact Hhd.
  - rewrite <- Hr. unfold rstrip_by. rewrite last_rev_hd.
    destruct (lstrip_by_head p (rev l)) as [Hnil|Hhd]; [|exact Hhd].
    unfold rstrip_by in Hr. rewrite Hnil in Hr. discriminate.
Qed.

(** X14.  Without a Gemini API key the AI is never asked:
    [generate_tweet] logs and prints the missing key and returns
    [None]. *)
Theorem no_key_no_generation cfg ai topic d :
  env_set (GEMINI_API_KEY cfg) = false ->
  let error_msg :=
    lit "Error generating tweet: "
    ++ lit "Missing GEMINI_API_KEY in environment variables" in
  generate_tweet cfg ai topic d
  = {| outcome := Ret None; db_after := d;
       events := [LogError error_msg; Printed (Line error_msg)] |}.
Proof.
  intros Hkey error_msg. subst error_msg.
  pose proof (generate_tweet_eq cfg ai topic d) as E. cbv zeta in E.
  rewrite E. unfold validate_gemini_credentials. rewrite Hkey.
  unfold generation_outcome, generation_events, generation_line.
  cbn [is_exception negb exn_str].
  now rewrite encodable_app, !encodable_lit.
Qed.

(** X15.  [generate_tweet] is harmless, however it ends: it never
    touches the database, never contacts the platform, and asks the AI
    exactly once when the Gemini key is set and not at all when it is
    not, with the prompt followed by a space and the topic. *)
Theorem generate_tweet_is_harmless cfg ai topic d :
  db_after (generate_tweet cfg ai topic d) = d
  /\ transmitted (events (generate_tweet cfg ai topic d)) = []
  /\ asked_of_ai (events (generate_tweet cfg ai topic d))
     = if env_set (GEMINI_API_KEY cfg)
       then [PROMPTS_generate_tweet cfg ++ lit " " ++ topic]
       else [].
Proof.
  split; [apply generate_tweet_db|].
  assert (Hfailed : forall e,
    transmitted (generation_events e) = []
    /\ asked_of_ai (generation_events e) = []).
  { intros e. unfold generation_events.
    destruct (is_exception e); cbn [negb]; [|now split].
    destruct (encodable _); now split. }
  pose proof (generate_tweet_eq cfg ai topic d) as E. cbv zeta in E.
  rewrite E. clear E. unfold validate_gemini_credentials.
  destruct (env_set (GEMINI_API_KEY cfg)); [|apply Hfailed].
  assert (Hasked : forall e,
    transmitted ([GenerateContent
                    (PROMPTS_generate_tweet cfg ++ lit " " ++ topic)]
                 ++ generation_events e) = []
    /\ asked_of_ai ([GenerateContent
                       (PROMPTS_generate_tweet cfg ++ lit " " ++ topic)]
                    ++ generation_events e)
       = [PROMPTS_generate_tweet cfg ++ lit " " ++ topic]).
  { intros e. destruct (Hfailed e) as [Ht Ha].
    rewrite transmitted_app, Ht. unfold asked_of_ai in *.
    rewrite flat_map_app, Ha. now split. }
  destruct (ai_reply ai) as [[response|]|e];
    [|now split|apply Hasked].
  destruct (text response) as [[|c t]|e];
    [now split|now split|apply Hasked].
Qed.

Lemma generate_tweet_bare cfg ai topic d s :
  outcome (generate_tweet cfg ai topic d) = Ret (Some s) ->
  bare (among quotes) s /\ (len s <= 280)%Z.
Proof.
  pose proof (generate_tweet_eq cfg ai topic d) as E. cbv zeta in E.
  rewrite E.
  destruct (validate_gemini_credentials cfg);
    [|intros H; now apply generation_no_text in H].
  destruct (ai_reply ai) as [[response|]|]; try discriminate;
    [|intros H; now apply generation_no_text in H].
  destruct (text response) as [[|c t]|]; try discriminate;
    [|intros H; now apply generation_no_text in H].
  intros H. cbv beta iota zeta delta [outcome] in H. injection H as <-.
  set (stripped := strip_chars quotes (strip (c :: t))).
  pose proof (strip_by_bare (among quotes) (strip (c :: t))) as Hbare.
  fold (strip_chars quotes (strip (c :: t))) in Hbare. fold stripped in Hbare.
  clearbody stripped.
  assert (Hcut : (280 < len stripped)%Z ->
                 (len (slice_to 277 stripped ++ lit "...") <= 280)%Z).
  { intros Hlong.
    rewrite len_app, len_slice_to
      by (change (Z.of_nat 277) with 277%Z; lia).
    change (len (lit "...")) with 3%Z.
    change (Z.of_nat 277) with 277%Z. lia. }
  destruct (280 <? len stripped)%Z eqn:Hcmp.
  - apply Z.ltb_lt in Hcmp. split; [|exact (Hcut Hcmp)].
    right. destruct stripped as [|c0 rest];
      [unfold len in Hcmp; cbn in Hcmp; lia|].
    destruct Hbare as [Hnil|[Hhd _]]; [discriminate|].
    split; [exact Hhd|].
    change (lit "...") with ([46; 46]%N ++ [46]%N).
    now rewrite app_assoc, last_last.
  - apply Z.ltb_ge in Hcmp. split; [exact Hbare|exact Hcmp].
Qed.

(** X16.  The text [generate_tweet] returns has no wrapping quotes: it
    is empty, or neither its first nor its last character is a single or
    double quote. *)
Theorem generated_text_has_no_wrapping_quotes cfg ai topic d s :
  outcome (generate_tweet cfg ai topic d) = Ret (Some s) ->
  bare (among quotes) s.
Proof. intros H. now apply (generate_tweet_bare cfg ai topic d). Qed.
Section Command_facts.

Variable str_lower : str -> str.
Variable cfg : Config.

(** The first line of the two commands can be printed exactly when the
    topic can. *)
Lemma encodable_generating topic :
  encodable (nl ++ robot ++ lit " Generating tweet about: " ++ topic)
  = encodable topic.
Proof.
  rewrite !encodable_app, encodable_lit.
  replace (encodable nl) with true by reflexivity.
  replace (encodable robot) with true by reflexivity.
  reflexivity.
Qed.

Lemma copilot_mode_eq ai env topic d :
  let g := generate_tweet cfg ai topic d in
  let head := [generating_line topic; Printed (Line (repeat 45%N 40))]
              ++ events g in
  copilot_mode str_lower cfg ai env topic d =
  if encodable topic then
    match outcome g with
    | Ret (Some (c :: t)) =>
        let p := post_tweet str_lower cfg env (c :: t) true d in
        {| outcome := match outcome p with
                      | Ret _ => Ret tt
                      | Raise e => Raise e
                      end;
           db_after := db_after p;
           events := head ++ events p |}
    | Ret _ =>
        {| outcome := Ret tt; db_after := d;
           events := head
                     ++ [Printed (Line (lit "Failed to generate tweet."))] |}
    | Raise e =>
        {| outcome := Raise e; db_after := d; events := head |}
    end
  else
    {| outcome := Raise (UnicodeEncodeError
                           (surrogate_message (topic_line topic)));
       db_after := d; events := [] |}.
Proof.
  cbv zeta. unfold copilot_mode, generating_line, topic_line.
  pose proof (encodable_generating topic) as Hline.
  pose proof (generate_tweet_db cfg ai topic d) as Hd.
  set (text1 := nl ++ robot ++ lit " Generating tweet about: " ++ topic)
    in *.
  set (text3 := lit "Failed to generate tweet.").
  assert (H3 : encodable text3 = true) by apply encodable_lit.
  clearbody text1 text3.
  destruct (encodable topic).
  2:{ apply bind_raise. rewrite print_eq. cbn [first_text].
      now rewrite Hline. }
  rewrite bind_step with (a := tt) (d' := d) (evs := [Printed (Line text1)])
    by (apply print_ok; exact Hline).
  cbv beta.
  rewrite bind_step with (a := tt) (d' := d)
                         (evs := [Printed (Line (repeat 45%N 40))])
    by (apply print_ok; reflexivity).
  cbv beta. unfold prepend. cbn [outcome db_after events].
  destruct (outcome (generate_tweet cfg ai topic d)) as [x|e] eqn:Hx.
  2:{ rewrite bind_raise
        with (e := e) (d' := d)
             (evs := events (generate_tweet cfg ai topic d))
        by (destruct (generate_tweet cfg ai topic d) as [o d' evs];
            cbn in *; now subst).
      reflexivity. }
  rewrite (bind_after (generate_tweet cfg ai topic) _ _ _ Hx).
  rewrite Hd. cbv beta iota. unfold prepend. cbn [outcome db_after events].
  destruct x as [[|c t]|]; cbn [truthy negb]; cbv iota;
    try (rewrite (print_ok (Line text3) d H3); cbn [outcome db_after events];
         now rewrite <- !app_assoc).
  rewrite bind_last. cbn [outcome db_after events].
  now rewrite <- !app_assoc.
Qed.

Lemma cmd_post_eq ai env args_topic args_auto d :
  let topic := join (lit " ") args_topic in
  let g := generate_tweet cfg ai topic d in
  let head := generating_line topic :: events g in
  cmd_post str_lower cfg ai env args_topic args_auto d =
  if encodable topic then
    match outcome g with
    | Ret (Some (c :: t)) =>
        let p := post_tweet str_lower cfg env (c :: t) (negb args_auto) d in
        {| outcome := match outcome p with
                      | Ret (Some _) => Ret 0%Z
                      | Ret None => Ret 1%Z
                      | Raise e => Raise e
                      end;
           db_after := db_after p;
           events := head ++ events p |}
    | Ret _ =>
        {| outcome := Ret 1%Z; db_after := d;
           events := head
                     ++ [Printed (Line (cross_mark
                                        ++ lit " Failed to generate tweet"))] |}
    | Raise e =>
        {| outcome := Raise e; db_after := d; events := head |}
    end
  else
    {| outcome := Raise (UnicodeEncodeError
                           (surrogate_message (topic_line topic)));
       db_after := d; events := [] |}.
Proof.
  cbv zeta. unfold cmd_post, generating_line, topic_line.
  set (topic := join (lit " ") args_topic).
  pose proof (encodable_generating topic) as Hline.
  pose proof (generate_tweet_db cfg ai topic d) as Hd.
  set (text1 := nl ++ robot ++ lit " Generating tweet about: " ++ topic)
    in *.
  set (text3 := cross_mark ++ lit " Failed to generate tweet").
  assert (H3 : encodable text3 = true)
    by (subst text3; rewrite encodable_app, encodable_lit; reflexivity).
  clearbody text1 text3.
  destruct (encodable topic).
  2:{ apply bind_raise. rewrite print_eq. cbn [first_text].
      now rewrite Hline. }
  rewrite bind_step with (a := tt) (d' := d) (evs := [Printed (Line text1)])
    by (apply print_ok; exact Hline).
  cbv beta. unfold prepend. cbn [outcome db_after events].
  destruct (outcome (generate_tweet cfg ai topic d)) as [x|e] eqn:Hx.
  2:{ rewrite bind_raise
        with (e := e) (d' := d)
             (evs := events (generate_tweet cfg ai topic d))
        by (destruct (generate_tweet cfg ai topic d) as [o d' evs];
            cbn in *; now subst).
      reflexivity. }
  rewrite (bind_after (generate_tweet cfg ai topic) _ _ _ Hx).
  rewrite Hd. cbv beta iota. unfold prepend. cbn [outcome db_after events].
  destruct x as [[|c t]|]; cbn [truthy negb]; cbv iota zeta;
    try (rewrite bind_step with (a := tt) (d' := d)
                                (evs := [Printed (Line text3)])
           by (apply print_ok; exact H3);
         reflexivity).
  destruct (outcome (post_tweet str_lower cfg env (c :: t) (negb args_auto)
                       d)) as [y|e] eqn:Hy.
  - rewrite (bind_after (post_tweet str_lower cfg env (c :: t)
                           (negb args_auto)) _ _ _ Hy).
    destruct y; unfold prepend, ret; cbn [outcome db_after events];
      rewrite app_nil_r; reflexivity.
  - rewrite bind_raise
      with (e := e)
           (d' := db_after (post_tweet str_lower cfg env (c :: t)
                              (negb args_auto) d))
           (evs := events (post_tweet str_lower cfg env (c :: t)
                             (negb args_auto) d))
      by (destruct (post_tweet str_lower cfg env (c :: t) (negb args_auto) d)
            as [o d' evs]; cbn in *; now subst).
    reflexivity.
Qed.

Lemma generate_events_quiet ai topic d :
  transmitted (events (generate_tweet cfg ai topic d)) = []
  /\ prompts (events (generate_tweet cfg ai topic d)) = false.
Proof.
  pose proof (generate_tweet_kind cfg ai topic d) as Hk.
  split.
  - induction (events (generate_tweet cfg ai topic d)) as [|ev evs IH];
      [reflexivity|].
    cbn in Hk. apply andb_true_iff in Hk as [Hev Hk].
    destruct ev as [[]| | | | |]; try discriminate; cbn; auto.
  - apply (existsb_none _ generate_kind); [exact Hk|].
    intros [[]| | | | |]; cbn; congruence.
Qed.



(** X19.  [cmd_copilot] exits with status 0 whenever [copilot_mode]
    returns, whether a tweet was posted or not, and lets pass what
    [copilot_mode] raises; what it does besides is what [copilot_mode]
    does for the topic words joined by spaces.  So it exits with 0 when
    the topic and the generated text encode as UTF-8 and what the AI
    client, the user's [input] or the platform raise, if anything, are
    exceptions with a text that can be printed. *)
Theorem cmd_copilot_always_exits_zero ai env args_topic d :
  outcome (cmd_copilot str_lower cfg ai env args_topic d)
  = match outcome (copilot_mode str_lower cfg ai env
                     (join (lit " ") args_topic) d) with
    | Ret _ => Ret 0%Z
    | Raise e => Raise e
    end
  /\ db_after (cmd_copilot str_lower cfg ai env args_topic d)
     = db_after (copilot_mode str_lower cfg ai env
                   (join (lit " ") args_topic) d)
  /\ events (cmd_copilot str_lower cfg ai env args_topic d)
     = events (copilot_mode str_lower cfg ai env
                 (join (lit " ") args_topic) d)
  /\ (encodable (join (lit " ") args_topic) = true ->
      ai_printable ai ->
      (forall g,
         outcome (generate_tweet cfg ai (join (lit " ") args_topic) d)
         = Ret (Some g) -> encodable g = true) ->
      (forall e, user_reply env = Raise e -> printable e = true) ->
      (forall e, platform_reply env = Raise e -> printable e = true) ->
      outcome (cmd_copilot str_lower cfg ai env args_topic d) = Ret 0%Z).
Proof.
  unfold cmd_copilot. cbv zeta.
  set (topic := join (lit " ") args_topic). clearbody topic.
  rewrite bind_last. cbn [outcome db_after events].
  repeat split.
  intros Ht Hai Hg Huser Hplat.
  pose proof (copilot_mode_eq ai env topic d) as E. cbv zeta in E.
  rewrite E, Ht. clear E.
  destruct (generate_tweet_returns cfg ai topic d Hai) as [x Hx].
  rewrite Hx. destruct x as [[|c t]|]; try reflexivity.
  cbn [outcome].
  destruct (post_tweet_returns str_lower cfg env (c :: t) true d
              (Hg _ Hx) Huser Hplat) as [y ->].
  reflexivity.
Qed.

End Command_facts.

(* ================================================================== *)
(** * Mentions, retweets and statistics *)
(* ================================================================== *)

Lemma store_bind_step {A B} (m : OnStore.M A) (k : A -> OnStore.M B)
    s a s' evs :
  m s = {| OnStore.outcome := Ret a; OnStore.store_after := s';
           OnStore.events := evs |} ->
  OnStore.bind m k s
  = {| OnStore.outcome := OnStore.outcome (k a s');
       OnStore.store_after := OnStore.store_after (k a s');
       OnStore.events := evs ++ OnStore.events (k a s') |}.
Proof. intros H. unfold OnStore.bind. rewrite H. reflexivity. Qed.

Lemma has_processed_mention_eq tweet_id f s :
  has_processed_mention tweet_id f s =
  match f with
  | FailsEarly msg => store_failure (decoded msg) s
  | _ =>
    match encode tweet_id with
    | None =>
        {| OnStore.outcome :=
             Raise (UnicodeEncodeError (surrogate_message tweet_id));
           OnStore.store_after := s; OnStore.events := [] |}
    | Some _ =>
      match fault_message f with
      | Some msg => store_failure msg s
      | None =>
          {| OnStore.outcome := Ret (select_mention tweet_id s);
             OnStore.store_after := s; OnStore.events := [] |}
      end
    end
  end.
Proof.
  unfold has_processed_mention, store_connection, store_bind.
  destruct f; cbn; destruct (encode tweet_id); reflexivity.
Qed.

Lemma has_retweeted_eq tweet_id f s :
  has_retweeted tweet_id f s =
  match f with
  | FailsEarly msg => store_failure (decoded msg) s
  | _ =>
    match encode tweet_id with
    | None =>
        {| OnStore.outcome :=
             Raise (UnicodeEncodeError (surrogate_message tweet_id));
           OnStore.store_after := s; OnStore.events := [] |}
    | Some _ =>
      match fault_message f with
      | Some msg => store_failure msg s
      | None =>
          {| OnStore.outcome := Ret (select_retweet tweet_id s);
             OnStore.store_after := s; OnStore.events := [] |}
      end
    end
  end.
Proof.
  unfold has_retweeted, store_connection, store_bind.
  destruct f; cbn; destruct (encode tweet_id); reflexivity.
Qed.

Lemma mark_mention_processed_eq tweet_id author_id author_username f s :
  let failed msg :=
    {| OnStore.outcome := Ret false; OnStore.store_after := s;
       OnStore.events :=
         [db_error_log msg;
          LogError (lit "Failed to mark mention as processed: " ++ msg)] |} in
  mark_mention_processed tweet_id author_id author_username f s =
  match f with
  | FailsEarly msg => failed (decoded msg)
  | _ =>
    match first_unencodable [Some tweet_id; author_id; author_username] with
    | Some text =>
        {| OnStore.outcome :=
             Raise (UnicodeEncodeError (surrogate_message text));
           OnStore.store_after := s; OnStore.events := [] |}
    | None =>
      match fault_message f with
      | Some msg => failed msg
      | None =>
          {| OnStore.outcome := Ret true;
             OnStore.store_after :=
               {| core := core s;
                  processed_mentions :=
                    insert_mention
                      {| mention_tweet_id := tweet_id;
                         mention_author_id := author_id;
                         mention_author_username := author_username |}
                      (processed_mentions s);
                  retweet_log := retweet_log s |};
             OnStore.events := [] |}
      end
    end
  end.
Proof.
  cbv zeta.
  unfold mark_mention_processed, store_connection, store_bind.
  destruct author_id as [a|]; destruct author_username as [u|];
    cbn [first_unencodable]; unfold encodable;
    destruct f; destruct (encode tweet_id); try reflexivity;
    try (destruct (encode a); try reflexivity);
    try (destruct (encode u)); reflexivity.
Qed.

Lemma record_retweet_eq tweet_id is_quote f s :
  let failed msg :=
    {| OnStore.outcome := Ret false; OnStore.store_after := s;
       OnStore.events :=
         [db_error_log msg;
          LogError (lit "Failed to record retweet: " ++ msg)] |} in
  record_retweet tweet_id is_quote f s =
  match f with
  | FailsEarly msg => failed (decoded msg)
  | _ =>
    match encode tweet_id with
    | None =>
        {| OnStore.outcome :=
             Raise (UnicodeEncodeError (surrogate_message tweet_id));
           OnStore.store_after := s; OnStore.events := [] |}
    | Some _ =>
      match fault_message f with
      | Some msg => failed msg
      | None =>
          {| OnStore.outcome := Ret true;
             OnStore.store_after :=
               {| core := core s;
                  processed_mentions := processed_mentions s;
                  retweet_log :=
                    insert_retweet
                      {| retweet_original_id := tweet_id;
                         retweet_is_quote := is_quote |}
                      (retweet_log s) |};
             OnStore.events := [] |}
      end
    end
  end.
Proof.
  cbv zeta. unfold record_retweet, store_connection, store_bind.
  destruct f; cbn; destruct (encode tweet_id); reflexivity.
Qed.

Lemma get_bot_stats_eq now f s :
  get_bot_stats now f s =
  match fault_message f with
  | Some msg => store_failure msg s
  | None =>
      {| OnStore.outcome := Ret (stats_of now s);
         OnStore.store_after := s; OnStore.events := [] |}
  end.
Proof. destruct f; reflexivity. Qed.

Lemma insert_mention_ids row rows :
  map mention_tweet_id (insert_mention row rows) =
  if existsb (fun r => eqb (mention_tweet_id r) (mention_tweet_id row)) rows
  then map mention_tweet_id rows
  else map mention_tweet_id rows ++ [mention_tweet_id row].
Proof.
  unfold insert_mention. destruct (existsb _ rows); [reflexivity|].
  now rewrite map_app.
Qed.

Lemma existsb_mention_In id rows :
  existsb (fun r => eqb (mention_tweet_id r) id) rows = true
  <-> In id (map mention_tweet_id rows).
Proof.
  rewrite existsb_exists. split.
  - intros (r & Hr & E). apply str_eqb_eq in E. subst. now apply in_map.
  - intros H. apply in_map_iff in H as (r & <- & Hr).
    exists r. split; [assumption|apply str_eqb_refl].
Qed.

Lemma insert_retweet_ids row rows :
  map retweet_original_id (insert_retweet row rows) =
  if existsb (fun r => eqb (retweet_original_id r) (retweet_original_id row))
             rows
  then map retweet_original_id rows
  else map retweet_original_id rows ++ [retweet_original_id row].
Proof.
  unfold insert_retweet. destruct (existsb _ rows); [reflexivity|].
  now rewrite map_app.
Qed.

Lemma existsb_retweet_In id rows :
  existsb (fun r => eqb (retweet_original_id r) id) rows = true
  <-> In id (map retweet_original_id rows).
Proof.
  rewrite existsb_exists. split.
  - intros (r & Hr & E). apply str_eqb_eq in E. subst. now apply in_map.
  - intros H. apply in_map_iff in H as (r & <- & Hr).
    exists r. split; [assumption|apply str_eqb_refl].
Qed.

Lemma NoDup_snoc_new {A} (l : list A) x :
  NoDup l -> ~ In x l -> NoDup (l ++ [x]).
Proof.
  intros ND Hx. apply NoDup_app; [assumption|repeat constructor; intros []|].
  intros y Hy [<-|[]]. contradiction.
Qed.

(** X20.  A mention is processed once.  After [mark_mention_processed]
    returned [True], [has_processed_mention] finds the tweet id; the
    table keeps one row per tweet id; marking an id that is there
    already changes nothing, so the first author stays; the other tables
    are never touched; no database error reaches the caller, and a call
    that does not return [True] has written nothing. *)
Theorem mention_is_processed_once
    tweet_id author_id author_username f s :
  (OnStore.outcome
     (mark_mention_processed tweet_id author_id author_username f s)
   = Ret true ->
   OnStore.outcome
     (has_processed_mention tweet_id Healthy
        (OnStore.store_after
           (mark_mention_processed tweet_id author_id author_username f s)))
   = Ret true)
  /\ (NoDup (mention_ids s) ->
      NoDup (mention_ids
               (OnStore.store_after
                  (mark_mention_processed tweet_id author_id
                     author_username f s))))
  /\ (In tweet_id (mention_ids s) ->
      OnStore.store_after
        (mark_mention_processed tweet_id author_id author_username f s) = s)
  /\ core (OnStore.store_after
             (mark_mention_processed tweet_id author_id author_username f s))
     = core s
  /\ retweet_log
       (OnStore.store_after
          (mark_mention_processed tweet_id author_id author_username f s))
     = retweet_log s
  /\ (forall msg,
        OnStore.outcome
          (mark_mention_processed tweet_id author_id author_username f s)
        <> Raise (SqliteError msg))
  /\ (OnStore.outcome
        (mark_mention_processed tweet_id author_id author_username f s)
      <> Ret true ->
      OnStore.store_after
        (mark_mention_processed tweet_id author_id author_username f s) = s).
Proof.
  pose proof (mark_mention_processed_eq tweet_id author_id author_username
                f s) as E.
  cbv zeta in E. rewrite E. clear E.
  rewrite has_processed_mention_eq.
  set (row := {| mention_tweet_id := tweet_id;
                 mention_author_id := author_id;
                 mention_author_username := author_username |}).
  assert (Hwritten :
    let s' := {| core := core s;
                 processed_mentions := insert_mention row (processed_mentions s);
                 retweet_log := retweet_log s |} in
    (encodable tweet_id = true ->
     match encode tweet_id with
     | Some _ => Ret (select_mention tweet_id s')
     | None => Raise (UnicodeEncodeError (surrogate_message tweet_id))
     end = Ret true)
    /\ (NoDup (mention_ids s) -> NoDup (mention_ids s'))
    /\ (In tweet_id (mention_ids s) -> s' = s)).
  { cbv zeta. unfold mention_ids, select_mention, encodable; cbn.
    split; [|split].
    - destruct (encode tweet_id); [|discriminate]. intros _. f_equal.
      apply existsb_mention_In. rewrite insert_mention_ids. cbn.
      destruct (existsb _ (processed_mentions s)) eqn:Hin.
      + now apply existsb_mention_In.
      + apply in_or_app. right. now left.
    - intros ND. rewrite insert_mention_ids. cbn.
      destruct (existsb _ (processed_mentions s)) eqn:Hin; [exact ND|].
      apply NoDup_snoc_new; [exact ND|].
      intros Hx. apply existsb_mention_In in Hx. congruence.
    - intros Hin. apply existsb_mention_In in Hin.
      unfold insert_mention. cbn. rewrite Hin. now destruct s. }
  cbv zeta in Hwritten. destruct Hwritten as (Hfound & Hnodup & Hsame).
  assert (Hfirst : first_unencodable [Some tweet_id; author_id; author_username]
                   = None -> encodable tweet_id = true)
    by (cbn; destruct (encodable tweet_id); [reflexivity|discriminate]).
  destruct f as [|msg|msg];
    try (cbn; repeat split; trivial; try discriminate; fail);
    destruct (first_unencodable _) eqn:Hu; cbn;
    repeat split; trivial; try discriminate; try congruence.
  intros _. rewrite (Hfirst eq_refl) in Hfound.
  unfold encodable in Hfirst. specialize (Hfirst eq_refl).
  destruct (encode tweet_id); [|discriminate]. now apply Hfound.
Qed.

(** X21.  A retweet is recorded once.  After [record_retweet] returned
    [True], [has_retweeted] finds the tweet id; the table keeps one row
    per tweet id; recording an id that is there already changes nothing,
    so the first quote flag stays; the other tables are never touched;
    no database error reaches the caller, and a call that does not
    return [True] has written nothing. *)
Theorem retweet_is_recorded_once tweet_id is_quote f s :
  (OnStore.outcome (record_retweet tweet_id is_quote f s) = Ret true ->
   OnStore.outcome
     (has_retweeted tweet_id Healthy
        (OnStore.store_after (record_retweet tweet_id is_quote f s)))
   = Ret true)
  /\ (NoDup (retweet_ids s) ->
      NoDup (retweet_ids
               (OnStore.store_after (record_retweet tweet_id is_quote f s))))
  /\ (In tweet_id (retweet_ids s) ->
      OnStore.store_after (record_retweet tweet_id is_quote f s) = s)
  /\ core (OnStore.store_after (record_retweet tweet_id is_quote f s))
     = core s
  /\ processed_mentions
       (OnStore.store_after (record_retweet tweet_id is_quote f s))
     = processed_mentions s
  /\ (forall msg, OnStore.outcome (record_retweet tweet_id is_quote f s)
                  <> Raise (SqliteError msg))
  /\ (OnStore.outcome (record_retweet tweet_id is_quote f s) <> Ret true ->
      OnStore.store_after (record_retweet tweet_id is_quote f s) = s).
Proof.
  pose proof (record_retweet_eq tweet_id is_quote f s) as E.
  cbv zeta in E. rewrite E. clear E.
  rewrite has_retweeted_eq.
  set (row := {| retweet_original_id := tweet_id;
                 retweet_is_quote := is_quote |}).
  assert (Hwritten :
    let s' := {| core := core s;
                 processed_mentions := processed_mentions s;
                 retweet_log := insert_retweet row (retweet_log s) |} in
    select_retweet tweet_id s' = true
    /\ (NoDup (retweet_ids s) -> NoDup (retweet_ids s'))
    /\ (In tweet_id (retweet_ids s) -> s' = s)).
  { cbv zeta. unfold retweet_ids, select_retweet; cbn.
    split; [|split].
    - apply existsb_retweet_In. rewrite insert_retweet_ids. cbn.
      destruct (existsb _ (retweet_log s)) eqn:Hin.
      + now apply existsb_retweet_In.
      + apply in_or_app. right. now left.
    - intros ND. rewrite insert_retweet_ids. cbn.
      destruct (existsb _ (retweet_log s)) eqn:Hin; [exact ND|].
      apply NoDup_snoc_new; [exact ND|].
      intros Hx. apply existsb_retweet_In in Hx. congruence.
    - intros Hin. apply existsb_retweet_In in Hin.
      unfold insert_retweet. cbn. rewrite Hin. now destruct s. }
  cbv zeta in Hwritten. destruct Hwritten as (Hfound & Hnodup & Hsame).
  destruct f as [|msg|msg]; destruct (encode tweet_id); cbn;
    repeat split; trivial; try discriminate; try congruence;
    intros _; f_equal; exact Hfound.
Qed.

(** X22.  Reading does not hide a failing database.  When the database
    fails, [get_post_count], [has_posted_before], [has_processed_mention],
    [has_retweeted] and [get_bot_stats] (called with text that encodes
    as UTF-8) log ["Database error: ..."] once, raise the
    [sqlite3.Error] to the caller and leave every table as it was. *)
Theorem reads_raise_database_errors now content tweet_id f msg d s :
  fault_message f = Some msg ->
  encodable content = true ->
  encodable tweet_id = true ->
  get_post_count now f d
  = {| outcome := Raise (SqliteError msg); db_after := d;
       events := [db_error_log msg] |}
  /\ has_posted_before content f d
     = {| outcome := Raise (SqliteError msg); db_after := d;
          events := [db_error_log msg] |}
  /\ has_processed_mention tweet_id f s = store_failure msg s
  /\ has_retweeted tweet_id f s = store_failure msg s
  /\ get_bot_stats now f s = store_failure msg s.
Proof.
  unfold encodable. intros Hf Hcontent Hid.
  rewrite get_post_count_eq, has_posted_before_eq,
    has_processed_mention_eq, has_retweeted_eq, get_bot_stats_eq.
  destruct (encode content); [|discriminate].
  destruct (encode tweet_id); [|discriminate].
  destruct f; cbn in *; try discriminate; injection Hf as ->;
    repeat split.
Qed.

Lemma insert_or_ignore_new_length h t rows :
  existsb (fun r => eqb (row_content_hash r) h) rows = false ->
  List.length (insert_or_ignore h t rows) = S (List.length rows).
Proof.
  intros Hnew. unfold insert_or_ignore. rewrite Hnew.
  rewrite length_app. cbn. lia.
Qed.

(** X23.  The statistics follow the posts.  After a [post_tweet] call
    that returned the platform's response, with both bookkeeping writes
    done and the month's count an SQLite INTEGER that one more still
    fits (from 0 to [INTEGER_MAX]), [get_bot_stats] reports one more
    post for the month of the write and one more tweet in total than
    before, and the same numbers of mentions and retweets. *)
Theorem statistics_follow_posts
    str_lower cfg env message approval s resp :
  outcome (post_tweet str_lower cfg env message approval (core s))
  = Ret (Some resp) ->
  db_at_increment env = Healthy ->
  db_at_record env = Healthy ->
  countable (count_of (clock_at_increment env) (core s)) ->
  OnStore.outcome
    (get_bot_stats (clock_at_increment env) Healthy
       (OnStore.store_after
          (on_core (post_tweet str_lower cfg env message approval) s)))
  = Ret {| current_month_posts :=
             current_month_posts (stats_of (clock_at_increment env) s) + 1;
           total_tweets :=
             total_tweets (stats_of (clock_at_increment env) s) + 1;
           total_mentions_processed :=
             total_mentions_processed (stats_of (clock_at_increment env) s);
           total_retweets :=
             total_retweets (stats_of (clock_at_increment env) s) |}
  /\ OnStore.outcome (get_bot_stats (clock_at_increment env) Healthy s)
     = Ret (stats_of (clock_at_increment env) s).
Proof.
  intros Ho Hinc Hrec Hcount. rewrite !get_bot_stats_eq. cbn.
  split; [|reflexivity]. f_equal.
  destruct (post_tweet_paths str_lower cfg env message approval (core s))
    as [_ Ho' _ _ | pre post _ _ _ _ _ _ Ho' _
        | pre resp' tid Hg Hid _ _ _ Hd Ho'];
    try (now apply Ho' in Ho).
  apply gate_open_iff in Hg as (_ & _ & _ & (bytes & Henc & Hnew) & _).
  apply platform_id_some in Hid as (_ & _ & Htid).
  unfold stats_of; cbn. rewrite Hd.
  rewrite count_of_tracking, Hinc, str_eqb_refl. cbn.
  rewrite (incremented_countable _ _ Hcount).
  unfold tracking; cbn.
  rewrite record_posted_tweet_eq, Henc, Hrec.
  unfold encodable in Htid.
  destruct (encode tid); [|discriminate]. cbn.
  rewrite increment_post_count_rows.
  rewrite insert_or_ignore_new_length by exact Hnew.
  f_equal. lia.
Qed.

(** X24.  The statistics count each mention and each retweet once:
    marking a new tweet id (with [True] returned) raises the number of
    processed mentions by one, marking a known one leaves it; the same
    holds for [record_retweet] and the number of retweets. *)
Theorem statistics_count_each_id_once
    now tweet_id author_id author_username is_quote f s :
  (OnStore.outcome
     (mark_mention_processed tweet_id author_id author_username f s)
   = Ret true ->
   total_mentions_processed
     (stats_of now
        (OnStore.store_after
           (mark_mention_processed tweet_id author_id author_username f s)))
   = (total_mentions_processed (stats_of now s)
      + if select_mention tweet_id s then 0 else 1)%Z)
  /\ (OnStore.outcome (record_retweet tweet_id is_quote f s) = Ret true ->
      total_retweets
        (stats_of now
           (OnStore.store_after (record_retweet tweet_id is_quote f s)))
      = (total_retweets (stats_of now s)
         + if select_retweet tweet_id s then 0 else 1)%Z).
Proof.
  pose proof (mark_mention_processed_eq tweet_id author_id author_username
                f s) as E1.
  pose proof (record_retweet_eq tweet_id is_quote f s) as E2.
  cbv zeta in E1, E2. rewrite E1, E2. clear E1 E2.
  unfold stats_of, select_mention, select_retweet.
  split.
  - destruct f; try (cbn; discriminate);
      destruct (first_unencodable _); cbn; try discriminate;
      intros _. unfold insert_mention. cbn.
      (destruct (existsb _ (processed_mentions s)); [lia|]);
      rewrite length_app; cbn; lia.
  - destruct f; try (cbn; discriminate);
      destruct (encode tweet_id); cbn; try discriminate;
      intros _. unfold insert_retweet. cbn.
      (destruct (existsb _ (retweet_log s)); [lia|]);
      rewrite length_app; cbn; lia.
Qed.

Lemma store_print_ok text :
  encodable text = true ->
  store_print text = OnStore.emit (Printed (Line text)).
Proof. intros H. unfold store_print. now rewrite H. Qed.

(** The lines of [cmd_stats] are fixed text and decimal numbers. *)
Ltac stats_text :=
  rewrite ?encodable_app, ?encodable_lit, ?encodable_str_of_int;
  reflexivity.

Lemma cmd_stats_eq cfg now f s :
  let count := count_of now (core s) in
  let remaining := (RATE_LIMIT_MAX cfg - count)%Z in
  cmd_stats cfg now f s =
  match fault_message f with
  | Some msg => store_failure msg s
  | None =>
      {| OnStore.outcome := Ret 0%Z;
         OnStore.store_after := s;
         OnStore.events :=
           [Printed (Line (nl ++ [128202]%N ++ lit " Bot Statistics"));
            Printed (Line (repeat 61%N 40));
            Printed (Line ([128221]%N ++ lit " Posts this month:      "
                           ++ str_of_int count ++ lit "/"
                           ++ str_of_int (RATE_LIMIT_MAX cfg)));
            Printed (Line ([128232]%N ++ lit " Total tweets posted:   "
                           ++ str_of_int
                                (Z.of_nat (List.length
                                             (posted_tweets (core s))))));
            Printed (Line (repeat 61%N 40));
            if (remaining <? 50)%Z
            then few_left_line remaining
            else posts_left_line remaining] |}
  end.
Proof.
  cbv zeta. unfold cmd_stats, store_failure.
  unfold OnStore.bind at 1. rewrite get_bot_stats_eq.
  destruct (fault_message f) as [msg|]; [reflexivity|].
  cbn [OnStore.outcome OnStore.store_after OnStore.events].
  unfold stats_of.
  cbn [current_month_posts total_tweets].
  unfold few_left_line, posts_left_line.
  rewrite !store_print_ok by stats_text.
  generalize (RATE_LIMIT_MAX cfg - count_of now (core s))%Z. intros remaining.
  set (l1 := Line _). set (l2 := Line (repeat 61%N 40)).
  set (l3 := Line _). set (l4 := Line _).
  set (l5 := Line _). set (l6 := Line _).
  clearbody l1 l2 l3 l4 l5 l6.
  destruct (remaining <? 50)%Z; reflexivity.
Qed.


(* ================================================================== *)
(** * The program on sample data *)
(* ================================================================== *)

Example strip_example :
  strip (lit "  hello world" ++ [10; 12288]%N) = lit "hello world".
Proof. reflexivity. Qed.

Example strip_chars_example :
  strip_chars quotes (quotes ++ lit "it's" ++ [34]%N) = lit "it's".
Proof. reflexivity. Qed.

Example contains_example :
  contains (lit "402") (lit "HTTP 402 Payment Required") = true
  /\ contains (lit "402") (lit "403 Forbidden") = false.
Proof. split; reflexivity. Qed.

Example encode_example :
  encode [233; 8364; 128512]%N
  = Some [195; 169; 226; 130; 172; 240; 159; 152; 128]%N
  /\ encode [97; 55296]%N = None.
Proof. split; reflexivity. Qed.

Example md5_examples :
  Hashlib.md5_hexdigest [] = lit "d41d8cd98f00b204e9800998ecf8427e"
  /\ Hashlib.md5_hexdigest (lit "abc")
     = lit "900150983cd24fb0d6963f7d28e17f72"
  /\ Hashlib.md5_hexdigest (repeat 97%N 64)
     = lit "014842d480b571495a4a0363793f7367"
  /\ option_map Hashlib.md5_hexdigest
       (encode (concat (repeat ([233; 8364; 128512]%N ++ lit " test ") 9)))
     = Some (lit "2145416c0c2c87a2a6cd60f354f76072").
Proof. repeat split; vm_compute; reflexivity. Qed.

Example surrogate_message_example :
  surrogate_message (repeat 97%N 99 ++ [56000; 56000]%N)
  = lit "'utf-8' codec can't encode characters in position 99-100: surrogates not allowed".
Proof. vm_compute. reflexivity. Qed.

(** A first post in a new database, approved by the user. *)
Example first_post :
  post_tweet ascii_lower sample_cfg sample_env sample_message true empty_db
  = {| outcome := Ret (Some sample_response);
       db_after :=
         {| post_counts :=
              [{| row_month := lit "2025-03"; row_count := 1 |}];
            posted_tweets :=
              [{| row_content_hash :=
                    lit "68051aeba866e3362594d790240b8b81";
                  row_tweet_id := lit "1849" |}] |};
       events := [Printed PreviewHead;
                  Printed (Preview sample_message 23 0 500);
                  Prompt; Answer (lit " Y ");
                  CreateTweet sample_message;
                  Printed Success;
                  Printed (Posted (lit "1849"))] |}.
Proof. vm_compute. reflexivity. Qed.

(** The same message again is a duplicate. *)
Example second_post :
  post_tweet ascii_lower sample_cfg sample_env sample_message true seen_db
  = {| outcome := Ret None; db_after := seen_db;
       events := [Printed DuplicateSkipped] |}.
Proof. vm_compute. reflexivity. Qed.

(** A payment error of the platform is explained, not logged. *)
Example payment_required :
  events
    (post_tweet ascii_lower sample_cfg
       {| clock_at_check := lit "2025-03"; db_at_check := Healthy;
          db_at_lookup := Healthy; user_reply := Ret (lit "y");
          platform_reply := Raise (ClientError (lit "402 Payment Required"));
          clock_at_increment := lit "2025-03"; db_at_increment := Healthy;
          db_at_record := Healthy |}
       sample_message false empty_db)
  = [CreateTweet sample_message; Printed CreditsHead;
     Printed (CreditsHelp sample_message)].
Proof. vm_compute. reflexivity. Qed.

(** A tweet id that the console cannot encode: the tweet is out, the
    link is not printed, the error is, and nothing is counted. *)
Example unprintable_link :
  post_tweet ascii_lower sample_cfg
    {| clock_at_check := lit "2025-03"; db_at_check := Healthy;
       db_at_lookup := Healthy; user_reply := Ret (lit "y");
       platform_reply := Ret {| data := [(lit "id", [55296]%N)] |};
       clock_at_increment := lit "2025-03"; db_at_increment := Healthy;
       db_at_record := Healthy |}
    sample_message false empty_db
  = {| outcome := Ret None; db_after := empty_db;
       events :=
         [CreateTweet sample_message; Printed Success;
          LogError ([10060; 32]%N ++ lit "Error posting tweet: 'utf-8' codec can't encode character '\ud800' in position 29: surrogates not allowed");
          Printed (Line ([10060; 32]%N ++ lit "Error posting tweet: 'utf-8' codec can't encode character '\ud800' in position 29: surrogates not allowed"))] |}.
Proof. vm_compute. reflexivity. Qed.

(** Ctrl-C at the prompt is no [Exception]: it leaves [post_tweet]. *)
Example interrupted_at_the_prompt :
  post_tweet ascii_lower sample_cfg
    {| clock_at_check := lit "2025-03"; db_at_check := Healthy;
       db_at_lookup := Healthy; user_reply := Raise KeyboardInterrupt;
       platform_reply := Ret sample_response;
       clock_at_increment := lit "2025-03"; db_at_increment := Healthy;
       db_at_record := Healthy |}
    sample_message true empty_db
  = {| outcome := Raise KeyboardInterrupt; db_after := empty_db;
       events := [Printed PreviewHead;
                  Printed (Preview sample_message 23 0 500); Prompt] |}.
Proof. vm_compute. reflexivity. Qed.

(** A user who would decline is never asked when the first read of the
    database fails; if the failure is explained with the credits text
    and the message has a lone surrogate, the [print(message)] of the
    [except] clause raises. *)
Example unasked_user :
  post_tweet ascii_lower sample_cfg
    {| clock_at_check := lit "2025-03";
       db_at_check :=
         FailsEarly {| decoded := lit "unable to open /home/u402/bot.db";
                       decoded_ok := eq_refl |};
       db_at_lookup := Healthy; user_reply := Ret (lit "no");
       platform_reply := Ret sample_response;
       clock_at_increment := lit "2025-03"; db_at_increment := Healthy;
       db_at_record := Healthy |}
    [55296]%N true empty_db
  = {| outcome :=
         Raise (UnicodeEncodeError
                  (lit "'utf-8' codec can't encode character '\ud800' in position 0: surrogates not allowed"));
       db_after := empty_db;
       events :=
         [LogError (lit "Database error: unable to open /home/u402/bot.db");
          Printed CreditsHead] |}.
Proof. vm_compute. reflexivity. Qed.

(** At the largest INTEGER of SQLite the count becomes a REAL, which one
    more no longer changes. *)
Example count_saturates :
  count_plus_1 INTEGER_MAX = 9223372036854775808%Z
  /\ count_plus_1 (count_plus_1 INTEGER_MAX) = 9223372036854775808%Z
  /\ count_plus_1 41 = 42%Z.
Proof. repeat split. Qed.

Example generate_tweet_example :
  outcome
    (generate_tweet sample_cfg
       {| ai_reply := Ret (Some {| text := Ret ([32; 34]%N
                                                ++ sample_message
                                                ++ [34; 10]%N) |}) |}
       (lit "release cadence") empty_db)
  = Ret (Some sample_message).
Proof. vm_compute. reflexivity. Qed.

(* ================================================================== *)
(** * Instances of the properties, and where two claims fail *)
(* ================================================================== *)

(** C1 at a full quota. *)
Lemma quota_blocks_posting_witness :
  outcome (get_post_count (clock_at_check sample_env)
             (db_at_check sample_env) full_db) = Ret 500%Z
  /\ (RATE_LIMIT_MAX sample_cfg <= 500)%Z
  /\ outcome (post_tweet ascii_lower sample_cfg sample_env sample_message
                true full_db) = Ret None
  /\ transmitted (events (post_tweet ascii_lower sample_cfg sample_env
                            sample_message true full_db)) = []
  /\ db_after (post_tweet ascii_lower sample_cfg sample_env sample_message
                 true full_db) = full_db.
Proof.
  split; [reflexivity|]. split; [vm_compute; discriminate|].
  apply (quota_blocks_posting ascii_lower sample_cfg sample_env
           sample_message true full_db 500);
    [reflexivity | vm_compute; discriminate].
Defined.

(** C2 with a user who declines. *)
Lemma approval_precedes_posting_witness :
  In (Answer (lit "no"))
     (events (post_tweet ascii_lower sample_cfg declining_env
                sample_message true empty_db))
  /\ ascii_lower (strip (lit "no")) <> lit "y"
  /\ outcome (post_tweet ascii_lower sample_cfg declining_env
                sample_message true empty_db) = Ret None
  /\ transmitted (events (post_tweet ascii_lower sample_cfg declining_env
                            sample_message true empty_db)) = []
  /\ db_after (post_tweet ascii_lower sample_cfg declining_env
                 sample_message true empty_db) = empty_db.
Proof.
  split; [vm_compute; do 3 right; left; reflexivity|].
  split; [vm_compute; discriminate|].
  apply (proj1 (proj2 (approval_precedes_posting ascii_lower sample_cfg
                         declining_env sample_message empty_db))
           (lit "no"));
    [vm_compute; do 3 right; left; reflexivity | vm_compute; discriminate].
Defined.

(** C3 with the sample message already in the table. *)
Lemma duplicate_is_skipped_witness :
  encode sample_message = Some sample_message
  /\ In (Hashlib.md5_hexdigest sample_message) (hashes seen_db)
  /\ outcome (post_tweet ascii_lower sample_cfg sample_env sample_message
                false seen_db) = Ret None
  /\ transmitted (events (post_tweet ascii_lower sample_cfg sample_env
                            sample_message false seen_db)) = []
  /\ db_after (post_tweet ascii_lower sample_cfg sample_env sample_message
                 false seen_db) = seen_db.
Proof.
  split; [reflexivity|]. split; [vm_compute; left; reflexivity|].
  apply (duplicate_is_skipped ascii_lower sample_cfg sample_env
           sample_message false seen_db sample_message);
    [reflexivity | vm_compute; left; reflexivity].
Defined.

(** C4, as amended, on the two sample calls, on a first post and on a
    post with the database locked when the count is written. *)
Lemma counter_tallies_posts_witness :
  (forall c, In c sample_calls -> db_at_increment (call_env c) = Healthy)
  /\ (0 <= count_of (lit "2025-03") empty_db)%Z
  /\ (count_of (lit "2025-03") empty_db
      + Z.of_nat (List.length sample_calls) <= INTEGER_MAX + 1)%Z
  /\ count_of (lit "2025-03") (run ascii_lower sample_cfg sample_calls empty_db)
     = (count_of (lit "2025-03") empty_db
        + acknowledged_in ascii_lower sample_cfg (lit "2025-03")
            sample_calls empty_db)%Z
  /\ db_at_increment sample_env = Healthy
  /\ countable (count_of (clock_at_increment sample_env) empty_db)
  /\ outcome (post_tweet ascii_lower sample_cfg sample_env sample_message
                true empty_db) = Ret (Some sample_response)
  /\ count_of (lit "2025-03")
       (db_after (post_tweet ascii_lower sample_cfg sample_env
                    sample_message true empty_db))
     = (count_of (lit "2025-03") empty_db + 1)%Z
  /\ fault_message (db_at_increment locked_env)
     = Some (lit "database is locked")
  /\ acknowledged (post_tweet ascii_lower sample_cfg locked_env
                     sample_message false empty_db) = true
  /\ post_counts (db_after (post_tweet ascii_lower sample_cfg locked_env
                              sample_message false empty_db))
     = post_counts empty_db.
Proof.
  assert (H : forall c, In c sample_calls ->
                        db_at_increment (call_env c) = Healthy)
    by (intros c [<-|[<-|[]]]; reflexivity).
  assert (H0 : (0 <= count_of (lit "2025-03") empty_db)%Z)
    by (vm_compute; discriminate).
  assert (H1 : (count_of (lit "2025-03") empty_db
                + Z.of_nat (List.length sample_calls) <= INTEGER_MAX + 1)%Z)
    by (vm_compute; discriminate).
  assert (H2 : countable (count_of (clock_at_increment sample_env) empty_db))
    by (split; vm_compute; discriminate).
  split; [exact H|]. split; [exact H0|]. split; [exact H1|].
  split; [exact (proj1 (counter_tallies_posts ascii_lower sample_cfg)
                   sample_calls empty_db (lit "2025-03") H H0 H1)|].
  split; [reflexivity|]. split; [exact H2|].
  split; [vm_compute; reflexivity|].
  split; [exact (proj1 (proj1 (proj2 (counter_tallies_posts ascii_lower
                                        sample_cfg))
                          sample_env sample_message true empty_db
                          sample_response eq_refl H2
                          ltac:(vm_compute; reflexivity)))|].
  split; [reflexivity|]. split; [vm_compute; reflexivity|].
  exact (proj1 (proj2 (proj2 (proj2 (counter_tallies_posts ascii_lower
                                       sample_cfg))
                         locked_env sample_message false empty_db
                         (lit "database is locked") eq_refl
                         ltac:(vm_compute; reflexivity)))).
Defined.

(** C4 as stated fails: the database is locked when the count is
    written, the call succeeds all the same, the tweet is out, and the
    count of the month is what it was. *)
Lemma count_lost_counterexample :
  outcome (post_tweet ascii_lower sample_cfg locked_env sample_message
             false empty_db) = Ret (Some sample_response)
  /\ transmitted (events (post_tweet ascii_lower sample_cfg locked_env
                            sample_message false empty_db))
     = [sample_message]
  /\ count_of (lit "2025-03")
       (db_after (post_tweet ascii_lower sample_cfg locked_env
                    sample_message false empty_db))
     = 0%Z
  /\ count_of (lit "2025-03")
       (db_after (post_tweet ascii_lower sample_cfg locked_env
                    sample_message false empty_db))
     <> (count_of (lit "2025-03") empty_db + 1)%Z.
Proof. repeat split; vm_compute; congruence. Qed.

(** C5 on the sample message. *)
Lemma recorded_content_is_found_witness :
  outcome (record_posted_tweet sample_message (lit "1849") Healthy empty_db)
  = Ret true
  /\ outcome (has_posted_before sample_message Healthy
                (db_after (record_posted_tweet sample_message (lit "1849")
                             Healthy empty_db)))
     = Ret true.
Proof.
  split; [vm_compute; reflexivity|].
  exact (proj1 (recorded_content_is_found sample_message (lit "1849")
                  Healthy empty_db ltac:(vm_compute; reflexivity))).
Defined.

(** C6, as amended, on the sample message under a locked database. *)
Lemma writes_absorb_database_errors_witness :
  encodable sample_message = true
  /\ encodable (lit "1849") = true
  /\ outcome (record_posted_tweet sample_message (lit "1849")
                locked empty_db)
     = Ret false.
Proof.
  split; [reflexivity|]. split; [reflexivity|].
  exact (proj1 (proj1 (proj2 (proj2 (proj2 (proj2
           (writes_absorb_database_errors (lit "2025-03") sample_message
              (lit "1849") locked empty_db)))))
           eq_refl eq_refl)).
Defined.

(** C6 as stated fails: no database error occurs, yet
    [record_posted_tweet] does not return [True]; the content cannot be
    encoded and the codec's error leaves the function. *)
Lemma surrogate_content_counterexample :
  faulty Healthy = false
  /\ outcome (record_posted_tweet [55296]%N (lit "1849") Healthy empty_db)
     <> Ret true
  /\ outcome (record_posted_tweet [55296]%N (lit "1849") Healthy empty_db)
     = Raise (UnicodeEncodeError
                (lit "'utf-8' codec can't encode character '\ud800' in position 0: surrogates not allowed")).
Proof. repeat split; vm_compute; congruence. Qed.

(** C7 in a new database. *)
Lemma fresh_month_counts_zero_witness :
  select_count (clock_at_check sample_env) empty_db = None
  /\ db_at_check sample_env = Healthy
  /\ (0 < RATE_LIMIT_MAX sample_cfg)%Z
  /\ outcome (get_post_count (clock_at_check sample_env)
                (db_at_check sample_env) empty_db) = Ret 0%Z
  /\ outcome (post_tweet ascii_lower sample_cfg sample_env sample_message
                false empty_db) = Ret (Some sample_response).
Proof.
  split; [reflexivity|]. split; [reflexivity|].
  split; [vm_compute; reflexivity|].
  pose (W := fresh_month_counts_zero ascii_lower sample_cfg sample_env
               sample_message false empty_db
               eq_refl eq_refl ltac:(vm_compute; reflexivity)).
  split; [exact (proj1 W)|].
  refine (proj2 (proj2 (proj2 W) sample_message sample_response (lit "1849")
                   _ _ _ _ _ _ _ _ _));
    try (vm_compute; reflexivity).
  discriminate.
Defined.

(** C8 on a blank message. *)
Lemma invalid_message_rejected_witness :
  (blank (lit "   " ++ nl) = true \/ (280 < len (lit "   " ++ nl))%Z)
  /\ outcome (post_tweet ascii_lower sample_cfg sample_env
                (lit "   " ++ nl) false empty_db) = Ret None
  /\ db_after (post_tweet ascii_lower sample_cfg sample_env
                 (lit "   " ++ nl) false empty_db) = empty_db.
Proof.
  split; [left; reflexivity|].
  pose (W := invalid_message_rejected ascii_lower sample_cfg sample_env
               (lit "   " ++ nl) false empty_db (or_introl eq_refl)).
  exact (conj (proj1 W) (proj1 (proj2 (proj2 W)))).
Defined.



(** C10 on the sample message, recorded twice. *)
Lemma content_hash_stays_unique_witness :
  outcome (record_posted_tweet sample_message (lit "1849") Healthy empty_db)
  = Ret true
  /\ posted_tweets
       (db_after (record_posted_tweet sample_message (lit "2001") Healthy
                    (db_after (record_posted_tweet sample_message
                                 (lit "1849") Healthy empty_db))))
     = posted_tweets
         (db_after (record_posted_tweet sample_message (lit "1849")
                      Healthy empty_db)).
Proof.
  split; [vm_compute; reflexivity|].
  exact (proj2 (proj2 (proj2 (proj2 (proj2 content_hash_stays_unique))))
           sample_message (lit "1849") Healthy empty_db
           sample_message (lit "2001") Healthy sample_message sample_message
           ltac:(vm_compute; reflexivity) eq_refl eq_refl eq_refl).
Defined.

(* ================================================================== *)
(** * Instances of the further properties *)
(* ================================================================== *)

(** X1 on the first post. *)
Lemma post_tweet_returns_none_or_response_witness :
  encodable sample_message = true
  /\ (outcome (post_tweet ascii_lower sample_cfg sample_env sample_message
                 true empty_db) = Ret None
      \/ exists resp,
           outcome (post_tweet ascii_lower sample_cfg sample_env
                      sample_message true empty_db) = Ret (Some resp)
           /\ platform_reply sample_env = Ret resp).
Proof.
  split; [vm_compute; reflexivity|].
  apply (proj2 (post_tweet_returns_none_or_response ascii_lower sample_cfg
                  sample_env sample_message true empty_db));
    [vm_compute; reflexivity
    | intros e H; discriminate H
    | intros e H; discriminate H].
Defined.

(** X3 with a user who declines. *)
Lemma tables_change_only_after_acknowledgement_witness :
  acknowledged (post_tweet ascii_lower sample_cfg declining_env
                  sample_message true empty_db) = false
  /\ db_after (post_tweet ascii_lower sample_cfg declining_env
                 sample_message true empty_db) = empty_db.
Proof.
  split; [vm_compute; reflexivity|].
  apply (proj1 (tables_change_only_after_acknowledgement ascii_lower
                  sample_cfg declining_env sample_message true empty_db)).
  vm_compute; reflexivity.
Defined.

(** X5 without the access token. *)
Lemma no_posting_without_credentials_witness :
  unset_credentials keyless_cfg <> []
  /\ encodable sample_message = true
  /\ outcome (post_tweet ascii_lower keyless_cfg sample_env sample_message
                true empty_db) = Ret None
  /\ transmitted (events (post_tweet ascii_lower keyless_cfg sample_env
                            sample_message true empty_db)) = []
  /\ db_after (post_tweet ascii_lower keyless_cfg sample_env sample_message
                 true empty_db) = empty_db.
Proof.
  assert (H : unset_credentials keyless_cfg <> [])
    by (vm_compute; discriminate).
  split; [exact H|]. split; [vm_compute; reflexivity|].
  destruct (no_posting_without_credentials ascii_lower keyless_cfg sample_env
              sample_message true empty_db H) as (_ & Ht & Hd & Ho).
  split; [|now split].
  apply Ho; [vm_compute; reflexivity | intros e _ He; discriminate He].
Defined.

(** X8: the sample message, posted, then tried again after two more
    calls. *)
Lemma posted_message_is_not_posted_again_witness :
  outcome (post_tweet ascii_lower sample_cfg sample_env sample_message true
             empty_db) = Ret (Some sample_response)
  /\ db_at_record sample_env = Healthy
  /\ outcome
       (post_tweet ascii_lower sample_cfg sample_env sample_message false
          (run ascii_lower sample_cfg sample_calls
             (db_after (post_tweet ascii_lower sample_cfg sample_env
                          sample_message true empty_db))))
     = Ret None.
Proof.
  split; [vm_compute; reflexivity|]. split; [reflexivity|].
  apply (posted_message_is_not_posted_again ascii_lower sample_cfg
           sample_env sample_message true empty_db sample_response
           sample_calls sample_env false);
    [vm_compute; reflexivity | reflexivity].
Defined.

(** X9 over the two sample calls. *)
Lemma quota_is_never_exceeded_witness :
  (forall c, In c sample_calls ->
             clock_at_increment (call_env c) = clock_at_check (call_env c))
  /\ within_quota sample_cfg empty_db
  /\ within_quota sample_cfg
       (run ascii_lower sample_cfg sample_calls empty_db).
Proof.
  assert (H1 : forall c, In c sample_calls ->
                 clock_at_increment (call_env c)
                 = clock_at_check (call_env c))
    by (intros c [<-|[<-|[]]]; reflexivity).
  assert (H2 : within_quota sample_cfg empty_db)
    by (intros month; vm_compute; discriminate).
  split; [exact H1|]. split; [exact H2|].
  exact (quota_is_never_exceeded ascii_lower sample_cfg sample_calls
           empty_db H1 H2).
Defined.

(** X10 over the two sample calls. *)
Lemma tables_keep_unique_keys_witness :
  unique_keys empty_db
  /\ unique_keys (run ascii_lower sample_cfg sample_calls empty_db).
Proof.
  split.
  - apply (proj1 (tables_keep_unique_keys ascii_lower sample_cfg
                    sample_calls empty_db)).
  - apply (proj2 (tables_keep_unique_keys ascii_lower sample_cfg
                    sample_calls empty_db)).
    apply (proj1 (tables_keep_unique_keys ascii_lower sample_cfg
                    sample_calls empty_db)).
Defined.

(** X11 on the month of the sample message. *)
Lemma count_reads_back_incremented_witness :
  countable (count_of (lit "2025-03") seen_db)
  /\ outcome (get_post_count (lit "2025-03") Healthy
                (db_after (increment_post_count (lit "2025-03") Healthy
                             seen_db)))
     = Ret 2%Z.
Proof.
  assert (H : countable (count_of (lit "2025-03") seen_db))
    by (split; vm_compute; discriminate).
  split; [exact H|].
  rewrite (proj1 (count_reads_back_incremented (lit "2025-03") Healthy
                    seen_db (lit "2025-03")) H).
  vm_compute; reflexivity.
Defined.

(** X12 with a locked database. *)
Lemma failed_writes_change_nothing_witness :
  outcome (record_posted_tweet sample_message (lit "1849") locked seen_db)
  <> Ret true
  /\ db_after (record_posted_tweet sample_message (lit "1849") locked
                 seen_db) = seen_db.
Proof.
  split; [vm_compute; discriminate|].
  apply (proj1 (failed_writes_change_nothing (lit "2025-03") sample_message
                  (lit "1849") locked seen_db)).
  vm_compute; discriminate.
Defined.

(** X13 with another text. *)
Lemma recording_marks_only_its_digest_witness :
  encode sample_message = Some sample_message
  /\ encode (lit "Another thought.") = Some (lit "Another thought.")
  /\ outcome (has_posted_before (lit "Another thought.") Healthy
                (db_after (record_posted_tweet sample_message (lit "1849")
                             Healthy empty_db)))
     = Ret false.
Proof.
  split; [vm_compute; reflexivity|]. split; [vm_compute; reflexivity|].
  rewrite (proj1 (recording_marks_only_its_digest sample_message
                    (lit "1849") Healthy empty_db (lit "Another thought.")
                    sample_message (lit "Another thought.")
                    ltac:(vm_compute; reflexivity)
                    ltac:(vm_compute; reflexivity))).
  vm_compute; reflexivity.
Defined.

(** X14 without a Gemini key. *)
Lemma no_key_no_generation_witness :
  env_set (GEMINI_API_KEY keyless_cfg) = false
  /\ outcome (generate_tweet keyless_cfg sample_ai (lit "release cadence")
                empty_db) = Ret None
  /\ asked_of_ai (events (generate_tweet keyless_cfg sample_ai
                            (lit "release cadence") empty_db)) = [].
Proof.
  split; [reflexivity|].
  rewrite (no_key_no_generation keyless_cfg sample_ai
             (lit "release cadence") empty_db eq_refl).
  split; reflexivity.
Defined.

(** X16 on a quoted answer. *)
Lemma generated_text_has_no_wrapping_quotes_witness :
  outcome (generate_tweet sample_cfg sample_ai (lit "release cadence")
             empty_db) = Ret (Some sample_message)
  /\ bare (among quotes) sample_message.
Proof.
  split; [vm_compute; reflexivity|].
  apply (generated_text_has_no_wrapping_quotes sample_cfg sample_ai
           (lit "release cadence") empty_db).
  vm_compute; reflexivity.
Defined.



(** X19 with the sample AI and a user who approves. *)
Lemma cmd_copilot_always_exits_zero_witness :
  encodable (join (lit " ") sample_topic) = true
  /\ ai_printable sample_ai
  /\ outcome (cmd_copilot ascii_lower sample_cfg sample_ai sample_env
                sample_topic empty_db) = Ret 0%Z.
Proof.
  assert (Hai : ai_printable sample_ai).
  { intros e [H|(response & H1 & H2)]; [discriminate H|].
    injection H1 as <-. discriminate H2. }
  split; [vm_compute; reflexivity|]. split; [exact Hai|].
  apply (proj2 (proj2 (proj2 (cmd_copilot_always_exits_zero ascii_lower
                                sample_cfg sample_ai sample_env
                                sample_topic empty_db))));
    [vm_compute; reflexivity
    | exact Hai
    | intros g H; vm_compute in H; injection H as <-; vm_compute; reflexivity
    | intros e H; discriminate H
    | intros e H; discriminate H].
Defined.

(** X20 on a new mention. *)
Lemma mention_is_processed_once_witness :
  OnStore.outcome
    (mark_mention_processed (lit "1901") (Some (lit "42"))
       (Some (lit "ada")) Healthy empty_store) = Ret true
  /\ OnStore.outcome
       (has_processed_mention (lit "1901") Healthy
          (OnStore.store_after
             (mark_mention_processed (lit "1901") (Some (lit "42"))
                (Some (lit "ada")) Healthy empty_store))) = Ret true.
Proof.
  split; [vm_compute; reflexivity|].
  apply (proj1 (mention_is_processed_once (lit "1901") (Some (lit "42"))
                  (Some (lit "ada")) Healthy empty_store)).
  vm_compute; reflexivity.
Defined.

(** X21 on a new retweet. *)
Lemma retweet_is_recorded_once_witness :
  OnStore.outcome (record_retweet (lit "1849") false Healthy empty_store)
  = Ret true
  /\ OnStore.outcome
       (has_retweeted (lit "1849") Healthy
          (OnStore.store_after
             (record_retweet (lit "1849") false Healthy empty_store)))
     = Ret true.
Proof.
  split; [vm_compute; reflexivity|].
  apply (proj1 (retweet_is_recorded_once (lit "1849") false Healthy
                  empty_store)).
  vm_compute; reflexivity.
Defined.

(** X22 with a locked database. *)
Lemma reads_raise_database_errors_witness :
  fault_message locked = Some (lit "database is locked")
  /\ encodable sample_message = true
  /\ encodable (lit "1901") = true
  /\ get_bot_stats (lit "2025-03") locked full_store
     = store_failure (lit "database is locked") full_store.
Proof.
  split; [reflexivity|]. split; [vm_compute; reflexivity|].
  split; [vm_compute; reflexivity|].
  apply (reads_raise_database_errors (lit "2025-03") sample_message
           (lit "1901") locked (lit "database is locked") full_db
           full_store);
    [reflexivity | vm_compute; reflexivity | vm_compute; reflexivity].
Defined.

(** X23 on a first post. *)
Lemma statistics_follow_posts_witness :
  outcome (post_tweet ascii_lower sample_cfg sample_env sample_message true
             (core empty_store)) = Ret (Some sample_response)
  /\ db_at_increment sample_env = Healthy
  /\ db_at_record sample_env = Healthy
  /\ countable (count_of (clock_at_increment sample_env) (core empty_store))
  /\ OnStore.outcome
       (get_bot_stats (clock_at_increment sample_env) Healthy
          (OnStore.store_after
             (on_core (post_tweet ascii_lower sample_cfg sample_env
                         sample_message true) empty_store)))
     = Ret {| current_month_posts := 1; total_tweets := 1;
              total_mentions_processed := 0; total_retweets := 0 |}.
Proof.
  assert (H : countable (count_of (clock_at_increment sample_env)
                           (core empty_store)))
    by (split; vm_compute; discriminate).
  split; [vm_compute; reflexivity|]. split; [reflexivity|].
  split; [reflexivity|]. split; [exact H|].
  rewrite (proj1 (statistics_follow_posts ascii_lower sample_cfg sample_env
                    sample_message true empty_store sample_response
                    ltac:(vm_compute; reflexivity) eq_refl eq_refl H)).
  vm_compute; reflexivity.
Defined.

(** X24 on a new mention. *)
Lemma statistics_count_each_id_once_witness :
  OnStore.outcome
    (mark_mention_processed (lit "1901") None None Healthy empty_store)
  = Ret true
  /\ total_mentions_processed
       (stats_of (lit "2025-03")
          (OnStore.store_after
             (mark_mention_processed (lit "1901") None None Healthy
                empty_store)))
     = 1%Z.
Proof.
  split; [vm_compute; reflexivity|].
  rewrite (proj1 (statistics_count_each_id_once (lit "2025-03") (lit "1901")
                    None None false Healthy empty_store)
             ltac:(vm_compute; reflexivity)).
  vm_compute; reflexivity.
Defined.

